(** * Anti-Gravity: the data-quality audit and the cleaning engines

    A shallow embedding of

    - [modules/data_audit.py]   ([run_audit]),
    - [src/quality_audit.py]    ([DataQualityAudit]: the completeness,
                                 accuracy and consistency checks),
    - [modules/cleaning.py]     ([DataCleaner]),
    - [src/cleaning_engine.py]  ([CleaningEngine]),
    - [modules/insights.py]     ([InsightGenerator.get_main_pain_point]),
    - [src/data_loader.py]      ([get_data_dictionary]),

    together with the fragment of pandas these functions call.

    Modelling conventions.
    - A pandas cell is a tagged value [cell]; [NA] is a missing value:
      NaN in a column of numbers or of text, NaT in a column of
      timestamps, and None where a function hands it out in place of a
      cell.  Columns are as [read_csv] and pandas's own operations build
      them, so no column holds None.  A column is a [list cell]; a frame
      is an ordered association list of named columns plus the length of
      its index.  The dtype of a column is read off its cells; a column
      with nothing but missing cells counts as float64, which is what
      [read_csv] makes of it.  Where the outcome of a call depends on
      whether such a column is float64 or datetime64 (the [.dt]
      accessor), that is a parameter.
    - Timestamps carry their civil fields and no time zone: columns of
      zone-aware timestamps are outside the model.  Parsing text or epoch
      numbers into timestamps is pandas's business and enters as a
      parameter.
    - Python floats are rationals ([Q]).  The completeness, accuracy and
      health scores and the comparisons with thresholds are idealised: they
      are computed exactly, and equalities between them are stated with
      [==] on [Q].  The consistency score and every number that an
      f-string prints are computed as Python computes them, in binary64:
      each operation is followed by rounding to the nearest binary64
      number; the float [-0.0] is not told from [0.0].  The mean of a
      column, whose order of additions is numpy's business, enters as a
      parameter.
    - A Python exception is a [Raise e] outcome of the [result] monad;
      [Unsupported] marks a call that leaves the modelled fragment. *)

From Stdlib Require Import ZArith QArith Qround Qminmax Qabs Qpower Lqa Lia.
From Stdlib Require Import String Ascii List DecimalString.
From Stdlib Require PrimFloat FloatOps SpecFloat.
From stdpp Require Import gmap strings list.

Local Open Scope string_scope.
Local Open Scope list_scope.

(** ** Exceptions and the [result] monad *)

Inductive exn : Type :=
| KeyError        (* a column name that is not in the frame *)
| TypeError       (* an operation on a cell of the wrong kind *)
| ValueError      (* [NaT.strftime], an unparsable date *)
| AttributeError  (* the [.dt] accessor on a column that is not temporal *)
| Unsupported.    (* the call leaves the fragment of pandas modelled here *)

Inductive result (A : Type) : Type :=
| Ok (a : A)
| Raise (e : exn).
Arguments Ok {A} a.
Arguments Raise {A} e.

Definition result_bind {A B} (f : A → result B) (m : result A) : result B :=
  match m with
  | Ok a => f a
  | Raise e => Raise e
  end.

#[export] Instance result_mbind : MBind result := @result_bind.
#[export] Instance result_mret : MRet result := @Ok.

(** ** Rationals as booleans *)

Definition Qltb (a b : Q) : bool := negb (Qle_bool b a).
Definition Qleb (a b : Q) : bool := Qle_bool a b.

Definition Qnat (n : nat) : Q := inject_Z (Z.of_nat n).

(** Python's [max(a, b)]: the first argument unless the second is larger. *)
Definition py_max (a b : Q) : Q := if Qltb a b then b else a.

(** Python's [sum(xs)]: a left fold starting from [0]. *)
Definition py_sum (xs : list Q) : Q := fold_left Qplus xs 0%Q.

(** ** Formatting numbers the way the f-strings do *)

Definition str_of_nat (n : nat) : string := NilZero.string_of_uint (Nat.to_uint n).
Definition str_of_Z (z : Z) : string := NilZero.string_of_int (Z.to_int z).

(** [f"{n:,}"]: decimal digits in groups of three, separated by commas. *)
Fixpoint commas_rev (ds : list ascii) : list ascii :=
  match ds with
  | a :: b :: c :: ((_ :: _) as rest) => a :: b :: c :: ","%char :: commas_rev rest
  | _ => ds
  end.

Definition fmt_thousands (n : nat) : string :=
  string_of_list_ascii
    (rev (commas_rev (rev (list_ascii_of_string (str_of_nat n))))).

(** Rounding to the nearest integer, ties to even. *)
Definition round_half_even (q : Q) : Z :=
  let f := Qfloor q in
  let r := (q - inject_Z f)%Q in
  if Qltb r (1 # 2) then f
  else if Qltb (1 # 2) r then (f + 1)%Z
  else if Z.even f then f else (f + 1)%Z.

(** ** Binary64

    A finite float is the rational it denotes.  An operation on floats is
    the exact operation followed by rounding to the nearest binary64
    number, ties to even: 53 significant bits, and multiples of [2^-1074]
    below [2^-1022].  A result from [2^1024] on is an overflow: Python
    has infinity there and the model has no such cell, so the call leaves
    the model.  Percentages do not get there. *)

(** The [e] with [2^e <= x < 2^(e+1)], for a positive [x]. *)
Definition binade (x : Q) : Z :=
  let e0 := (Z.log2 (Qnum x) - Z.log2 (Zpos (Qden x)))%Z in
  if Qltb x (2 ^ e0) then (e0 - 1)%Z else e0.

Definition round_binary64_pos (x : Q) : Q :=
  let e := Z.max (binade x - 52) (-1074) in
  Qred (inject_Z (round_half_even (x / 2 ^ e)) * 2 ^ e).

Definition round_binary64 (x : Q) : Q :=
  if Qltb 0 x then round_binary64_pos x
  else if Qltb x 0 then (- round_binary64_pos (- x))%Q
  else 0%Q.

(** [a + b], [a - b], [a * b] and [a / b] on floats. *)
Definition fadd (a b : Q) : Q := round_binary64 (a + b).
Definition fsub (a b : Q) : Q := round_binary64 (a - b).
Definition fmul (a b : Q) : Q := round_binary64 (a * b).
Definition fdiv (a b : Q) : Q := round_binary64 (a / b).

(** Whether a rounded result is out of the finite range. *)
Definition overflows (x : Q) : bool := Qleb (2 ^ 1024) (Qabs x).

(** [(count / total) * 100] on two integers, as Python evaluates it; the
    counts of a table are below [2^53] and are floats as they are. *)
Definition percent_binary64 (count total : nat) : Q :=
  fmul (fdiv (Qnat count) (Qnat total)) 100.

(** Whether the percentage of a share that is exactly [t]% is the float
    [t]. *)
Definition percent_binary64_at_threshold (t : Z) : bool :=
  Qeq_bool (round_binary64 (round_binary64 (inject_Z t / 100) * 100)) (inject_Z t).

(** The unit roundoff, and half the least positive float. *)
Definition ulp_half : Q := 2 ^ (-53).
Definition tiny : Q := 2 ^ (-1075).

(** The same percentage computed with the floats of the kernel, for
    comparison. *)
Fixpoint float_of_pos (p : positive) : PrimFloat.float :=
  match p with
  | xH => PrimFloat.one
  | xO p' => PrimFloat.mul PrimFloat.two (float_of_pos p')
  | xI p' =>
      PrimFloat.add (PrimFloat.mul PrimFloat.two (float_of_pos p')) PrimFloat.one
  end.
Definition float_of_nat (n : nat) : PrimFloat.float :=
  match n with
  | O => PrimFloat.zero
  | _ => float_of_pos (Pos.of_nat n)
  end.
Definition float_value (x : PrimFloat.float) : option Q :=
  match FloatOps.Prim2SF x with
  | SpecFloat.S754_zero _ => Some 0%Q
  | SpecFloat.S754_finite s m e =>
      Some (Qred (inject_Z (if s then Zneg m else Zpos m) * 2 ^ e))
  | _ => None
  end.
Definition kernel_percent (count total : nat) : PrimFloat.float :=
  PrimFloat.mul (PrimFloat.div (float_of_nat count) (float_of_nat total))
                (float_of_nat 100).
Definition kernel_consistency (duplicate_count total_rows : nat) : PrimFloat.float :=
  PrimFloat.sub (float_of_nat 100) (kernel_percent duplicate_count total_rows).

Definition pad2 (z : Z) : string :=
  if (z <? 10)%Z then "0" ++ str_of_Z z else str_of_Z z.

Definition pad4 (z : Z) : string :=
  if (z <? 10)%Z then "000" ++ str_of_Z z
  else if (z <? 100)%Z then "00" ++ str_of_Z z
  else if (z <? 1000)%Z then "0" ++ str_of_Z z
  else str_of_Z z.

(** [f"{x:.2f}"] on a finite float, given as the number it denotes: the
    decimal nearest to it, ties to even. *)
Definition fmt_2f_abs (q : Q) : string :=
  let n := round_half_even (q * 100)%Q in
  str_of_Z (n / 100)%Z ++ "." ++ pad2 (n mod 100)%Z.

Definition fmt_2f (q : Q) : string :=
  if Qltb q 0 then "-" ++ fmt_2f_abs (- q)%Q else fmt_2f_abs q.

(** ** Timestamps

    [datetime.datetime] and [pandas.Timestamp] carry civil fields and are
    ordered lexicographically on them. *)

Record Timestamp : Type := mkTimestamp {
  year : Z; month : Z; day : Z;
  hour : Z; minute : Z; second : Z; microsecond : Z
}.

Definition ts_fields (t : Timestamp) : list Z :=
  [year t; month t; day t; hour t; minute t; second t; microsecond t].

Fixpoint lex_ltb (xs ys : list Z) : bool :=
  match xs, ys with
  | x :: xs', y :: ys' => (x <? y)%Z || ((x =? y)%Z && lex_ltb xs' ys')
  | _, _ => false
  end.

Definition ts_ltb (a b : Timestamp) : bool := lex_ltb (ts_fields a) (ts_fields b).

Definition ts_eqb (a b : Timestamp) : bool :=
  bool_decide (ts_fields a = ts_fields b).

(** [t.strftime("%Y-%m-%d %H:%M:%S")] *)
Definition strftime (t : Timestamp) : string :=
  pad4 (year t) ++ "-" ++ pad2 (month t) ++ "-" ++ pad2 (day t) ++ " " ++
  pad2 (hour t) ++ ":" ++ pad2 (minute t) ++ ":" ++ pad2 (second t).

(** ** Cells, series and frames *)

Inductive cell : Type :=
| NA                      (* NaN / None / NaT *)
| Num (q : Q)             (* int64 or float64 value *)
| Str (s : string)        (* Python str in an object column *)
| Time (t : Timestamp).   (* datetime64 value *)

Abbreviation Series := (list cell).

Record DataFrame : Type := mkDataFrame {
  nrows : nat;                          (* len(df.index) *)
  columns : list (string * Series)      (* df.columns, in order, with data *)
}.

(** The shape invariant of a frame: distinct labels, columns as long as
    the index. *)
Definition df_wf (df : DataFrame) : Prop :=
  NoDup (map fst (columns df)) ∧
  Forall (λ c, length (snd c) = nrows df) (columns df).

Definition column_names (df : DataFrame) : list string := map fst (columns df).

(** [df.empty]: some axis has length zero. *)
Definition df_empty (df : DataFrame) : bool :=
  (nrows df =? 0)%nat || match columns df with [] => true | _ => false end.

Fixpoint assoc (k : string) (kvs : list (string * Series)) : option Series :=
  match kvs with
  | [] => None
  | (k', v) :: rest => if String.eqb k k' then Some v else assoc k rest
  end.

(** [col in df.columns] *)
Definition has_column (df : DataFrame) (col : string) : bool :=
  match assoc col (columns df) with Some _ => true | None => false end.

(** [df[col]] *)
Definition df_get (df : DataFrame) (col : string) : result Series :=
  match assoc col (columns df) with
  | Some s => Ok s
  | None => Raise KeyError
  end.

(** *** The fragment of pandas used by the audit *)

Definition is_na (c : cell) : bool :=
  match c with NA => true | _ => false end.

(** Equality of keys as hashing sees it: missing values are equal to each
    other, values of different kinds are different. *)
Definition cell_eqb (a b : cell) : bool :=
  match a, b with
  | NA, NA => true
  | Num x, Num y => Qeq_bool x y
  | Str x, Str y => String.eqb x y
  | Time x, Time y => ts_eqb x y
  | _, _ => false
  end.

Definition count_true (bs : list bool) : nat := length (filter (λ b, b = true) bs).

(** [s.isnull().sum()] *)
Definition isnull_sum (s : Series) : nat := count_true (map is_na s).

(** [s.nunique()]: distinct values, missing ones not counted. *)
Fixpoint nunique_from (seen : list cell) (s : Series) : nat :=
  match s with
  | [] => 0
  | v :: rest =>
      if is_na v || existsb (cell_eqb v) seen then nunique_from seen rest
      else S (nunique_from (v :: seen) rest)
  end.
Definition nunique (s : Series) : nat := nunique_from [] s.

(** [str(s.dtype)] *)
Definition is_numeric (c : cell) : bool :=
  match c with NA | Num _ => true | _ => false end.
Definition is_temporal (c : cell) : bool :=
  match c with NA | Time _ => true | _ => false end.
Definition dtype (s : Series) : string :=
  if forallb is_numeric s then "float64"
  else if forallb is_temporal s then "datetime64[ns]"
  else "object".

(** [s.duplicated()] with the default [keep='first']: a row is marked when
    its key has been seen in an earlier row. *)
Fixpoint duplicated_from (seen : list cell) (s : Series) : list bool :=
  match s with
  | [] => []
  | v :: rest => existsb (cell_eqb v) seen :: duplicated_from (v :: seen) rest
  end.
Definition duplicated (s : Series) : list bool := duplicated_from [] s.

(** [s > x] and [s < x] against a number: missing cells compare false,
    cells that are not numbers raise. *)
Definition cmp_num (op : Q → Q → bool) (x : Q) (c : cell) : result bool :=
  match c with
  | NA => Ok false
  | Num q => Ok (op q x)
  | Str _ | Time _ => Raise TypeError
  end.

Fixpoint mapR {A B} (f : A → result B) (l : list A) : result (list B) :=
  match l with
  | [] => Ok []
  | a :: rest => b ← f a; bs ← mapR f rest; Ok (b :: bs)
  end.

Definition series_gt (s : Series) (x : Q) : result (list bool) :=
  mapR (cmp_num (λ q x, Qltb x q) x) s.
Definition series_lt (s : Series) (x : Q) : result (list bool) :=
  mapR (cmp_num (λ q x, Qltb q x) x) s.
Definition series_ge (s : Series) (x : Q) : result (list bool) :=
  mapR (cmp_num (λ q x, Qleb x q) x) s.

(** [s > now] on a temporal series. *)
Definition cmp_time (now : Timestamp) (c : cell) : result bool :=
  match c with
  | NA => Ok false
  | Time t => Ok (ts_ltb now t)
  | Num _ | Str _ => Raise TypeError
  end.
Definition series_after (s : Series) (now : Timestamp) : result (list bool) :=
  mapR (cmp_time now) s.

(** [s.max()] on a temporal series: missing cells are skipped, and the
    result is NaT when nothing is left. *)
Fixpoint series_max_time (s : Series) : result cell :=
  match s with
  | [] => Ok NA
  | NA :: rest => series_max_time rest
  | Time t :: rest =>
      m ← series_max_time rest;
      match m with
      | Time u => Ok (Time (if ts_ltb t u then u else t))
      | _ => Ok (Time t)
      end
  | (Num _ | Str _) :: _ => Raise TypeError
  end.

(** [x.strftime(...)] on the scalar returned by [max()]. *)
Definition cell_strftime (c : cell) : result string :=
  match c with
  | Time t => Ok (strftime t)
  | NA => Raise ValueError
  | Num _ | Str _ => Raise AttributeError
  end.

(** ** [modules/data_audit.py] *)

(** One row of [results['column_stats']]. *)
Record ColumnStat : Type := mkColumnStat {
  cs_column_name : string;     (* 'Column Name' *)
  cs_type : string;            (* 'Type' *)
  cs_pct_missing : string;     (* '% Missing' *)
  cs_unique_values : string;   (* 'Unique Values' *)
  cs_status : string           (* 'Status' *)
}.

(** The [results] dictionary.  [health_score] is [None] while the key is
    not in the dictionary. *)
Record AuditResults : Type := mkAuditResults {
  column_stats : list ColumnStat;
  scores : gmap string Q;
  summary : list string;
  latest_date : string;
  health_score : option Q
}.

Definition set_latest_date (s : string) (r : AuditResults) : AuditResults :=
  mkAuditResults (column_stats r) (scores r) (summary r) s (health_score r).
Definition append_summary (msg : string) (r : AuditResults) : AuditResults :=
  mkAuditResults (column_stats r) (scores r) (summary r ++ [msg]) (latest_date r)
                 (health_score r).
Definition append_column_stat (cs : ColumnStat) (r : AuditResults) : AuditResults :=
  mkAuditResults (column_stats r ++ [cs]) (scores r) (summary r) (latest_date r)
                 (health_score r).
Definition set_score (k : string) (v : Q) (r : AuditResults) : AuditResults :=
  mkAuditResults (column_stats r) (<[k := v]> (scores r)) (summary r) (latest_date r)
                 (health_score r).
Definition set_health_score (v : Q) (r : AuditResults) : AuditResults :=
  mkAuditResults (column_stats r) (scores r) (summary r) (latest_date r) (Some v).

(** [results['scores'][k]] *)
Definition get_score (k : string) (r : AuditResults) : result Q :=
  match scores r !! k with
  | Some v => Ok v
  | None => Raise KeyError
  end.

Definition key_fields : list string :=
  ["Report Number"; "Local Case Number"; "Agency Name"; "Crash Date/Time"].

Definition primary_key : string := "Report Number".

Definition in_list (s : string) (l : list string) : bool := existsb (String.eqb s) l.

(** The findings, as the f-strings build them; [missing_pct] is the float
    that is printed. *)
Definition key_field_msg (col : string) (missing_pct : Q) : string :=
  "Key field '" ++ col ++ "' exceeds 1% missing threshold (" ++
  fmt_2f missing_pct ++ "%).".
Definition duplicate_msg (duplicate_count : nat) : string :=
  "Found " ++ fmt_thousands duplicate_count ++ " duplicate IDs based on '" ++
  primary_key ++ "'.".
Definition future_msg (future_dates : nat) : string :=
  "Detected " ++ str_of_nat future_dates ++ " records with crashes in the future.".
Definition years_msg (invalid_years : nat) (current_year : Z) : string :=
  "Detected " ++ str_of_nat invalid_years ++ " vehicles with years beyond " ++
  str_of_Z (current_year + 1) ++ ".".
Definition speed_msg (neg_speeds : nat) : string :=
  "Detected " ++ str_of_nat neg_speeds ++ " negative values in Speed Limit.".

(** The body of [for col in df.columns]; the loop state is [results] and
    [completeness_metrics].  [missing_pct] is read exactly where it is
    compared and where it enters the score, and as the float it is where
    it is printed. *)
Definition audit_column (df : DataFrame) (total_rows : nat)
    (st : AuditResults * list Q) (col : string) : result (AuditResults * list Q) :=
  let '(results, completeness_metrics) := st in
  s ← df_get df col;
  let missing_count := isnull_sum s in
  let missing_pct := (Qnat missing_count / Qnat total_rows * 100)%Q in
  let printed_pct := percent_binary64 missing_count total_rows in
  let unique_vals := nunique s in
  let dtype := dtype s in
  let '(status, results) :=
    if in_list col key_fields && Qltb 1 missing_pct then
      ("Critical", append_summary (key_field_msg col printed_pct) results)
    else if Qltb 10 missing_pct then ("Warning", results)
    else ("Valid", results) in
  let results :=
    append_column_stat
      (mkColumnStat col dtype (fmt_2f printed_pct ++ "%")
                    (fmt_thousands unique_vals) status) results in
  Ok (results, completeness_metrics ++ [(100 - missing_pct)%Q]).

Fixpoint foldR {A S} (f : S → A → result S) (l : list A) (s : S) : result S :=
  match l with
  | [] => Ok s
  | a :: rest => s' ← f s a; foldR f rest s'
  end.

Section Audit.
(** pandas's date parser for strings and for epoch numbers; [None] when
    pandas raises on the value. *)
Variable parse_datetime : string → option Timestamp.
Variable epoch_datetime : Q → option Timestamp.

Definition to_datetime_cell (c : cell) : result cell :=
  match c with
  | NA => Ok NA
  | Time t => Ok (Time t)
  | Str s =>
      match parse_datetime s with Some t => Ok (Time t) | None => Raise ValueError end
  | Num q =>
      match epoch_datetime q with Some t => Ok (Time t) | None => Raise ValueError end
  end.

(** [pd.to_datetime(s)] *)
Definition to_datetime (s : Series) : result Series := mapR to_datetime_cell s.

(** Step 1, the timeliness check. *)
Definition audit_timeliness (df : DataFrame) (results : AuditResults)
    : result AuditResults :=
  if has_column df "Crash Date/Time" then
    s ← df_get df "Crash Date/Time";
    dates ← to_datetime s;
    latest ← series_max_time dates;
    text ← cell_strftime latest;
    Ok (set_latest_date text results)
  else Ok results.

(** Step 3, the consistency check; the score is a float. *)
Definition audit_consistency (df : DataFrame) (total_rows : nat)
    (results : AuditResults) : result AuditResults :=
  if has_column df primary_key then
    s ← df_get df primary_key;
    let duplicate_count := count_true (duplicated s) in
    let duplicate_rate := percent_binary64 duplicate_count total_rows in
    let results := set_score "consistency" (fsub 100 duplicate_rate) results in
    if (0 <? duplicate_count)%nat then
      Ok (append_summary (duplicate_msg duplicate_count) results)
    else Ok results
  else Ok (set_score "consistency" 100%Q results).

(** Step 4, the three accuracy checks; the state is [results] and
    [accuracy_issues_count]. *)
Definition audit_future_dates (now : Timestamp) (df : DataFrame)
    (st : AuditResults * nat) : result (AuditResults * nat) :=
  let '(results, accuracy_issues_count) := st in
  if has_column df "Crash Date/Time" then
    s ← df_get df "Crash Date/Time";
    dates ← to_datetime s;
    mask ← series_after dates now;
    let future_dates := count_true mask in
    if (0 <? future_dates)%nat then
      Ok (append_summary (future_msg future_dates) results,
          accuracy_issues_count + future_dates)
    else Ok (results, accuracy_issues_count)
  else Ok (results, accuracy_issues_count).

Definition audit_vehicle_years (current_year : Z) (df : DataFrame)
    (st : AuditResults * nat) : result (AuditResults * nat) :=
  let '(results, accuracy_issues_count) := st in
  if has_column df "Vehicle Year" then
    s ← df_get df "Vehicle Year";
    mask ← series_gt s (inject_Z (current_year + 1));
    let invalid_years := count_true mask in
    if (0 <? invalid_years)%nat then
      Ok (append_summary (years_msg invalid_years current_year) results,
          accuracy_issues_count + invalid_years)
    else Ok (results, accuracy_issues_count)
  else Ok (results, accuracy_issues_count).

Definition audit_speed_limits (df : DataFrame)
    (st : AuditResults * nat) : result (AuditResults * nat) :=
  let '(results, accuracy_issues_count) := st in
  if has_column df "Speed Limit" then
    s ← df_get df "Speed Limit";
    mask ← series_lt s 0%Q;
    let neg_speeds := count_true mask in
    if (0 <? neg_speeds)%nat then
      Ok (append_summary (speed_msg neg_speeds) results,
          accuracy_issues_count + neg_speeds)
    else Ok (results, accuracy_issues_count)
  else Ok (results, accuracy_issues_count).

(** [run_audit(df)]; [current_year] and [now] are the two readings of the
    wall clock. *)
Definition run_audit (current_year : Z) (now : Timestamp) (df : DataFrame)
    : result AuditResults :=
  let total_rows := nrows df in
  let results := mkAuditResults [] ∅ [] "N/A" None in
  if df_empty df then Ok results else
  results ← audit_timeliness df results;
  let completeness_metrics : list Q := [] in
  let accuracy_issues_count := 0%nat in
  '(results, completeness_metrics) ←
      foldR (audit_column df total_rows) (column_names df)
            (results, completeness_metrics);
  results ← audit_consistency df total_rows results;
  st ← audit_future_dates now df (results, accuracy_issues_count);
  st ← audit_vehicle_years current_year df st;
  '(results, accuracy_issues_count) ← audit_speed_limits df st;
  let accuracy_rate :=
    ((1 - Qnat accuracy_issues_count / Qnat (total_rows * 3)) * 100)%Q in
  let results := set_score "accuracy" (py_max 0 accuracy_rate) results in
  let results :=
    set_score "completeness"
      (py_sum completeness_metrics / Qnat (length completeness_metrics))%Q results in
  completeness ← get_score "completeness" results;
  consistency ← get_score "consistency" results;
  accuracy ← get_score "accuracy" results;
  Ok (set_health_score ((completeness + consistency + accuracy) / 3)%Q results).
End Audit.

(** ** Row selection and column assignment *)

(** [s[mask]]: the cells whose mask entry is [True]. *)
Fixpoint select (mask : list bool) (s : Series) : Series :=
  match mask, s with
  | b :: mask', c :: s' => if b then c :: select mask' s' else select mask' s'
  | _, _ => []
  end.

(** [df[mask]]: a new frame with the selected rows. *)
Definition df_filter (mask : list bool) (df : DataFrame) : DataFrame :=
  mkDataFrame (count_true mask)
              (map (λ c, (fst c, select mask (snd c))) (columns df)).

Fixpoint assoc_set (k : string) (v : Series) (kvs : list (string * Series))
    : list (string * Series) :=
  match kvs with
  | [] => [(k, v)]
  | (k', v') :: rest =>
      if String.eqb k k' then (k, v) :: rest else (k', v') :: assoc_set k v rest
  end.

(** [df[col] = s] with [s] on the index of [df]: the column is replaced
    where it stands, or added last. *)
Definition df_set (df : DataFrame) (col : string) (s : Series) : DataFrame :=
  mkDataFrame (nrows df) (assoc_set col s (columns df)).

(** ** [src/quality_audit.py]: [DataQualityAudit.check_consistency] *)

(** [s.dt.year]: only on a datetime64 column; NaT gives NaN.  A column
    that holds a timestamp and otherwise only missing cells is datetime64;
    whether a column with nothing but missing cells, or no cell at all, is
    datetime64 is not in its cells: [missing_is_datetime] says so. *)
Definition year_of_cell (c : cell) : cell :=
  match c with
  | Time t => Num (inject_Z (year t))
  | _ => NA
  end.
Definition dt_year (missing_is_datetime : bool) (s : Series) : result Series :=
  if forallb is_na s then
    if missing_is_datetime then Ok (map year_of_cell s) else Raise AttributeError
  else if String.eqb (dtype s) "datetime64[ns]" then Ok (map year_of_cell s)
  else Raise AttributeError.

(** [s + 1] on a numeric series. *)
Definition add_num (x : Q) (c : cell) : result cell :=
  match c with
  | NA => Ok NA
  | Num q => Ok (Num (q + x)%Q)
  | Str _ | Time _ => Raise TypeError
  end.
Definition series_add (s : Series) (x : Q) : result Series := mapR (add_num x) s.

(** [a > b] between two cells of two series on the same index. *)
Definition gt_cell (a b : cell) : result bool :=
  match a, b with
  | Num x, Num y => Ok (Qltb y x)
  | NA, (NA | Num _) | Num _, NA => Ok false
  | _, _ => Raise TypeError
  end.
Fixpoint series_gt_series (a b : Series) : result (list bool) :=
  match a, b with
  | x :: a', y :: b' => m ← gt_cell x y; ms ← series_gt_series a' b'; Ok (m :: ms)
  | _, _ => Ok []
  end.

Definition inconsistent_msg (n : nat) : string :=
  "Found " ++ str_of_nat n ++ " rows where Vehicle Year is ahead of Crash Date.".

(** The returned dictionary: ['status'] and ['issues']. *)
Record CheckResult : Type := mkCheckResult {
  status : string;
  issues : list string
}.

Definition check_consistency (missing_is_datetime : bool) (df : DataFrame)
    : result CheckResult :=
  issues ←
    (if has_column df "Crash Date/Time" && has_column df "Vehicle Year" then
       let df_temp := df in
       dates ← df_get df_temp "Crash Date/Time";
       years ← dt_year missing_is_datetime dates;
       let df_temp := df_set df_temp "Crash Year" years in
       vehicle_year ← df_get df_temp "Vehicle Year";
       crash_year ← df_get df_temp "Crash Year";
       limit ← series_add crash_year 1;
       mask ← series_gt_series vehicle_year limit;
       let inconsistent := df_filter mask df_temp in
       if negb (df_empty inconsistent) then
         Ok [inconsistent_msg (nrows inconsistent)]
       else Ok []
     else Ok []);
  Ok (mkCheckResult (match issues with [] => "Pass" | _ => "Warning" end) issues).

(** ** [modules/cleaning.py]: [DataCleaner.impute_column] *)

(** The numbers of a series, missing cells skipped; what [mean()] and
    [median()] reduce over. *)
Fixpoint numeric_values (s : Series) : result (list Q) :=
  match s with
  | [] => Ok []
  | NA :: rest => numeric_values rest
  | Num q :: rest => qs ← numeric_values rest; Ok (q :: qs)
  | Str _ :: _ => Raise TypeError
  | Time _ :: _ => Raise Unsupported
  end.

(** [s.mean()]: NaN when no value is left.  Otherwise the float mean of
    the values, [np_mean]: in which order numpy adds them up is its
    business.  [None] stands for a result that is not a finite number, an
    overflowing sum, which no cell of the model holds. *)
Definition series_mean (np_mean : list Q → option Q) (s : Series) : result cell :=
  qs ← numeric_values s;
  match qs with
  | [] => Ok NA
  | _ =>
      match np_mean qs with
      | Some m => Ok (Num m)
      | None => Raise Unsupported
      end
  end.

Fixpoint insert_sorted (x : Q) (l : list Q) : list Q :=
  match l with
  | [] => [x]
  | y :: rest => if Qle_bool x y then x :: l else y :: insert_sorted x rest
  end.
Definition sort_Q (l : list Q) : list Q := foldr insert_sorted [] l.

(** [s.median()]: the middle value, or the float mean of the two middle
    values, whose sum may overflow. *)
Definition series_median (s : Series) : result cell :=
  qs ← numeric_values s;
  let sorted := sort_Q qs in
  let n := length sorted in
  match n with
  | O => Ok NA
  | _ =>
      if Nat.odd n then Ok (Num (nth (n / 2) sorted 0%Q))
      else
        let total := fadd (nth (n / 2 - 1) sorted 0%Q) (nth (n / 2) sorted 0%Q) in
        if overflows total then Raise Unsupported
        else Ok (Num (fdiv total 2%Q))
  end.

(** The order in which [mode()] sorts its result; only cells of one kind
    are comparable. *)
Definition cell_ltb (a b : cell) : result bool :=
  match a, b with
  | Num x, Num y => Ok (Qltb x y)
  | Str x, Str y => Ok (String.ltb x y)
  | Time x, Time y => Ok (ts_ltb x y)
  | _, _ => Raise Unsupported
  end.

Definition occurrences (v : cell) (s : Series) : nat :=
  length (filter (λ c, cell_eqb v c = true) s).

(** [s.mode()[0] if not s.mode().empty else "N/A"]: the most frequent
    value, the smallest one among equally frequent values. *)
Definition mode_step (s : Series) (best : option cell) (v : cell)
    : result (option cell) :=
  if is_na v then Ok best else
  match best with
  | None => Ok (Some v)
  | Some w =>
      if cell_eqb v w then Ok best
      else
        smaller ← cell_ltb v w;
        let nv := occurrences v s in
        let nw := occurrences w s in
        if (nw <? nv)%nat || ((nv =? nw)%nat && smaller) then Ok (Some v)
        else Ok best
  end.
Definition mode_or_sentinel (s : Series) : result cell :=
  best ← foldR (mode_step s) s None;
  match best with
  | Some v => Ok v
  | None => Ok (Str "N/A")
  end.

(** [s.fillna(val)]; filling with NaN changes nothing. *)
Definition fillna (val : cell) (s : Series) : Series :=
  map (λ c, if is_na c then val else c) s.

(** [df.dropna(subset=[col])] *)
Definition notna_mask (s : Series) : list bool := map (λ c, negb (is_na c)) s.

Definition pad6 (z : Z) : string :=
  if (z <? 10)%Z then "00000" ++ str_of_Z z
  else if (z <? 100)%Z then "0000" ++ str_of_Z z
  else if (z <? 1000)%Z then "000" ++ str_of_Z z
  else if (z <? 10000)%Z then "00" ++ str_of_Z z
  else if (z <? 100000)%Z then "0" ++ str_of_Z z
  else str_of_Z z.

(** [f"{val:.2f}"] on the result of [mean()] or [median()]. *)
Definition fmt_2f_cell (c : cell) : result string :=
  match c with
  | Num q => Ok (fmt_2f q)
  | NA => Ok "nan"
  | Str _ => Raise ValueError
  | Time _ => Raise Unsupported
  end.

Section Cleaning.
(** Python's [str] on a float, and numpy's mean of a list of floats. *)
Variable py_str_num : Q → string.
Variable np_mean : list Q → option Q.

(** [str(x)], as [f"{x}"] renders a scalar. *)
Definition py_str (c : cell) : string :=
  match c with
  | Str s => s
  | Num q => py_str_num q
  | NA => "nan"
  | Time t =>
      if (microsecond t =? 0)%Z then strftime t
      else strftime t ++ "." ++ pad6 (microsecond t)
  end.

Definition impute_column (df : DataFrame) (col : string) (strategy : string)
    : result (DataFrame * string) :=
  let msg := "" in
  s ← df_get df col;
  let before_nulls := isnull_sum s in
  if String.eqb strategy "Mean" then
    val ← series_mean np_mean s;
    let df := df_set df col (fillna val s) in
    text ← fmt_2f_cell val;
    Ok (df, ("Imputed '" ++ col ++ "' with Mean: " ++ text)%string)
  else if String.eqb strategy "Median" then
    val ← series_median s;
    let df := df_set df col (fillna val s) in
    text ← fmt_2f_cell val;
    Ok (df, ("Imputed '" ++ col ++ "' with Median: " ++ text)%string)
  else if String.eqb strategy "Mode" then
    val ← mode_or_sentinel s;
    let df := df_set df col (fillna val s) in
    Ok (df, ("Imputed '" ++ col ++ "' with Mode: " ++ py_str val)%string)
  else if String.eqb strategy "Drop" then
    let df := df_filter (notna_mask s) df in
    Ok (df, ("Dropped " ++ str_of_nat before_nulls ++
             " rows with missing values in '" ++ col ++ "'")%string)
  else Ok (df, msg).
End Cleaning.

(** ** [src/cleaning_engine.py]: [CleaningEngine]

    Frames are objects: a variable holds a reference, and the store maps
    references to frames.  Mutating a frame in place updates the store at
    its reference; building a frame allocates a new reference. *)

Abbreviation loc := positive.
Abbreviation store := (gmap positive DataFrame).

(** One dictionary of [self.history]. *)
Record LogEntry : Type := mkLogEntry {
  log_timestamp : string;   (* 'Timestamp' *)
  log_operation : string;   (* 'Operation' *)
  log_impact : string       (* 'Impact' *)
}.

(** The engine object: [self.df] is a reference, [self.history] a list. *)
Record Engine : Type := mkEngine {
  self_df : loc;
  history : list LogEntry
}.

Definition deref (h : store) (l : loc) : result DataFrame :=
  match h !! l with
  | Some d => Ok d
  | None => Raise Unsupported   (* a dangling reference: not a Python state *)
  end.

(** [d.copy()]: a new object with the same contents. *)
Definition df_copy (h : store) (l : loc) : result (store * loc) :=
  d ← deref h l;
  let l' := fresh (dom h) in
  Ok (<[l' := d]> h, l').

(** [CleaningEngine(df)] *)
Definition engine_init (h : store) (df : loc) : result (store * Engine) :=
  '(h, l) ← df_copy h df;
  Ok (h, mkEngine l []).

(** [self.log_step(operation, impact)] at wall-clock time [now]. *)
Definition log_step (now : Timestamp) (operation impact : string) (self : Engine)
    : Engine :=
  mkEngine (self_df self)
           (history self ++ [mkLogEntry (strftime now) operation impact]).

(** The rows [dropna(subset=columns)] keeps: those with no missing cell in
    any of the columns. *)
Definition dropna_mask (df : DataFrame) (columns : list string) : result (list bool) :=
  foldR (λ mask col, s ← df_get df col; Ok (zip_with andb mask (notna_mask s)))
        columns (repeat true (nrows df)).

Definition removed_msg (before after : nat) : string :=
  "Removed " ++ str_of_Z (Z.of_nat before - Z.of_nat after) ++ " rows.".

Section Engine.
(** Python's [str] on a float, and whether pandas runs with
    copy-on-write, as it does from version 3 on. *)
Variable py_str_num : Q → string.
Variable copy_on_write : bool.

Definition drop_nulls (now : Timestamp) (columns : list string)
    (st : store * Engine) : result (store * Engine * loc) :=
  let '(h, self) := st in
  df ← deref h (self_df self);
  let before := nrows df in
  mask ← dropna_mask df columns;
  let h := <[self_df self := df_filter mask df]> h in   (* inplace=True *)
  df ← deref h (self_df self);
  let after := nrows df in
  let self :=
    log_step now ("Drop Nulls in " ++ String.concat ", " columns)
             (removed_msg before after) self in
  Ok (h, self, self_df self).

(** [self.df[column].fillna(value, inplace=True)] fills the column that
    [self.df[column]] returns: without copy-on-write that is the column
    of the frame, with copy-on-write a temporary copy, and the frame
    stays as it is.  A missing [value] is outside the model: [None]
    makes [fillna] raise, NaN and NaT fill nothing and print
    differently. *)
Definition fill_nulls (now : Timestamp) (column : string) (value : cell)
    (st : store * Engine) : result (store * Engine * loc) :=
  let '(h, self) := st in
  df ← deref h (self_df self);
  s ← df_get df column;
  let count := isnull_sum s in
  _ ← (if is_na value then Raise Unsupported else Ok tt);
  let h :=
    if copy_on_write then h
    else <[self_df self := df_set df column (fillna value s)]> h in
  let self :=
    log_step now ("Fill Nulls in " ++ column)
             ("Filled " ++ str_of_nat count ++ " values with '" ++
              py_str py_str_num value ++ "'.") self in
  Ok (h, self, self_df self).

Definition filter_by_year (now : Timestamp) (column : string) (min_year : Z)
    (st : store * Engine) : result (store * Engine * loc) :=
  let '(h, self) := st in
  df ← deref h (self_df self);
  let before := nrows df in
  s ← df_get df column;
  mask ← series_ge s (inject_Z min_year);
  let l := fresh (dom h) in                   (* self.df = self.df[...] *)
  let h := <[l := df_filter mask df]> h in
  let self := mkEngine l (history self) in
  df ← deref h (self_df self);
  let after := nrows df in
  let self :=
    log_step now ("Filter " ++ column ++ " >= " ++ str_of_Z min_year)
             (removed_msg before after) self in
  Ok (h, self, self_df self).

(** A call on the engine. *)
Inductive op : Type :=
| DropNulls (columns : list string)
| FillNulls (column : string) (value : cell)
| FilterByYear (column : string) (min_year : Z).

Definition run_op (now : Timestamp) (o : op) (st : store * Engine)
    : result (store * Engine * loc) :=
  match o with
  | DropNulls columns => drop_nulls now columns st
  | FillNulls column value => fill_nulls now column value st
  | FilterByYear column min_year => filter_by_year now column min_year st
  end.

(** A sequence of calls, each at its own wall-clock reading; an exception
    ends the sequence and leaves the state as the failing call found it. *)
Fixpoint run_ops (ops : list (Timestamp * op)) (st : store * Engine)
    : store * Engine * option exn :=
  match ops with
  | [] => (st, None)
  | (now, o) :: rest =>
      match run_op now o st with
      | Ok (st', _) => run_ops rest st'
      | Raise e => (st, Some e)
      end
  end.
End Engine.

(** ** Vocabulary of the specification

    The quantities the specification speaks about, defined on the data
    and independently of the control flow of the code. *)

Definition count_where (P : cell → bool) (s : Series) : nat :=
  length (filter (λ c, P c = true) s).

(** The missing percentage of a column: the share of its cells that are
    missing, times 100. *)
Definition missing_pct (total_rows : nat) (s : Series) : Q :=
  (Qnat (isnull_sum s) / Qnat total_rows * 100)%Q.

(** The missing percentage as the float that the audit prints. *)
Definition printed_pct (total_rows : nat) (s : Series) : Q :=
  percent_binary64 (isnull_sum s) total_rows.

(** [100 - (K / N) * 100] on two integers, as Python evaluates it, and
    [100 * (1 - K / N)] evaluated the same way. *)
Definition consistency_binary64 (duplicate_count total_rows : nat) : Q :=
  fsub 100 (percent_binary64 duplicate_count total_rows).
Definition claimed_consistency_binary64 (K N : nat) : Q :=
  fmul 100 (fsub 1 (fdiv (Qnat K) (Qnat N))).

(** Whether the rounding defined above and the floats of the kernel give
    the same percentage and the same score for every count up to the
    total. *)
Definition same_float (x : PrimFloat.float) (q : Q) : bool :=
  match float_value x with
  | Some v => Qeq_bool v q
  | None => false
  end.
Definition kernel_agrees (total : nat) : bool :=
  forallb (λ count,
             same_float (kernel_percent count total)
                        (percent_binary64 count total) &&
             same_float (kernel_consistency count total)
                        (consistency_binary64 count total))
          (seq 0 (S total)).

(** The arithmetic mean of a list of numbers. *)
Definition Qsum (xs : list Q) : Q := foldr Qplus 0%Q xs.
Definition mean (xs : list Q) : Q := (Qsum xs / Qnat (length xs))%Q.

(** The column of that name, or no cells when the frame has no such
    column. *)
Definition column_or_empty (df : DataFrame) (col : string) : Series :=
  default [] (assoc col (columns df)).

(** Two keys are the same key. *)
Definition same_key (a b : cell) : Prop :=
  match a, b with
  | NA, NA => True
  | Num x, Num y => (x == y)%Q
  | Str x, Str y => x = y
  | Time x, Time y => x = y
  | _, _ => False
  end.

(** Row [i] duplicates the key of an earlier row. *)
Definition repeats_earlier (s : Series) (i : nat) : Prop :=
  ∃ j a b, (j < i)%nat ∧ s !! j = Some a ∧ s !! i = Some b ∧ same_key a b.

(** The series holds exactly [K] rows that duplicate an earlier row's key. *)
Definition duplicate_rows (s : Series) (K : nat) : Prop :=
  ∃ rows : list nat,
    NoDup rows ∧ length rows = K ∧ ∀ i, i ∈ rows ↔ repeats_earlier s i.

Definition exceeds (x : Q) (c : cell) : bool :=
  match c with Num q => Qltb x q | _ => false end.

Definition is_negative (c : cell) : bool :=
  match c with Num q => Qltb q 0 | _ => false end.

(** A finding that is emitted when its count is positive. *)
Definition finding_if (count : nat) (msg : string) : list string :=
  if (0 <? count)%nat then [msg] else [].

(** The year-like field is more than one year ahead of the timestamp. *)
Definition implausible (vehicle_year crash_date : cell) : bool :=
  match vehicle_year, crash_date with
  | Num v, Time t => Qltb (inject_Z (year t + 1)) v
  | _, _ => false
  end.

Definition implausible_rows (df : DataFrame) : nat :=
  length (filter (λ p, implausible (fst p) (snd p) = true)
                 (zip (column_or_empty df "Vehicle Year")
                      (column_or_empty df "Crash Date/Time"))).

Definition negative_speeds (df : DataFrame) : nat :=
  count_where is_negative (column_or_empty df "Speed Limit").

Definition invalid_years (current_year : Z) (df : DataFrame) : nat :=
  count_where (exceeds (inject_Z (current_year + 1)))
              (column_or_empty df "Vehicle Year").

Section AuditVocabulary.
Variable parse_datetime : string → option Timestamp.
Variable epoch_datetime : Q → option Timestamp.

(** The timestamp a cell denotes, if any. *)
Definition as_time (c : cell) : option Timestamp :=
  match c with
  | NA => None
  | Time t => Some t
  | Str s => parse_datetime s
  | Num q => epoch_datetime q
  end.

Definition is_future (now : Timestamp) (c : cell) : bool :=
  match as_time c with Some t => ts_ltb now t | None => false end.

Definition future_dated (now : Timestamp) (df : DataFrame) : nat :=
  count_where (is_future now) (column_or_empty df "Crash Date/Time").

(** [accuracy_issue_total]: an absent field contributes no issue. *)
Definition accuracy_issue_total (current_year : Z) (now : Timestamp)
    (df : DataFrame) : nat :=
  future_dated now df + invalid_years current_year df + negative_speeds df.

(** Every cell is missing or denotes a timestamp. *)
Definition datable (s : Series) : Prop :=
  ∀ c, In c s → c = NA ∨ ∃ t, as_time c = Some t.

(** What the three wired columns must hold for the audit not to raise:
    a timestamp column that can be read as dates and is not all missing,
    numbers or missing cells in the two numeric fields. *)
Definition audit_typed (df : DataFrame) : Prop :=
  (∀ s, assoc "Crash Date/Time" (columns df) = Some s →
        datable s ∧ ∃ c, In c s ∧ c ≠ NA) ∧
  (∀ s, assoc "Vehicle Year" (columns df) = Some s → forallb is_numeric s = true) ∧
  (∀ s, assoc "Speed Limit" (columns df) = Some s → forallb is_numeric s = true).
End AuditVocabulary.

(** A key field missing in more than 1% of the rows. *)
Definition is_critical (total_rows : nat) (c : string * Series) : bool :=
  in_list (fst c) key_fields && Qltb 1 (missing_pct total_rows (snd c)).

(** The kind of a finding is read off its opening words. *)
Fixpoint starts_with (p s : string) : bool :=
  match p with
  | EmptyString => true
  | String a p' =>
      match s with
      | EmptyString => false
      | String b s' => Ascii.eqb a b && starts_with p' s'
      end
  end.

Definition completeness_finding (m : string) : bool := starts_with "Key field " m.
Definition consistency_finding (m : string) : bool := starts_with "Found " m.
Definition accuracy_finding (m : string) : bool := starts_with "Detected " m.


(** ** Auxiliary definitions of the proofs

    Closed forms of what the stages of [run_audit] compute, and the
    invariant of the engine. *)

(** What [df[col]] finds for each label of [df.columns]; on a well-formed
    frame these are the columns themselves. *)
Definition looked_up (df : DataFrame) : list (string * Series) :=
  map (λ c, (fst c, column_or_empty df (fst c))) (columns df).

(** The Critical findings of the completeness check, in column order. *)
Definition key_field_findings (total_rows : nat) (cols : list (string * Series))
    : list string :=
  map (λ c, key_field_msg (fst c) (printed_pct total_rows (snd c)))
      (filter (λ c, is_critical total_rows c = true) cols).

(** The finding of the duplicate check. *)
Definition duplicate_findings (df : DataFrame) : list string :=
  let K := count_true (duplicated (column_or_empty df primary_key)) in
  finding_if K (duplicate_msg K).

(** The row of [column_stats] for one column. *)
Definition status_of (total_rows : nat) (c : string * Series) : string :=
  if is_critical total_rows c then "Critical"
  else if Qltb 10 (missing_pct total_rows (snd c)) then "Warning"
  else "Valid".

Definition column_stat_of (total_rows : nat) (c : string * Series) : ColumnStat :=
  mkColumnStat (fst c) (dtype (snd c))
               (fmt_2f (printed_pct total_rows (snd c)) ++ "%")
               (fmt_thousands (nunique (snd c)))
               (status_of total_rows c).

(** The three dimension scores, as expressions of the counts. *)
Definition completeness_of (total_rows : nat) (cols : list (string * Series)) : Q :=
  (py_sum (map (λ c, 100 - missing_pct total_rows (snd c)) cols)
   / Qnat (length cols))%Q.

Definition consistency_of (df : DataFrame) : Q :=
  if has_column df primary_key then
    consistency_binary64
      (count_true (duplicated (column_or_empty df primary_key))) (nrows df)
  else 100%Q.

Definition accuracy_of (total_rows issues : nat) : Q :=
  py_max 0 ((1 - Qnat issues / Qnat (total_rows * 3)) * 100)%Q.

(** [results] with findings appended to its summary. *)
Definition with_findings (msgs : list string) (r : AuditResults) : AuditResults :=
  mkAuditResults (column_stats r) (scores r) (summary r ++ msgs) (latest_date r)
                 (health_score r).

(** The positions of the marked rows of a mask, counted from [k]. *)
Fixpoint marked_from (k : nat) (mask : list bool) : list nat :=
  match mask with
  | [] => []
  | b :: rest => (if b then [k] else []) ++ marked_from (S k) rest
  end.

(** What the engine keeps true of the store [h0] it was built on: its own
    frame is not an object of [h0], and every object of [h0] is as it was. *)
Definition engine_inv (h0 : store) (st : store * Engine) : Prop :=
  (self_df (snd st) ∉ dom h0) ∧ (∀ l, l ∈ dom h0 → fst st !! l = h0 !! l).

(** ** Sample data *)

(** Stand-ins for pandas's date parsers, which the sample data do not
    need, for Python's [str] on floats, and for numpy's mean: the floats
    added up from left to right and divided by their number, which is what
    numpy does on a column of fewer than eight cells. *)
Definition no_parser : string → option Timestamp := λ _, None.
Definition no_epoch : Q → option Timestamp := λ _, None.
Definition plain_str : Q → string := λ q, fmt_2f q.
(** A mean that adds the values from left to right and divides, in
    binary64: one of the orders numpy may take, and the only one on a
    single value. *)
Fixpoint float_sum (acc : Q) (xs : list Q) : option Q :=
  match xs with
  | [] => Some acc
  | x :: rest =>
      let acc := fadd acc x in
      if overflows acc then None else float_sum acc rest
  end.
Definition left_to_right_mean (xs : list Q) : option Q :=
  match float_sum 0 xs with
  | Some total => Some (fdiv total (Qnat (length xs)))
  | None => None
  end.

Definition sample_now : Timestamp := mkTimestamp 2025 6 1 12 0 0 0.

(** Four crash records: one repeated report number, one crash in the
    future, one vehicle year beyond 2026, one negative speed limit, and a
    missing cell in three of the columns. *)
Definition sample_df : DataFrame :=
  mkDataFrame 4
    [("Report Number", [Str "R1"; Str "R2"; Str "R2"; Str "R3"]);
     ("Agency Name", [Str "MCP"; Str "MCP"; Str "RCPD"; Str "MCP"]);
     ("Crash Date/Time",
        [Time (mkTimestamp 2024 3 9 7 5 0 0); Time (mkTimestamp 2026 1 1 0 0 0 0);
         NA; Time (mkTimestamp 2023 11 20 18 30 0 0)]);
     ("Vehicle Year", [Num 2020; Num 2030; NA; Num 2026]);
     ("Speed Limit", [Num 35; Num (-5); Num 40; NA])].


(** The same records with a second negative speed limit. *)
Definition worse_df : DataFrame :=
  mkDataFrame 4
    [("Report Number", [Str "R1"; Str "R2"; Str "R2"; Str "R3"]);
     ("Agency Name", [Str "MCP"; Str "MCP"; Str "RCPD"; Str "MCP"]);
     ("Crash Date/Time",
        [Time (mkTimestamp 2024 3 9 7 5 0 0); Time (mkTimestamp 2026 1 1 0 0 0 0);
         NA; Time (mkTimestamp 2023 11 20 18 30 0 0)]);
     ("Vehicle Year", [Num 2020; Num 2030; NA; Num 2026]);
     ("Speed Limit", [Num 35; Num (-5); Num (-40); NA])].

(** The same records without the report numbers. *)
Definition keyless_df : DataFrame :=
  mkDataFrame 4
    [("Agency Name", [Str "MCP"; Str "MCP"; Str "RCPD"; Str "MCP"]);
     ("Speed Limit", [Num 35; Num (-5); Num 40; NA])].

(** A frame of two rows whose only column is all missing, and a frame
    without rows. *)
Definition all_missing_df : DataFrame := mkDataFrame 2 [("x", [NA; NA])].
Definition no_rows_df : DataFrame := mkDataFrame 0 [("Report Number", [])].

(** Three records with the same report number. *)
Definition repeated_df : DataFrame :=
  mkDataFrame 3 [("Report Number", [Str "R1"; Str "R1"; Str "R1"])].

(** A hundred and sixty records, twenty-three of them without a report
    number. *)
Definition sparse_df : DataFrame :=
  mkDataFrame 160
    [("Report Number", repeat NA 23 ++ map (λ n, Num (Qnat n)) (seq 0 137))].

(** Two records whose dates are both missing. *)
Definition undated_df : DataFrame :=
  mkDataFrame 2 [("Crash Date/Time", [NA; NA]); ("Vehicle Year", [Num 2020; NA])].

Definition audit_or_blank (df : DataFrame) : AuditResults :=
  match run_audit no_parser no_epoch 2025 sample_now df with
  | Ok r => r
  | Raise _ => mkAuditResults [] ∅ [] "" None
  end.

Definition sample_report : AuditResults := Eval vm_compute in audit_or_blank sample_df.
Definition worse_report : AuditResults := Eval vm_compute in audit_or_blank worse_df.
Definition keyless_report : AuditResults := Eval vm_compute in audit_or_blank keyless_df.
Definition repeated_report : AuditResults :=
  Eval vm_compute in audit_or_blank repeated_df.

(** ** More of [modules/cleaning.py]: metrics, duplicates, dates *)

(** The rows of a frame of [n] rows, read across its columns. *)
Fixpoint transpose (n : nat) (cols : list Series) : list (list cell) :=
  match cols with
  | [] => repeat [] n
  | c :: rest => zip_with cons c (transpose n rest)
  end.

(** Two rows carry the same key. *)
Fixpoint key_eqb (a b : list cell) : bool :=
  match a, b with
  | [], [] => true
  | x :: a', y :: b' => cell_eqb x y && key_eqb a' b'
  | _, _ => false
  end.

Fixpoint duplicated_keys (seen : list (list cell)) (keys : list (list cell))
    : list bool :=
  match keys with
  | [] => []
  | k :: rest => existsb (key_eqb k) seen :: duplicated_keys (k :: seen) rest
  end.

(** The columns a [subset] selects, in the order of the frame. *)
Definition subset_columns (subset : option (list string)) (df : DataFrame)
    : list (string * Series) :=
  match subset with
  | None => columns df
  | Some labels => filter (λ c, in_list (fst c) labels = true) (columns df)
  end.

(** [df.duplicated(subset)] with [keep='first'].  An empty frame has no
    duplicates; a label that is not a column raises. *)
Definition df_duplicated (subset : option (list string)) (df : DataFrame)
    : result (list bool) :=
  if df_empty df then Ok [] else
  match subset with
  | Some [] => Raise Unsupported
  | Some labels =>
      if forallb (has_column df) labels then
        Ok (duplicated_keys []
              (transpose (nrows df) (map snd (subset_columns subset df))))
      else Raise KeyError
  | None =>
      Ok (duplicated_keys []
            (transpose (nrows df) (map snd (subset_columns subset df))))
  end.

(** [df.drop_duplicates(subset)]: the rows that are not marked. *)
Definition df_drop_duplicates (subset : option (list string)) (df : DataFrame)
    : result DataFrame :=
  if df_empty df then Ok df else
  mask ← df_duplicated subset df;
  Ok (df_filter (map negb mask) df).

(** The dictionary of [get_metrics]. *)
Record Metrics : Type := mkMetrics {
  row_count : nat;
  missing_count : nat;
  duplicate_count : nat
}.

Definition get_metrics (df : DataFrame) : result Metrics :=
  mask ← df_duplicated None df;
  Ok (mkMetrics (nrows df)
                (sum_list (map (λ c, isnull_sum (snd c)) (columns df)))
                (count_true mask)).

Section CleaningMore.
(** Python's [repr] on a string; pandas's date parser for a string of a
  given column (pandas settles the format on the column), and for an
  epoch number. *)
Variable py_repr_str : string → string.
Variable parse_in : Series → string → option Timestamp.
Variable epoch_datetime : Q → option Timestamp.

(** [f"{subset}"] on a list of strings. *)
Definition py_list_repr (l : list string) : string :=
"[" ++ String.concat ", " (map py_repr_str l) ++ "]".

Definition drop_duplicates (df : DataFrame) (subset : option (list string))
  : result (DataFrame * string) :=
let before_count := nrows df in
df ← df_drop_duplicates subset df;
let after_count := nrows df in
let dropped := (Z.of_nat before_count - Z.of_nat after_count)%Z in
let msg := ("Removed " ++ str_of_Z dropped ++ " duplicate rows")%string in
match subset with
| Some ((_ :: _) as labels) =>
    Ok (df, (msg ++ " based on " ++ py_list_repr labels)%string)
| _ => Ok (df, msg)
end.

(** [pd.to_datetime(s, errors='coerce')]: what cannot be read becomes
  NaT. *)
Definition coerce_cell (s : Series) (c : cell) : cell :=
match c with
| NA => NA
| Time t => Time t
| Str x => match parse_in s x with Some t => Time t | None => NA end
| Num q => match epoch_datetime q with Some t => Time t | None => NA end
end.
Definition to_datetime_coerce (s : Series) : Series := map (coerce_cell s) s.

Definition standardize_dates (df : DataFrame) (col : string)
  : result (DataFrame * string) :=
s ← df_get df col;
let before_count := isnull_sum s in
let df := df_set df col (to_datetime_coerce s) in
s ← df_get df col;
let after_count := isnull_sum s in
let failed := (Z.of_nat after_count - Z.of_nat before_count)%Z in
let msg := ("Standardized '" ++ col ++ "' to datetime.")%string in
if (0 <? failed)%Z then
  Ok (df, (msg ++ " (Note: " ++ str_of_Z failed ++
           " values failed to parse and were set to NaT)")%string)
else Ok (df, msg).
End CleaningMore.

(** ** More of [src/quality_audit.py]: completeness and accuracy *)

(** The dictionary of [check_completeness]; the ratio is a float, NaN on
    an empty frame. *)
Record Completeness : Type := mkCompleteness {
  ratio : cell;
  missing_by_column : gmap string nat
}.

(** [null_counts[null_counts > 0].to_dict()] *)
Definition positive_counts (counts : list (string * nat)) : gmap string nat :=
  fold_left (λ m p, <[fst p := snd p]> m)
            (filter (λ p, (0 < snd p)%nat) counts) ∅.

Definition check_completeness (df : DataFrame) : result Completeness :=
  let null_counts := map (λ c, (fst c, isnull_sum (snd c))) (columns df) in
  let total_rows := nrows df in
  let total_nulls := sum_list (map snd null_counts) in
  let cells := (total_rows * length (columns df))%nat in
  completeness_ratio ←
    (if (cells =? 0)%nat then
       if (total_nulls =? 0)%nat then Ok NA else Raise Unsupported
     else Ok (Num ((1 - Qnat total_nulls / Qnat cells) * 100)%Q));
  Ok (mkCompleteness completeness_ratio (positive_counts null_counts)).

(** [(s < lo) | (s > hi)] *)
Definition out_of_range (lo hi : Q) (s : Series) : result (list bool) :=
  below ← series_lt s lo;
  above ← series_gt s hi;
  Ok (zip_with orb below above).

Definition gps_msg (n : nat) : string :=
  "Found " ++ str_of_nat n ++ " rows with invalid GPS coordinates.".
Definition suspicious_speed_msg (n : nat) : string :=
  "Found " ++ str_of_nat n ++ " rows with suspicious Speed Limit values.".

Definition check_accuracy (df : DataFrame) : result CheckResult :=
  let issues : list string := [] in
  issues ←
    (if has_column df "Latitude" && has_column df "Longitude" then
       latitude ← df_get df "Latitude";
       bad_latitude ← out_of_range (-90) 90 latitude;
       longitude ← df_get df "Longitude";
       bad_longitude ← out_of_range (-180) 180 longitude;
       let invalid_coords := df_filter (zip_with orb bad_latitude bad_longitude) df in
       if negb (df_empty invalid_coords) then
         Ok (issues ++ [gps_msg (nrows invalid_coords)])
       else Ok issues
     else Ok issues);
  issues ←
    (if has_column df "Speed Limit" then
       speed ← df_get df "Speed Limit";
       mask ← out_of_range 0 100 speed;
       let invalid_speed := df_filter mask df in
       if negb (df_empty invalid_speed) then
         Ok (issues ++ [suspicious_speed_msg (nrows invalid_speed)])
       else Ok issues
     else Ok issues);
  Ok (mkCheckResult (match issues with [] => "Pass" | _ => "Warning" end) issues).

(** ** More of [src/cleaning_engine.py]: [get_history] *)

(** [pd.DataFrame(self.history)]: one row per entry; no entry, no
    column. *)
Definition get_history (self : Engine) : DataFrame :=
  match history self with
  | [] => mkDataFrame 0 []
  | entries =>
      mkDataFrame (length entries)
        [("Timestamp", map (λ e, Str (log_timestamp e)) entries);
         ("Operation", map (λ e, Str (log_operation e)) entries);
         ("Impact", map (λ e, Str (log_impact e)) entries)]
  end.

(** ** [modules/insights.py]: [InsightGenerator.get_main_pain_point] *)

(** The returned dictionary: ['column'] and ['count']. *)
Record PainPoint : Type := mkPainPoint {
  pp_column : string;
  pp_count : nat
}.

(** [null_counts.idxmax()] with [null_counts.max()]: the first label that
    carries the largest count. *)
Fixpoint idxmax (best : string * nat) (counts : list (string * nat)) : string * nat :=
  match counts with
  | [] => best
  | p :: rest => idxmax (if (snd best <? snd p)%nat then p else best) rest
  end.

(** [idxmax()] raises on no labels at all. *)
Definition series_idxmax (counts : list (string * nat)) : result (string * nat) :=
  match counts with
  | [] => Raise ValueError
  | first :: rest => Ok (idxmax first rest)
  end.

Definition get_main_pain_point (df : DataFrame) : result PainPoint :=
  if df_empty df then Ok (mkPainPoint "N/A" 0) else
  let null_counts := map (λ c, (fst c, isnull_sum (snd c))) (columns df) in
  '(max_null_col, max_null_count) ← series_idxmax null_counts;
  Ok (mkPainPoint max_null_col max_null_count).

(** ** [src/data_loader.py]: [get_data_dictionary] *)

(** A row of the dictionary frame. *)
Record DictionaryRow : Type := mkDictionaryRow {
  dd_column : string;              (* 'Column' *)
  dd_type : string;                (* 'Type' *)
  dd_non_null_count : nat;         (* 'Non-Null Count' *)
  dd_sample_value : cell           (* 'Sample Value' *)
}.

(** [s.iloc[0] if not s.empty else None]: the first cell, and a missing
    value when there is none; a first cell that is missing is a missing
    value too. *)
Definition sample_value (s : Series) : cell :=
  match s with
  | [] => NA
  | c :: _ => c
  end.

(** The four lists of the dictionary are read per column; the sample value
    goes through [df[col]]. *)
Definition get_data_dictionary (df : DataFrame) : result (list DictionaryRow) :=
  mapR (λ c : string * Series,
          s ← df_get df (fst c);
          Ok (mkDictionaryRow (fst c) (dtype (snd c))
                              (count_true (notna_mask (snd c)))
                              (sample_value s)))
       (columns df).

(** ** Vocabulary of the further properties *)

(** The candidate of the scan for the mode occurs at least as often as
    the cell [c], unless [c] is missing. *)
Definition mode_bound (s : Series) (best : option cell) (c : cell) : Prop :=
  is_na c = true ∨
  ∃ w, best = Some w ∧ (occurrences c s <= occurrences w s)%nat.

(** [select] on any list. *)
Fixpoint select_rows {A} (mask : list bool) (l : list A) : list A :=
  match mask, l with
  | b :: mask', x :: l' => if b then x :: select_rows mask' l' else select_rows mask' l'
  | _, _ => []
  end.

(** The rows that repeat the key of an earlier row. *)
Definition key_marks (subset : option (list string)) (df : DataFrame) : list bool :=
  duplicated_keys [] (transpose (nrows df) (map snd (subset_columns subset df))).

(** A cell that holds something which cannot be read as a date. *)
Definition unreadable (parse_in : Series → string → option Timestamp)
    (epoch_datetime : Q → option Timestamp) (s : Series) (c : cell) : bool :=
  negb (is_na c) && is_na (coerce_cell parse_in epoch_datetime s c).

(** The total of the missing cells of a frame. *)
Definition total_missing (df : DataFrame) : nat :=
  sum_list (map (λ c, isnull_sum (snd c)) (columns df)).

(** A number outside the closed range; a missing cell is never outside. *)
Definition outside (lo hi : Q) (c : cell) : bool :=
  match c with Num q => Qltb q lo || Qltb hi q | _ => false end.

Definition suspicious_speeds (df : DataFrame) : nat :=
  count_where (outside 0 100) (column_or_empty df "Speed Limit").

Definition invalid_coordinates (df : DataFrame) : nat :=
  length (filter (λ p, outside (-90) 90 (fst p) || outside (-180) 180 (snd p) = true)
                 (zip (column_or_empty df "Latitude")
                      (column_or_empty df "Longitude"))).

(** A cell that is not missing. *)
Definition present (c : cell) : bool := negb (is_na c).

(** The mask of the rows that have no missing cell in any of the columns. *)
Definition complete_rows (df : DataFrame) (cols : list string) : list bool :=
  map (forallb present) (transpose (nrows df) (map (column_or_empty df) cols)).

(** A number that is at least [x]; a missing cell is not. *)
Definition at_least (x : Q) (c : cell) : bool :=
  match c with Num q => Qleb x q | _ => false end.

(** The ['Operation'] text of a call. *)
Definition op_label (o : op) : string :=
  match o with
  | DropNulls columns => "Drop Nulls in " ++ String.concat ", " columns
  | FillNulls column _ => "Fill Nulls in " ++ column
  | FilterByYear column min_year => "Filter " ++ column ++ " >= " ++ str_of_Z min_year
  end.

(** ** More sample data *)

(** Stand-ins for Python's [repr] on a string and for pandas's date
    parser with the format settled on the column: this one reads ISO days
    of 2024 written ["2024-01-DD"] with [DD] one of 01 and 02. *)
Definition quoted (s : string) : string := "'" ++ s ++ "'".
Definition iso_day (_ : Series) (x : string) : option Timestamp :=
  if String.eqb x "2024-01-01" then Some (mkTimestamp 2024 1 1 0 0 0 0)
  else if String.eqb x "2024-01-02" then Some (mkTimestamp 2024 1 2 0 0 0 0)
  else None.

(** Four records: the third repeats the first; the date column mixes a
    readable day, free text, a missing cell and a timestamp. *)
Definition dup_df : DataFrame :=
  mkDataFrame 4
    [("a", [Num 1; Num 2; Num 1; NA]);
     ("b", [Str "x"; Str "y"; Str "x"; Str "x"]);
     ("d", [Str "2024-01-01"; Str "soon"; Str "2024-01-01"; Time sample_now])].

(** Four located records: one latitude and one longitude out of range,
    one speed limit above 100, one negative, missing cells in between. *)
Definition located_df : DataFrame :=
  mkDataFrame 4
    [("Latitude", [Num 39; Num 95; NA; Num 38]);
     ("Longitude", [Num (-77); Num (-77); Num 10; Num (-200)]);
     ("Speed Limit", [Num 35; Num 120; NA; Num (-5)])].

(** The sample records without what the audits flag. *)
Definition clean_df : DataFrame :=
  mkDataFrame 3
    [("Report Number", [Str "R1"; Str "R2"; Str "R3"]);
     ("Crash Date/Time",
        [Time (mkTimestamp 2024 3 9 7 5 0 0); Time (mkTimestamp 2024 1 1 0 0 0 0);
         Time (mkTimestamp 2023 11 20 18 30 0 0)]);
     ("Vehicle Year", [Num 2020; Num 2021; Num 2019]);
     ("Speed Limit", [Num 35; Num 40; Num 25])].

(** A store that holds the sample records, and an engine on them. *)
Definition sample_store : store := {[ 1%positive := sample_df ]}.
Definition sample_engine : Engine := mkEngine 1%positive [].
Definition later_now : Timestamp := mkTimestamp 2025 6 1 12 0 5 0.

(** Two calls on the engine, the second five seconds after the first. *)
Definition sample_ops : list (Timestamp * op) :=
  [(sample_now, DropNulls ["Speed Limit"]);
   (later_now, FilterByYear "Vehicle Year" 2021)].

(** The value of a call that returns. *)
Definition result_or {A} (x : A) (r : result A) : A :=
  match r with
  | Ok a => a
  | Raise _ => x
  end.

(** What the calls return on the sample data. *)
Definition median_filled : DataFrame * string :=
  Eval vm_compute in
    result_or (sample_df, "")
      (impute_column plain_str left_to_right_mean sample_df "Speed Limit" "Median").
Definition mode_filled : DataFrame * string :=
  Eval vm_compute in
    result_or (sample_df, "")
      (impute_column plain_str left_to_right_mean sample_df "Agency Name" "Mode").
Definition deduplicated : DataFrame * string :=
  Eval vm_compute in
    result_or (dup_df, "") (drop_duplicates quoted dup_df (Some ["a"; "b"])).
Definition dated : DataFrame * string :=
  Eval vm_compute in
    result_or (dup_df, "") (standardize_dates iso_day no_epoch dup_df "d").
Definition sample_completeness : Completeness :=
  Eval vm_compute in
    result_or (mkCompleteness NA ∅) (check_completeness sample_df).
Definition located_check : CheckResult :=
  Eval vm_compute in result_or (mkCheckResult "" []) (check_accuracy located_df).
Definition clean_check : CheckResult :=
  Eval vm_compute in result_or (mkCheckResult "" []) (check_accuracy clean_df).
Definition clean_report : AuditResults := Eval vm_compute in audit_or_blank clean_df.
Definition sample_dictionary : list DictionaryRow :=
  Eval vm_compute in result_or [] (get_data_dictionary sample_df).
Definition dropped : store * Engine * loc :=
  Eval vm_compute in
    result_or (sample_store, sample_engine, 1%positive)
      (drop_nulls sample_now ["Speed Limit"; "Vehicle Year"]
                  (sample_store, sample_engine)).
Definition filled : store * Engine * loc :=
  Eval vm_compute in
    result_or (sample_store, sample_engine, 1%positive)
      (fill_nulls plain_str false sample_now "Speed Limit" (Str "Unknown")
                  (sample_store, sample_engine)).
Definition filled_on_copy : store * Engine * loc :=
  Eval vm_compute in
    result_or (sample_store, sample_engine, 1%positive)
      (fill_nulls plain_str true sample_now "Speed Limit" (Str "Unknown")
                  (sample_store, sample_engine)).
Definition filtered : store * Engine * loc :=
  Eval vm_compute in
    result_or (sample_store, sample_engine, 1%positive)
      (filter_by_year sample_now "Vehicle Year" 2021 (sample_store, sample_engine)).
(** * Properties *)

(** ** The [result] monad *)

Lemma bind_Ok {A B} (f : A → result B) (m : result A) (b : B) :
  m ≫= f = Ok b → ∃ a, m = Ok a ∧ f a = Ok b.
Proof. destruct m as [a|e]; cbn; [eauto | discriminate]. Qed.

(** Split a successful chain of binds at its first call. *)
Ltac bind_inv H :=
  let a := fresh "a" in
  let E := fresh "E" in
  apply bind_Ok in H; destruct H as (a & E & H); cbn beta in H.

(** ** Comparisons on rationals *)

Lemma Qltb_lt (a b : Q) : Qltb a b = true ↔ (a < b)%Q.
Proof.
  unfold Qltb. rewrite negb_true_iff, <- not_true_iff_false, Qle_bool_iff.
  split; [apply Qnot_le_lt | apply Qlt_not_le].
Qed.

Lemma Qltb_ge (a b : Q) : Qltb a b = false ↔ (b <= a)%Q.
Proof.
  unfold Qltb. rewrite negb_false_iff, Qle_bool_iff. reflexivity.
Qed.

Lemma Qnat_nonneg (n : nat) : (0 <= Qnat n)%Q.
Proof. unfold Qnat, Qle; cbn. lia. Qed.

Lemma Qnat_pos (n : nat) : (0 < n)%nat → (0 < Qnat n)%Q.
Proof. intros H. unfold Qnat, Qlt; cbn. lia. Qed.

Lemma Qnat_lt (n m : nat) : (n < m)%nat → (Qnat n < Qnat m)%Q.
Proof. intros H. unfold Qnat, Qlt; cbn. lia. Qed.

Lemma Qnat_le (n m : nat) : (n <= m)%nat → (Qnat n <= Qnat m)%Q.
Proof. intros H. unfold Qnat, Qle; cbn. lia. Qed.

Lemma Qnat_mul3 (n : nat) : (Qnat (n * 3) == Qnat n * 3)%Q.
Proof. unfold Qnat, Qeq; cbn. lia. Qed.

Lemma Qnat_add (n m : nat) : (Qnat (n + m) == Qnat n + Qnat m)%Q.
Proof. unfold Qnat. rewrite Nat2Z.inj_add, inject_Z_plus. reflexivity. Qed.

(** ** Counting *)

Lemma count_true_le (bs : list bool) : (count_true bs <= length bs)%nat.
Proof. unfold count_true. apply length_filter. Qed.

Lemma count_true_cons (b : bool) (bs : list bool) :
  count_true (b :: bs) = ((if b then 1 else 0) + count_true bs)%nat.
Proof. unfold count_true. destruct b; reflexivity. Qed.

Lemma count_where_cons (P : cell → bool) (c : cell) (s : Series) :
  count_where P (c :: s) = ((if P c then 1 else 0) + count_where P s)%nat.
Proof.
  unfold count_where. rewrite filter_cons.
  destruct (P c); destruct (decide _); cbn; congruence.
Qed.

Lemma count_where_le (P : cell → bool) (s : Series) :
  (count_where P s <= length s)%nat.
Proof. unfold count_where. apply length_filter. Qed.

Lemma isnull_sum_le (s : Series) : (isnull_sum s <= length s)%nat.
Proof.
  unfold isnull_sum. pose proof (count_true_le (map is_na s)).
  now rewrite length_map in *.
Qed.

(** ** Frames *)

Lemma has_column_get (df : DataFrame) (col : string) :
  has_column df col = true → df_get df col = Ok (column_or_empty df col).
Proof.
  unfold has_column, df_get, column_or_empty.
  destruct (assoc col (columns df)); [reflexivity | discriminate].
Qed.

Lemma has_column_absent (df : DataFrame) (col : string) :
  has_column df col = false → column_or_empty df col = [].
Proof.
  unfold has_column, column_or_empty.
  destruct (assoc col (columns df)); [discriminate | reflexivity].
Qed.

Lemma assoc_In (k : string) (v : Series) (kvs : list (string * Series)) :
  NoDup (map fst kvs) → In (k, v) kvs → assoc k kvs = Some v.
Proof.
  induction kvs as [|[k' v'] rest IH]; cbn; [tauto |].
  intros Hnd [Heq | Hin].
  - injection Heq as -> ->. now rewrite String.eqb_refl.
  - apply NoDup_cons in Hnd as [Hnotin Hnd].
    destruct (String.eqb_spec k k') as [-> | _]; [| auto].
    exfalso. apply Hnotin. apply list_elem_of_In.
    change k' with (fst (k', v)). now apply in_map.
Qed.

Lemma looked_up_wf (df : DataFrame) : df_wf df → looked_up df = columns df.
Proof.
  intros [Hnd _]. unfold looked_up, column_or_empty.
  rewrite <- (map_id (columns df)) at 2.
  apply map_ext_in. intros [k v] Hin. cbn.
  now rewrite (assoc_In k v).
Qed.

Lemma looked_up_get (df : DataFrame) (c : string * Series) :
  In c (looked_up df) → df_get df (fst c) = Ok (snd c).
Proof.
  unfold looked_up. rewrite in_map_iff. intros ([k v] & <- & Hin). cbn.
  apply has_column_get. unfold has_column.
  induction (columns df) as [|[k' v'] rest IH]; cbn in *; [tauto |].
  destruct (String.eqb_spec k k'); [reflexivity |].
  destruct Hin as [Heq | Hin]; [congruence | auto].
Qed.

(** ** Binary64: the error of rounding *)


Lemma round_half_even_error (q : Q) :
  (Qabs (inject_Z (round_half_even q) - q) <= 1 # 2)%Q.
Proof.
  unfold round_half_even.
  pose proof (Qfloor_le q) as Hlo. pose proof (Qlt_floor q) as Hhi.
  rewrite inject_Z_plus in Hhi. change (inject_Z 1) with 1%Q in Hhi.
  apply Qabs_Qle_condition.
  destruct (Qltb (q - inject_Z (Qfloor q)) (1 # 2)) eqn:E1.
  - apply Qltb_lt in E1. split; lra.
  - apply Qltb_ge in E1.
    destruct (Qltb (1 # 2) (q - inject_Z (Qfloor q))) eqn:E2.
    + rewrite inject_Z_plus. change (inject_Z 1) with 1%Q. split; lra.
    + apply Qltb_ge in E2. destruct (Z.even (Qfloor q)).
      * split; lra.
      * rewrite inject_Z_plus. change (inject_Z 1) with 1%Q. split; lra.
Qed.

Lemma pow2_pos (e : Z) : (0 < 2 ^ e)%Q.
Proof. apply Qpower_0_lt. reflexivity. Qed.

Lemma pow2_succ (e : Z) : (2 ^ (e + 1) == 2 ^ e * 2)%Q.
Proof. rewrite Qpower_plus by discriminate. reflexivity. Qed.

Lemma pow2_inject (k : Z) : (0 <= k)%Z → (inject_Z (2 ^ k) == 2 ^ k)%Q.
Proof. intros Hk. now rewrite Zpower_Qpower. Qed.

Lemma log2_bounds (n : Z) :
  (0 < n)%Z → (2 ^ Z.log2 n <= inject_Z n)%Q ∧ (inject_Z n < 2 ^ (Z.log2 n + 1))%Q.
Proof.
  intros Hn. destruct (Z.log2_spec n Hn) as [Hlo Hhi].
  pose proof (Z.log2_nonneg n) as Hnn.
  rewrite <- !pow2_inject by lia. split.
  - now rewrite <- Zle_Qle.
  - rewrite <- Zlt_Qlt. now rewrite <- Z.add_1_r in Hhi.
Qed.

Lemma binade_le (x : Q) : (0 < x)%Q → (2 ^ binade x <= x)%Q.
Proof.
  intros Hx. unfold binade.
  set (ln := Z.log2 (Qnum x)). set (ld := Z.log2 (Zpos (Qden x))).
  destruct (Qltb x (2 ^ (ln - ld))) eqn:E.
  - assert (Hn : (0 < Qnum x)%Z).
    { destruct x as [n d]. unfold Qlt in Hx. cbn in *. lia. }
    destruct (log2_bounds (Qnum x) Hn) as [Hnlo _].
    destruct (log2_bounds (Zpos (Qden x)) eq_refl) as [_ Hdhi].
    fold ln in Hnlo. fold ld in Hdhi.
    assert (Hx' : (x == inject_Z (Qnum x) / inject_Z (Zpos (Qden x)))%Q).
    { destruct x as [n d]. cbn [Qnum Qden]. apply Qmake_Qdiv. }
    assert (Hd : (0 < inject_Z (Zpos (Qden x)))%Q) by reflexivity.
    replace (ln - ld - 1)%Z with (ln + - (ld + 1))%Z by lia.
    rewrite Qpower_plus, Qpower_opp by discriminate.
    rewrite Hx'. unfold Qdiv.
    pose proof (pow2_pos (ld + 1)) as Hp. pose proof (pow2_pos ln) as Hq.
    apply Qle_trans with (2 ^ ln * / inject_Z (Zpos (Qden x)))%Q.
    + apply Qmult_le_l; [exact Hq |].
      apply Qle_shift_inv_l; [exact Hd |].
      rewrite Qmult_comm. apply Qle_shift_div_r; [exact Hp |].
      rewrite Qmult_1_l. apply Qlt_le_weak. exact Hdhi.
    + apply Qmult_le_compat_r; [exact Hnlo |].
      apply Qlt_le_weak, Qinv_lt_0_compat. exact Hd.
  - now apply Qltb_ge in E.
Qed.

Lemma round_binary64_pos_error (x : Q) :
  (0 < x)%Q →
  (Qabs (round_binary64_pos x - x) <= x * ulp_half + tiny)%Q.
Proof.
  intros Hx. unfold round_binary64_pos.
  set (e := Z.max (binade x - 52) (-1074)).
  rewrite Qred_correct.
  pose proof (pow2_pos e) as He.
  pose proof (round_half_even_error (x / 2 ^ e)) as Herr.
  assert (Hscale : (Qabs (inject_Z (round_half_even (x / 2 ^ e)) * 2 ^ e - x)
                    <= (1 # 2) * 2 ^ e)%Q).
  { assert (Heq : (inject_Z (round_half_even (x / 2 ^ e)) * 2 ^ e - x ==
                    (inject_Z (round_half_even (x / 2 ^ e)) - x / 2 ^ e) * 2 ^ e)%Q)
      by (field; lra).
    rewrite Heq, Qabs_Qmult, (Qabs_pos (2 ^ e)) by lra.
    apply Qmult_le_compat_r; lra. }
  eapply Qle_trans; [exact Hscale |].
  assert (Hhalf : ((1 # 2) * 2 ^ e == 2 ^ (e - 1))%Q).
  { replace (e - 1)%Z with (e + -1)%Z by lia.
    rewrite Qpower_plus by discriminate. change (2 ^ (-1))%Q with (/ 2)%Q. field. }
  rewrite Hhalf.
  pose proof (binade_le x Hx) as Hb.
  assert (Htiny : (0 < tiny)%Q) by apply pow2_pos.
  assert (Hulp : (0 < ulp_half)%Q) by apply pow2_pos.
  destruct (Z.max_spec (binade x - 52) (-1074)) as [[_ Hmax] | [_ Hmax]];
    fold e in Hmax; rewrite Hmax.
  - change (2 ^ (-1074 - 1))%Q with tiny.
    assert (0 <= x * ulp_half)%Q by (apply Qmult_le_0_compat; lra). lra.
  - replace (binade x - 52 - 1)%Z with (binade x + -53)%Z by lia.
    rewrite Qpower_plus by discriminate. fold ulp_half.
    assert (2 ^ binade x * ulp_half <= x * ulp_half)%Q
      by (apply Qmult_le_compat_r; lra). lra.
Qed.

Lemma round_binary64_error (x : Q) :
  (Qabs (round_binary64 x - x) <= Qabs x * ulp_half + tiny)%Q.
Proof.
  unfold round_binary64.
  assert (Htiny : (0 < tiny)%Q) by apply pow2_pos.
  destruct (Qltb 0 x) eqn:E1.
  - apply Qltb_lt in E1. rewrite (Qabs_pos x) by lra.
    now apply round_binary64_pos_error.
  - apply Qltb_ge in E1. destruct (Qltb x 0) eqn:E2.
    + apply Qltb_lt in E2. rewrite (Qabs_neg x) by lra.
      assert (Hpos : (0 < - x)%Q) by lra.
      pose proof (round_binary64_pos_error (- x) Hpos) as H.
      assert (Heq : (- round_binary64_pos (- x) - x ==
                      - (round_binary64_pos (- x) - - x))%Q) by ring.
      now rewrite Heq, Qabs_opp.
    + apply Qltb_ge in E2.
      assert (Hz : (x == 0)%Q) by lra.
      assert (Heq : (0 - x == 0)%Q) by lra.
      rewrite Heq, Hz. change (Qabs 0) with 0%Q. lra.
Qed.

(** The error of rounding a number of magnitude at most [B]. *)
Lemma round_binary64_near (x B : Q) :
  (Qabs x <= B)%Q →
  (Qabs (round_binary64 x - x) <= B * ulp_half + tiny)%Q.
Proof.
  intros HB. eapply Qle_trans; [apply round_binary64_error |].
  assert (Hulp : (0 < ulp_half)%Q) by apply pow2_pos.
  assert (Qabs x * ulp_half <= B * ulp_half)%Q
    by (apply Qmult_le_compat_r; lra).
  lra.
Qed.

Lemma round_binary64_zero (x : Q) : (x == 0)%Q → round_binary64 x = 0%Q.
Proof.
  intros Hx. unfold round_binary64.
  assert (E1 : Qltb 0 x = false) by (apply Qltb_ge; lra).
  assert (E2 : Qltb x 0 = false) by (apply Qltb_ge; lra).
  now rewrite E1, E2.
Qed.

Lemma ulp_half_small : (0 < ulp_half)%Q ∧ (ulp_half <= 112 # 1000000000000000000)%Q.
Proof.
  split; [apply pow2_pos |]. apply Qle_bool_imp_le. vm_compute. reflexivity.
Qed.

Lemma tiny_small : (0 < tiny)%Q ∧ (tiny <= 1 # 1000000000000000000)%Q.
Proof.
  split; [apply pow2_pos |]. apply Qle_bool_imp_le. vm_compute. reflexivity.
Qed.

Lemma share_unit (m N : nat) :
  (m <= N)%nat → (0 <= Qnat m / Qnat N)%Q ∧ (Qnat m / Qnat N <= 1)%Q.
Proof.
  intros H. destruct N as [|N].
  - assert (m = 0%nat) as -> by lia. split; discriminate.
  - assert (HN : (0 < Qnat (S N))%Q) by (apply Qnat_pos; lia). split.
    + apply Qle_shift_div_l; [exact HN |]. rewrite Qmult_0_l. apply Qnat_nonneg.
    + apply Qle_shift_div_r; [exact HN |]. rewrite Qmult_1_l. now apply Qnat_le.
Qed.

Lemma percent_binary64_close (m N : nat) :
  (m <= N)%nat →
  (Qabs (percent_binary64 m N - Qnat m / Qnat N * 100) <= 4 # 100000000000000)%Q ∧
  (Qabs (percent_binary64 m N) <= 101)%Q.
Proof.
  intros H. destruct (share_unit m N H) as [Hr0 Hr1].
  destruct ulp_half_small as [Hu0 Hu1]. destruct tiny_small as [Ht0 Ht1].
  unfold percent_binary64, fmul, fdiv.
  set (r := (Qnat m / Qnat N)%Q) in *.
  assert (Hr : (Qabs r <= 1)%Q) by (apply Qabs_Qle_condition; split; lra).
  pose proof (round_binary64_near r 1 Hr) as H1.
  set (q1 := round_binary64 r) in *.
  apply Qabs_Qle_condition in H1 as [H1a H1b].
  assert (Hq1 : (Qabs (q1 * 100) <= 200)%Q) by (apply Qabs_Qle_condition; split; lra).
  pose proof (round_binary64_near (q1 * 100) 200 Hq1) as H2.
  set (q2 := round_binary64 (q1 * 100)) in *.
  apply Qabs_Qle_condition in H2 as [H2a H2b].
  split; apply Qabs_Qle_condition; split; lra.
Qed.

Lemma consistency_binary64_close (K N : nat) :
  (K <= N)%nat →
  (Qabs (consistency_binary64 K N - 100 * (1 - Qnat K / Qnat N))
   <= 1 # 10000000000000)%Q.
Proof.
  intros H. destruct (percent_binary64_close K N H) as [Hp Hb].
  destruct ulp_half_small as [Hu0 Hu1]. destruct tiny_small as [Ht0 Ht1].
  unfold consistency_binary64, fsub.
  set (p := percent_binary64 K N) in *.
  apply Qabs_Qle_condition in Hp as [Hpa Hpb].
  apply Qabs_Qle_condition in Hb as [Hba Hbb].
  assert (Hd : (Qabs (100 - p) <= 201)%Q) by (apply Qabs_Qle_condition; split; lra).
  pose proof (round_binary64_near (100 - p) 201 Hd) as H3.
  apply Qabs_Qle_condition in H3 as [H3a H3b].
  apply Qabs_Qle_condition; split; lra.
Qed.

Lemma consistency_binary64_none (N : nat) : consistency_binary64 0 N = 100%Q.
Proof.
  unfold consistency_binary64, percent_binary64, fsub, fmul, fdiv.
  rewrite (round_binary64_zero (Qnat 0 / Qnat N))
    by (unfold Qdiv; change (Qnat 0) with 0%Q; ring).
  rewrite (round_binary64_zero (0 * 100)) by reflexivity.
  vm_compute. reflexivity.
Qed.

(** ** Binary64: rounding does not see how a number is written *)

Lemma binade_lt (x : Q) : (0 < x)%Q → (x < 2 ^ (binade x + 1))%Q.
Proof.
  intros Hx. unfold binade.
  set (ln := Z.log2 (Qnum x)). set (ld := Z.log2 (Zpos (Qden x))).
  destruct (Qltb x (2 ^ (ln - ld))) eqn:E.
  - apply Qltb_lt in E. now replace (ln - ld - 1 + 1)%Z with (ln - ld)%Z by lia.
  - assert (Hn : (0 < Qnum x)%Z).
    { destruct x as [n d]. unfold Qlt in Hx. cbn in *. lia. }
    destruct (log2_bounds (Qnum x) Hn) as [_ Hnhi].
    destruct (log2_bounds (Zpos (Qden x)) eq_refl) as [Hdlo _].
    fold ln in Hnhi. fold ld in Hdlo.
    assert (Hx' : (x == inject_Z (Qnum x) / inject_Z (Zpos (Qden x)))%Q).
    { destruct x as [n d]. cbn [Qnum Qden]. apply Qmake_Qdiv. }
    assert (Hd : (0 < inject_Z (Zpos (Qden x)))%Q) by reflexivity.
    replace (ln - ld + 1)%Z with (ln + 1 + - ld)%Z by lia.
    rewrite Qpower_plus, Qpower_opp by discriminate.
    rewrite Hx' at 1. unfold Qdiv.
    pose proof (pow2_pos ld) as Hp. pose proof (pow2_pos (ln + 1)) as Hq.
    apply Qlt_le_trans with (2 ^ (ln + 1) * / inject_Z (Zpos (Qden x)))%Q.
    + apply Qmult_lt_compat_r; [now apply Qinv_lt_0_compat | exact Hnhi].
    + apply Qmult_le_l; [exact Hq |].
      apply Qle_shift_inv_l; [exact Hp |].
      rewrite Qmult_comm. apply Qle_shift_div_r; [exact Hd |].
      now rewrite Qmult_1_l.
Qed.

Lemma binade_comp (x y : Q) : (0 < x)%Q → (x == y)%Q → binade x = binade y.
Proof.
  intros Hx Hxy. assert (Hy : (0 < y)%Q) by now rewrite <- Hxy.
  pose proof (binade_le x Hx) as Hxl. pose proof (binade_lt x Hx) as Hxh.
  pose proof (binade_le y Hy) as Hyl. pose proof (binade_lt y Hy) as Hyh.
  assert (H1 : (2 ^ binade x < 2 ^ (binade y + 1))%Q) by lra.
  assert (H2 : (2 ^ binade y < 2 ^ (binade x + 1))%Q) by lra.
  apply Qpower_lt_compat_l_inv in H1; [| reflexivity].
  apply Qpower_lt_compat_l_inv in H2; [| reflexivity].
  lia.
Qed.

Lemma Qltb_comp (a a' b b' : Q) :
  (a == a')%Q → (b == b')%Q → Qltb a b = Qltb a' b'.
Proof. intros Ha Hb. unfold Qltb. now rewrite Ha, Hb. Qed.

Lemma round_half_even_comp (x y : Q) :
  (x == y)%Q → round_half_even x = round_half_even y.
Proof.
  intros H. unfold round_half_even. rewrite (Qfloor_comp x y H).
  assert (Hr : (x - inject_Z (Qfloor y) == y - inject_Z (Qfloor y))%Q)
    by now rewrite H.
  now rewrite (Qltb_comp _ _ _ _ Hr (Qeq_refl (1 # 2))),
              (Qltb_comp _ _ _ _ (Qeq_refl (1 # 2)) Hr).
Qed.

Lemma round_binary64_pos_comp (x y : Q) :
  (0 < x)%Q → (x == y)%Q → round_binary64_pos x = round_binary64_pos y.
Proof.
  intros Hx H. unfold round_binary64_pos. rewrite (binade_comp x y Hx H).
  set (e := Z.max (binade y - 52) (-1074)).
  assert (Hq : (x / 2 ^ e == y / 2 ^ e)%Q) by now rewrite H.
  now rewrite (round_half_even_comp _ _ Hq).
Qed.

Lemma round_binary64_comp (x y : Q) :
  (x == y)%Q → round_binary64 x = round_binary64 y.
Proof.
  intros H. unfold round_binary64.
  rewrite (Qltb_comp 0 0 x y (Qeq_refl 0) H), (Qltb_comp x y 0 0 H (Qeq_refl 0)).
  destruct (Qltb 0 y) eqn:E1.
  - apply Qltb_lt in E1. apply round_binary64_pos_comp; [now rewrite H | exact H].
  - destruct (Qltb y 0) eqn:E2; [| reflexivity].
    apply Qltb_lt in E2. f_equal.
    apply round_binary64_pos_comp; [rewrite H; lra | now rewrite H].
Qed.

(** ** Binary64: the thresholds of the audit

    On a table of up to [10^13] rows, comparing the float percentage with
    1 or with 10 gives what comparing the exact percentage gives. *)

Lemma percent_binary64_at (m N : nat) (c : Q) :
  (Qnat m / Qnat N == c)%Q →
  percent_binary64 m N = round_binary64 (round_binary64 c * 100).
Proof.
  intros H. unfold percent_binary64, fmul, fdiv.
  now rewrite (round_binary64_comp _ _ H).
Qed.

Lemma threshold_survives_rounding (t : Z) (m N : nat) :
  percent_binary64_at_threshold t = true →
  (m <= N)%nat → (0 < N)%nat → (Z.of_nat N <= 10000000000000)%Z →
  (inject_Z t < percent_binary64 m N)%Q ↔ (inject_Z t < Qnat m / Qnat N * 100)%Q.
Proof.
  intros Hat Hm HN Hbig.
  destruct (percent_binary64_close m N Hm) as [Hclose _].
  apply Qabs_Qle_condition in Hclose as [Hlo Hhi].
  assert (HNq : (0 < Qnat N)%Q) by now apply Qnat_pos.
  assert (HNb : (Qnat N <= 10000000000000)%Q).
  { unfold Qnat. change 10000000000000%Q with (inject_Z 10000000000000).
    now rewrite <- Zle_Qle. }
  assert (Hinv : (1 # 10000000000000 <= / Qnat N)%Q).
  { apply Qle_shift_inv_l; [exact HNq |]. lra. }
  assert (Hexact : (Qnat m / Qnat N * 100 == 100 * Qnat m / Qnat N)%Q)
    by (field; lra).
  assert (Hless : ∀ u : Q, ((u - / Qnat N) * Qnat N == u * Qnat N - 1)%Q)
    by (intros u; field; lra).
  assert (Hmore : ∀ u : Q, ((u + / Qnat N) * Qnat N == u * Qnat N + 1)%Q)
    by (intros u; field; lra).
  destruct (Z.lt_trichotomy (100 * Z.of_nat m) (t * Z.of_nat N)) as [Hlt | [Heq | Hgt]].
  - assert (Hle : (100 * Qnat m + 1 <= inject_Z t * Qnat N)%Q).
    { unfold Qnat. change 100%Q with (inject_Z 100). change 1%Q with (inject_Z 1).
      rewrite <- !inject_Z_mult, <- inject_Z_plus, <- Zle_Qle. lia. }
    assert (Hx : (Qnat m / Qnat N * 100 <= inject_Z t - / Qnat N)%Q).
    { rewrite Hexact. apply Qle_shift_div_r; [exact HNq |]. rewrite Hless. lra. }
    split; intros H; lra.
  - assert (Hc : (Qnat m / Qnat N == inject_Z t / 100)%Q).
    { assert (Hcross : (100 * Qnat m == inject_Z t * Qnat N)%Q).
      { unfold Qnat. change 100%Q with (inject_Z 100).
        rewrite <- !inject_Z_mult. now rewrite Heq. }
      apply Qmult_inj_r with (z := Qnat N); [lra |].
      assert (Hl : (Qnat m / Qnat N * Qnat N == Qnat m)%Q) by (field; lra).
      assert (Hr : (inject_Z t / 100 * Qnat N == inject_Z t * Qnat N / 100)%Q)
        by field.
      rewrite Hl, Hr, <- Hcross. field. }
    rewrite (percent_binary64_at m N _ Hc).
    unfold percent_binary64_at_threshold in Hat. apply Qeq_bool_eq in Hat.
    rewrite Hat.
    assert (Hx : (Qnat m / Qnat N * 100 == inject_Z t)%Q) by (rewrite Hc; field).
    split; intros H; lra.
  - assert (Hge : (inject_Z t * Qnat N + 1 <= 100 * Qnat m)%Q).
    { unfold Qnat. change 100%Q with (inject_Z 100). change 1%Q with (inject_Z 1).
      rewrite <- !inject_Z_mult, <- inject_Z_plus, <- Zle_Qle. lia. }
    assert (Hx : (inject_Z t + / Qnat N <= Qnat m / Qnat N * 100)%Q).
    { rewrite Hexact. apply Qle_shift_div_l; [exact HNq |]. rewrite Hmore. lra. }
    split; intros H; lra.
Qed.

(** ** The stages of [run_audit] *)

Lemma with_findings_nil (r : AuditResults) : with_findings [] r = r.
Proof. destruct r. unfold with_findings; cbn. now rewrite app_nil_r. Qed.

Lemma append_summary_findings (msg : string) (r : AuditResults) :
  append_summary msg r = with_findings [msg] r.
Proof. reflexivity. Qed.

Lemma with_findings_if (n : nat) (msg : string) (r : AuditResults) :
  (if (0 <? n)%nat then Ok (append_summary msg r) else Ok r) =
  Ok (with_findings (finding_if n msg) r).
Proof.
  unfold finding_if. destruct (0 <? n)%nat; [reflexivity |].
  now rewrite with_findings_nil.
Qed.

Lemma with_findings_count (n k : nat) (msg : string) (r : AuditResults) :
  (if (0 <? n)%nat then Ok (append_summary msg r, (k + n)%nat) else Ok (r, k)) =
  Ok (with_findings (finding_if n msg) r, (k + n)%nat).
Proof.
  unfold finding_if. destruct n; cbn; [| reflexivity].
  now rewrite with_findings_nil, Nat.add_0_r.
Qed.

Lemma audit_column_eq (df : DataFrame) (N : nat) (c : string * Series)
    (r : AuditResults) (ms : list Q) :
  df_get df (fst c) = Ok (snd c) →
  audit_column df N (r, ms) (fst c) =
  Ok (append_column_stat (column_stat_of N c)
        (with_findings (key_field_findings N [c]) r),
      ms ++ [(100 - missing_pct N (snd c))%Q]).
Proof.
  intros Hget. unfold audit_column. rewrite Hget.
  cbn [mbind result_mbind result_bind].
  fold (missing_pct N (snd c)).
  unfold key_field_findings, column_stat_of, status_of.
  rewrite filter_cons, filter_nil. unfold is_critical.
  destruct (in_list (fst c) key_fields && Qltb 1 (missing_pct N (snd c))).
  - rewrite decide_True by reflexivity. reflexivity.
  - rewrite decide_False by discriminate. cbn [map].
    rewrite with_findings_nil.
    destruct (Qltb 10 (missing_pct N (snd c))); reflexivity.
Qed.

Lemma key_field_findings_cons (N : nat) (c : string * Series)
    (cols : list (string * Series)) :
  key_field_findings N (c :: cols) =
  key_field_findings N [c] ++ key_field_findings N cols.
Proof.
  unfold key_field_findings. rewrite !filter_cons, filter_nil.
  destruct (decide _); reflexivity.
Qed.

Lemma audit_loop (df : DataFrame) (N : nat) (cols : list (string * Series)) :
  ∀ (r : AuditResults) (ms : list Q),
    (∀ c, In c cols → df_get df (fst c) = Ok (snd c)) →
    foldR (audit_column df N) (map fst cols) (r, ms) =
    Ok (mkAuditResults (column_stats r ++ map (column_stat_of N) cols)
                       (scores r)
                       (summary r ++ key_field_findings N cols)
                       (latest_date r) (health_score r),
        ms ++ map (λ c, 100 - missing_pct N (snd c))%Q cols).
Proof.
  induction cols as [|c cols IH]; intros r ms Hget.
  - cbn. unfold key_field_findings; cbn. rewrite !app_nil_r. now destruct r.
  - cbn [map foldR].
    rewrite audit_column_eq by (apply Hget; now left).
    cbn [mbind result_mbind result_bind].
    rewrite IH by (intros; apply Hget; now right).
    rewrite (key_field_findings_cons N c cols). cbn.
    rewrite <- !app_assoc. reflexivity.
Qed.

Lemma audit_timeliness_inv (pd : string → option Timestamp) (ed : Q → option Timestamp)
    (df : DataFrame) (r r' : AuditResults) :
  audit_timeliness pd ed df r = Ok r' → ∃ text, r' = set_latest_date text r.
Proof.
  unfold audit_timeliness. destruct (has_column df "Crash Date/Time").
  - intros H. do 4 bind_inv H. injection H as <-. eauto.
  - intros [= <-]. exists (latest_date r). now destruct r.
Qed.

Lemma audit_consistency_inv (df : DataFrame) (r r' : AuditResults) :
  audit_consistency df (nrows df) r = Ok r' →
  r' = with_findings (duplicate_findings df) (set_score "consistency" (consistency_of df) r).
Proof.
  unfold audit_consistency, consistency_of, duplicate_findings.
  destruct (has_column df primary_key) eqn:Hpk.
  - rewrite (has_column_get _ _ Hpk). cbn [mbind result_mbind result_bind].
    rewrite with_findings_if. now intros [= <-].
  - rewrite (has_column_absent _ _ Hpk). cbn. intros [= <-].
    now rewrite with_findings_nil.
Qed.

(** The masks the accuracy checks compute count the cells the
    specification calls out of range. *)

Lemma mapR_Ok_length {A B} (f : A → result B) (l : list A) (bs : list B) :
  mapR f l = Ok bs → length bs = length l.
Proof.
  revert bs. induction l as [|a l IH]; cbn; intros bs H.
  - now injection H as <-.
  - do 2 bind_inv H. injection H as <-. cbn. f_equal. now apply IH.
Qed.

Lemma series_gt_count (s : Series) (x : Q) (mask : list bool) :
  series_gt s x = Ok mask → count_true mask = count_where (exceeds x) s.
Proof.
  unfold series_gt. revert mask. induction s as [|c s IH]; intros mask H.
  - now injection H as <-.
  - cbn [mapR] in H. do 2 bind_inv H. injection H as <-.
    rewrite count_true_cons, count_where_cons, (IH _ E0).
    destruct c; cbn in E; try discriminate; now injection E as <-.
Qed.

Lemma series_lt_count (s : Series) (mask : list bool) :
  series_lt s 0 = Ok mask → count_true mask = count_where is_negative s.
Proof.
  unfold series_lt. revert mask. induction s as [|c s IH]; intros mask H.
  - now injection H as <-.
  - cbn [mapR] in H. do 2 bind_inv H. injection H as <-.
    rewrite count_true_cons, count_where_cons, (IH _ E0).
    destruct c; cbn in E; try discriminate; now injection E as <-.
Qed.

Lemma series_after_count (pd : string → option Timestamp) (ed : Q → option Timestamp)
    (s dates : Series) (now : Timestamp) (mask : list bool) :
  to_datetime pd ed s = Ok dates → series_after dates now = Ok mask →
  count_true mask = count_where (is_future pd ed now) s.
Proof.
  unfold to_datetime, series_after. revert dates mask.
  induction s as [|c s IH]; intros dates mask Hd Hm.
  - injection Hd as <-. cbn in Hm. now injection Hm as <-.
  - cbn [mapR] in Hd. do 2 bind_inv Hd. injection Hd as <-. cbn [mapR] in Hm.
    do 2 bind_inv Hm. injection Hm as <-.
    rewrite count_true_cons, count_where_cons, (IH _ _ E0 E2).
    f_equal. unfold is_future.
    destruct c; cbn in E |- *.
    + injection E as <-. cbn in E1. now injection E1 as <-.
    + destruct (ed q); [| discriminate]. injection E as <-. cbn in E1.
      now injection E1 as <-.
    + destruct (pd s0); [| discriminate]. injection E as <-. cbn in E1.
      now injection E1 as <-.
    + injection E as <-. cbn in E1. now injection E1 as <-.
Qed.

Lemma audit_future_dates_inv (pd : string → option Timestamp) (ed : Q → option Timestamp)
    (now : Timestamp) (df : DataFrame) (r r' : AuditResults) (k k' : nat) :
  audit_future_dates pd ed now df (r, k) = Ok (r', k') →
  r' = with_findings (finding_if (future_dated pd ed now df)
                                 (future_msg (future_dated pd ed now df))) r ∧
  k' = (k + future_dated pd ed now df)%nat.
Proof.
  unfold audit_future_dates, future_dated.
  destruct (has_column df "Crash Date/Time") eqn:Hc.
  - rewrite (has_column_get _ _ Hc). cbn [mbind result_mbind result_bind].
    intros H. do 2 bind_inv H.
    rewrite (series_after_count _ _ _ _ _ _ E E0) in H.
    rewrite with_findings_count in H. now injection H as <- <-.
  - rewrite (has_column_absent _ _ Hc). cbn. intros [= <- <-].
    now rewrite with_findings_nil, Nat.add_0_r.
Qed.

Lemma audit_vehicle_years_inv (cy : Z) (df : DataFrame) (r r' : AuditResults)
    (k k' : nat) :
  audit_vehicle_years cy df (r, k) = Ok (r', k') →
  r' = with_findings (finding_if (invalid_years cy df)
                                 (years_msg (invalid_years cy df) cy)) r ∧
  k' = (k + invalid_years cy df)%nat.
Proof.
  unfold audit_vehicle_years, invalid_years.
  destruct (has_column df "Vehicle Year") eqn:Hc.
  - rewrite (has_column_get _ _ Hc). cbn [mbind result_mbind result_bind].
    intros H. bind_inv H.
    rewrite (series_gt_count _ _ _ E) in H.
    rewrite with_findings_count in H. now injection H as <- <-.
  - rewrite (has_column_absent _ _ Hc). cbn. intros [= <- <-].
    now rewrite with_findings_nil, Nat.add_0_r.
Qed.

Lemma audit_speed_limits_inv (df : DataFrame) (r r' : AuditResults) (k k' : nat) :
  audit_speed_limits df (r, k) = Ok (r', k') →
  r' = with_findings (finding_if (negative_speeds df)
                                 (speed_msg (negative_speeds df))) r ∧
  k' = (k + negative_speeds df)%nat.
Proof.
  unfold audit_speed_limits, negative_speeds.
  destruct (has_column df "Speed Limit") eqn:Hc.
  - rewrite (has_column_get _ _ Hc). cbn [mbind result_mbind result_bind].
    intros H. bind_inv H.
    rewrite (series_lt_count _ _ E) in H.
    rewrite with_findings_count in H. now injection H as <- <-.
  - rewrite (has_column_absent _ _ Hc). cbn. intros [= <- <-].
    now rewrite with_findings_nil, Nat.add_0_r.
Qed.

(** ** The shape of a successful audit *)

Lemma column_names_looked_up (df : DataFrame) :
  column_names df = map fst (looked_up df).
Proof.
  unfold column_names, looked_up. rewrite map_map. reflexivity.
Qed.

Lemma length_looked_up (df : DataFrame) :
  length (looked_up df) = length (columns df).
Proof. unfold looked_up. apply length_map. Qed.

(** Every field of the report of a non-empty frame, in closed form. *)
Lemma run_audit_inv (pd : string → option Timestamp) (ed : Q → option Timestamp)
    (cy : Z) (now : Timestamp) (df : DataFrame) (r : AuditResults) :
  df_empty df = false →
  run_audit pd ed cy now df = Ok r →
  let N := nrows df in
  let cols := looked_up df in
  let C := completeness_of N cols in
  let S := consistency_of df in
  let A := accuracy_of N (accuracy_issue_total pd ed cy now df) in
  let F := future_dated pd ed now df in
  let Y := invalid_years cy df in
  let P := negative_speeds df in
  ∃ text,
    r = mkAuditResults
          (map (column_stat_of N) cols)
          (<["completeness" := C]> (<["accuracy" := A]> (<["consistency" := S]> ∅)))
          (key_field_findings N cols ++ duplicate_findings df ++
           finding_if F (future_msg F) ++ finding_if Y (years_msg Y cy) ++
           finding_if P (speed_msg P))
          text
          (Some ((C + S + A) / 3)%Q).
Proof.
  intros Hne H. unfold run_audit in H. rewrite Hne in H.
  bind_inv H. apply audit_timeliness_inv in E as [text ->].
  rewrite column_names_looked_up, audit_loop in H
    by (intros; now apply looked_up_get).
  cbn [mbind result_mbind result_bind] in H.
  bind_inv H. apply audit_consistency_inv in E as ->.
  bind_inv H. destruct a as [r1 k1]. apply audit_future_dates_inv in E. destruct E as [-> ->].
  bind_inv H. destruct a as [r2 k2]. apply audit_vehicle_years_inv in E. destruct E as [-> ->].
  bind_inv H. destruct a as [r3 k3]. apply audit_speed_limits_inv in E. destruct E as [-> ->].
  unfold get_score in H.
  cbn [scores set_score with_findings set_latest_date column_stats summary
       latest_date health_score app Nat.add] in H.
  repeat (rewrite ?lookup_insert_ne, ?lookup_insert_eq in H by done;
          cbn [mbind result_mbind result_bind] in H).
  injection H as <-. exists text.
  unfold set_health_score.
  cbn [scores set_score with_findings set_latest_date column_stats summary
       latest_date health_score app Nat.add].
  rewrite length_map.
  unfold completeness_of, accuracy_of, accuracy_issue_total.
  rewrite <- !app_assoc. reflexivity.
Qed.

(** ** Sums, means and maxima *)

Lemma fold_left_Qplus (xs : list Q) (a : Q) :
  (fold_left Qplus xs a == a + Qsum xs)%Q.
Proof.
  revert a. induction xs as [|x xs IH]; intros a; unfold Qsum; cbn.
  - ring.
  - rewrite IH. unfold Qsum. ring.
Qed.

Lemma py_sum_Qsum (xs : list Q) : (py_sum xs == Qsum xs)%Q.
Proof. unfold py_sum. rewrite fold_left_Qplus. ring. Qed.

Lemma py_max_Qmax (x : Q) : (py_max 0 x == Qmax 0 x)%Q.
Proof.
  unfold py_max. destruct (Qltb 0 x) eqn:H.
  - apply Qltb_lt in H. symmetry. apply Q.max_r. now apply Qlt_le_weak.
  - apply Qltb_ge in H. symmetry. now apply Q.max_l.
Qed.

(** ** Keys and duplicates *)

Lemma ts_eqb_eq (a b : Timestamp) : ts_eqb a b = true ↔ a = b.
Proof.
  unfold ts_eqb. rewrite bool_decide_eq_true. split; [| now intros ->].
  destruct a, b; cbn. now intros [= -> -> -> -> -> -> ->].
Qed.

Lemma cell_eqb_same_key (a b : cell) : cell_eqb a b = true ↔ same_key a b.
Proof.
  destruct a, b; cbn; try (split; [discriminate | tauto]).
  - tauto.
  - apply Qeq_bool_iff.
  - apply String.eqb_eq.
  - apply ts_eqb_eq.
Qed.

Lemma same_key_sym (a b : cell) : same_key a b → same_key b a.
Proof. destruct a, b; cbn; auto. intros H; now symmetry. Qed.

(** A row is marked by [duplicated] exactly when its key was seen before
    the scan or occurs in an earlier row. *)
Lemma duplicated_from_spec (s : Series) :
  ∀ (seen : list cell) (i : nat),
    duplicated_from seen s !! i = Some true ↔
    ∃ b, s !! i = Some b ∧
         ((∃ a, In a seen ∧ same_key a b) ∨
          (∃ j a, (j < i)%nat ∧ s !! j = Some a ∧ same_key a b)).
Proof.
  induction s as [|v s IH]; intros seen i.
  - cbn. split; [discriminate |]. now intros (b & Hb & _).
  - destruct i as [|i]; cbn.
    + split.
      * intros [= Hex]. exists v. split; [reflexivity |]. left.
        apply existsb_exists in Hex as (a & Hin & Heq).
        exists a. split; [assumption |].
        apply same_key_sym. now apply cell_eqb_same_key.
      * intros (b & [= <-] & [(a & Hin & Hk) | (j & a & Hlt & _)]); [| lia].
        f_equal. apply existsb_exists. exists a. split; [assumption |].
        apply cell_eqb_same_key. now apply same_key_sym.
    + rewrite IH. split.
      * intros (b & Hb & [(a & [<- | Hin] & Hk) | (j & a & Hlt & Hj & Hk)]).
        -- exists b. split; [assumption |]. right. exists 0%nat, v.
           repeat split; [lia | assumption].
        -- exists b. split; [assumption |]. left. eauto.
        -- exists b. split; [assumption |]. right. exists (S j), a.
           repeat split; [lia | assumption | assumption].
      * intros (b & Hb & [(a & Hin & Hk) | (j & a & Hlt & Hj & Hk)]).
        -- exists b. split; [assumption |]. left. exists a. split; [now right | assumption].
        -- exists b. split; [assumption |]. destruct j as [|j]; cbn in Hj.
           ++ injection Hj as ->. left. exists a. split; [now left | assumption].
           ++ right. exists j, a. repeat split; [lia | assumption | assumption].
Qed.

Lemma duplicated_spec (s : Series) (i : nat) :
  duplicated s !! i = Some true ↔ repeats_earlier s i.
Proof.
  unfold duplicated, repeats_earlier. rewrite duplicated_from_spec. split.
  - intros (b & Hb & [(a & [] & _) | (j & a & Hlt & Hj & Hk)]). eauto 10.
  - intros (j & a & b & Hlt & Hj & Hb & Hk). exists b. split; [assumption |].
    right. eauto.
Qed.

Lemma marked_from_length (mask : list bool) (k : nat) :
  length (marked_from k mask) = count_true mask.
Proof.
  revert k. induction mask as [|b mask IH]; intros k; [reflexivity |].
  cbn [marked_from]. rewrite length_app, IH, count_true_cons.
  now destruct b.
Qed.

Lemma marked_from_elem (mask : list bool) :
  ∀ k i, i ∈ marked_from k mask ↔ ∃ j, i = (k + j)%nat ∧ mask !! j = Some true.
Proof.
  induction mask as [|b mask IH]; intros k i; cbn [marked_from].
  - split; [intros H; inversion H | now intros (j & _ & H)].
  - rewrite elem_of_app, IH. split.
    + intros [H | (j & -> & Hj)].
      * destruct b; [| inversion H]. apply list_elem_of_singleton in H as ->.
        exists 0%nat. split; [lia | reflexivity].
      * exists (S j). split; [lia | assumption].
    + intros ([|j] & -> & Hj); cbn in Hj.
      * injection Hj as ->. left. rewrite Nat.add_0_r. apply list_elem_of_singleton.
        reflexivity.
      * right. exists j. split; [lia | assumption].
Qed.

Lemma marked_from_NoDup (mask : list bool) (k : nat) : NoDup (marked_from k mask).
Proof.
  revert k. induction mask as [|b mask IH]; intros k; cbn [marked_from].
  - constructor.
  - destruct b; cbn; [| apply IH].
    constructor; [| apply IH].
    rewrite marked_from_elem. intros (j & Hj & _). lia.
Qed.

(** [duplicated(...).sum()] is the number of rows that duplicate an
    earlier key. *)
Lemma duplicated_counts (s : Series) :
  duplicate_rows s (count_true (duplicated s)).
Proof.
  exists (marked_from 0 (duplicated s)). split; [apply marked_from_NoDup |].
  split; [apply marked_from_length |].
  intros i. rewrite marked_from_elem, <- duplicated_spec. split.
  - now intros (j & -> & Hj).
  - intros H. now exists i.
Qed.

Lemma duplicate_rows_unique (s : Series) (K K' : nat) :
  duplicate_rows s K → duplicate_rows s K' → K = K'.
Proof.
  intros (l & Hnd & <- & Hl) (l' & Hnd' & <- & Hl').
  apply Permutation_length, NoDup_Permutation; [assumption | assumption |].
  intros i. now rewrite Hl, Hl'.
Qed.

(** ** Findings by kind *)

Lemma filter_none (P : string → bool) (l : list string) :
  (∀ m, In m l → P m = false) → filter (λ m, P m = true) l = [].
Proof.
  induction l as [|x l IH]; intros H; [reflexivity |].
  rewrite filter_cons, decide_False.
  - apply IH. intros; apply H; now right.
  - rewrite (H x) by now left. discriminate.
Qed.

Lemma filter_all (P : string → bool) (l : list string) :
  (∀ m, In m l → P m = true) → filter (λ m, P m = true) l = l.
Proof.
  induction l as [|x l IH]; intros H; [reflexivity |].
  rewrite filter_cons, decide_True by (apply H; now left).
  f_equal. apply IH. intros; apply H; now right.
Qed.

Lemma In_finding_if (n : nat) (msg m : string) : In m (finding_if n msg) → m = msg.
Proof.
  unfold finding_if. destruct (0 <? n)%nat; cbn; [| tauto]. now intros [<- | []].
Qed.

Lemma In_key_field_findings (N : nat) (cols : list (string * Series)) (m : string) :
  In m (key_field_findings N cols) → ∃ col pct, m = key_field_msg col pct.
Proof.
  unfold key_field_findings. rewrite in_map_iff. intros (c & <- & _). eauto.
Qed.

Lemma In_duplicate_findings (df : DataFrame) (m : string) :
  In m (duplicate_findings df) → ∃ K, m = duplicate_msg K.
Proof. unfold duplicate_findings. intros H%In_finding_if. eauto. Qed.

(** The five sources of findings, filtered by kind. *)
Ltac by_kind :=
  let m := fresh "m" in
  let Hm := fresh "Hm" in
  first [ apply filter_none | apply filter_all ];
  intros m Hm;
  first
    [ apply In_key_field_findings in Hm as (? & ? & ->)
    | apply In_duplicate_findings in Hm as (? & ->)
    | apply In_finding_if in Hm as -> ];
  reflexivity.

Lemma summary_by_kind (N : nat) (cols : list (string * Series)) (df : DataFrame)
    (F Y P : nat) (cy : Z) :
  let summary :=
    key_field_findings N cols ++ duplicate_findings df ++
    finding_if F (future_msg F) ++ finding_if Y (years_msg Y cy) ++
    finding_if P (speed_msg P) in
  filter (λ m, completeness_finding m = true) summary = key_field_findings N cols ∧
  filter (λ m, consistency_finding m = true) summary = duplicate_findings df ∧
  filter (λ m, accuracy_finding m = true) summary =
    finding_if F (future_msg F) ++ finding_if Y (years_msg Y cy) ++
    finding_if P (speed_msg P).
Proof.
  cbv zeta. rewrite !filter_app. repeat split.
  - replace (filter _ (key_field_findings N cols)) with (key_field_findings N cols)
      by (symmetry; by_kind).
    replace (filter (λ m, completeness_finding m = true) (duplicate_findings df))
      with (@nil string) by (symmetry; by_kind).
    replace (filter (λ m, completeness_finding m = true) (finding_if F (future_msg F)))
      with (@nil string) by (symmetry; by_kind).
    replace (filter (λ m, completeness_finding m = true) (finding_if Y (years_msg Y cy)))
      with (@nil string) by (symmetry; by_kind).
    replace (filter (λ m, completeness_finding m = true) (finding_if P (speed_msg P)))
      with (@nil string) by (symmetry; by_kind).
    now rewrite !app_nil_r.
  - replace (filter _ (key_field_findings N cols)) with (@nil string)
      by (symmetry; by_kind).
    replace (filter (λ m, consistency_finding m = true) (duplicate_findings df))
      with (duplicate_findings df) by (symmetry; by_kind).
    replace (filter (λ m, consistency_finding m = true) (finding_if F (future_msg F)))
      with (@nil string) by (symmetry; by_kind).
    replace (filter (λ m, consistency_finding m = true) (finding_if Y (years_msg Y cy)))
      with (@nil string) by (symmetry; by_kind).
    replace (filter (λ m, consistency_finding m = true) (finding_if P (speed_msg P)))
      with (@nil string) by (symmetry; by_kind).
    now rewrite !app_nil_r.
  - replace (filter _ (key_field_findings N cols)) with (@nil string)
      by (symmetry; by_kind).
    replace (filter (λ m, accuracy_finding m = true) (duplicate_findings df))
      with (@nil string) by (symmetry; by_kind).
    replace (filter (λ m, accuracy_finding m = true) (finding_if F (future_msg F)))
      with (finding_if F (future_msg F)) by (symmetry; by_kind).
    replace (filter (λ m, accuracy_finding m = true) (finding_if Y (years_msg Y cy)))
      with (finding_if Y (years_msg Y cy)) by (symmetry; by_kind).
    replace (filter (λ m, accuracy_finding m = true) (finding_if P (speed_msg P)))
      with (finding_if P (speed_msg P)) by (symmetry; by_kind).
    reflexivity.
Qed.

(** ** More on frames *)

Lemma assoc_Some_In (k : string) (v : Series) (kvs : list (string * Series)) :
  assoc k kvs = Some v → In (k, v) kvs.
Proof.
  induction kvs as [|[k' v'] rest IH]; cbn; [discriminate |].
  destruct (String.eqb_spec k k') as [-> | _].
  - intros [= ->]. now left.
  - intros H. right. now apply IH.
Qed.

Lemma column_or_empty_length (df : DataFrame) (col : string) :
  df_wf df → (length (column_or_empty df col) <= nrows df)%nat.
Proof.
  intros [_ Hlen]. unfold column_or_empty.
  destruct (assoc col (columns df)) as [s|] eqn:E; cbn; [| lia].
  apply assoc_Some_In in E. rewrite Forall_forall in Hlen.
  apply list_elem_of_In, Hlen in E. cbn in E. lia.
Qed.

Lemma df_nonempty (df : DataFrame) :
  df_empty df = false → (0 < nrows df)%nat ∧ (0 < length (columns df))%nat.
Proof.
  unfold df_empty. intros H. apply orb_false_iff in H as [Hn Hc].
  apply Nat.eqb_neq in Hn. split; [lia |].
  destruct (columns df); [discriminate | cbn; lia].
Qed.

Lemma in_list_In (s : string) (l : list string) : in_list s l = true ↔ In s l.
Proof.
  unfold in_list. rewrite existsb_exists. split.
  - intros (x & Hin & Heq). apply String.eqb_eq in Heq. now subst.
  - intros Hin. exists s. split; [assumption | apply String.eqb_refl].
Qed.

Lemma accuracy_issue_total_le (pd : string → option Timestamp)
    (ed : Q → option Timestamp) (cy : Z) (now : Timestamp) (df : DataFrame) :
  df_wf df → (accuracy_issue_total pd ed cy now df <= nrows df * 3)%nat.
Proof.
  intros Hwf. unfold accuracy_issue_total, future_dated, invalid_years, negative_speeds.
  pose proof (count_where_le (is_future pd ed now) (column_or_empty df "Crash Date/Time")).
  pose proof (count_where_le (exceeds (inject_Z (cy + 1))) (column_or_empty df "Vehicle Year")).
  pose proof (count_where_le is_negative (column_or_empty df "Speed Limit")).
  pose proof (column_or_empty_length df "Crash Date/Time" Hwf).
  pose proof (column_or_empty_length df "Vehicle Year" Hwf).
  pose proof (column_or_empty_length df "Speed Limit" Hwf).
  lia.
Qed.

Lemma Forall2_map_self {A B} (P : A → B → Prop) (f : A → B) (l : list A) :
  (∀ x, P x (f x)) → Forall2 P l (map f l).
Proof. intros H. induction l; cbn; constructor; auto. Qed.

Lemma Forall2_map_in {A B} (P : A → B → Prop) (f : A → B) (l : list A) :
  (∀ x, In x l → P x (f x)) → Forall2 P l (map f l).
Proof.
  intros H. induction l as [|a l IH]; cbn; constructor.
  - apply H. now left.
  - apply IH. intros x Hx. apply H. now right.
Qed.

Lemma status_of_cases (N : nat) (c : string * Series) :
  let pct := missing_pct N (snd c) in
  let critical := In (fst c) key_fields ∧ (1 < pct)%Q in
  (status_of N c = "Critical" ↔ critical) ∧
  (status_of N c = "Warning" ↔ ¬ critical ∧ (10 < pct)%Q) ∧
  (status_of N c = "Valid" ↔ ¬ critical ∧ ¬ (10 < pct)%Q).
Proof.
  cbv zeta. unfold status_of, is_critical.
  rewrite <- in_list_In, <- !Qltb_lt.
  destruct (in_list (fst c) key_fields), (Qltb 1 (missing_pct N (snd c))),
    (Qltb 10 (missing_pct N (snd c))); cbn;
    repeat split; try discriminate; try tauto; try (intros [? ?]; tauto);
    try (intros [? ?]; discriminate); intuition discriminate.
Qed.

(** ** Properties of [run_audit] *)

Section AuditProperties.
Variable parse_datetime : string → option Timestamp.
Variable epoch_datetime : Q → option Timestamp.

(** C1.  On a non-empty table, [health_score] is the arithmetic mean of
    the completeness, consistency and accuracy scores.  The timeliness
    result does not enter: two reports with the same three scores have the
    same health score, whatever their [latest_date]. *)
Theorem health_score_is_mean_of_three_scores
    (current_year : Z) (now : Timestamp) (df : DataFrame) (r : AuditResults) :
  df_empty df = false →
  run_audit parse_datetime epoch_datetime current_year now df = Ok r →
  ∃ c s a h : Q,
    scores r !! "completeness" = Some c ∧
    scores r !! "consistency" = Some s ∧
    scores r !! "accuracy" = Some a ∧
    health_score r = Some h ∧
    (h == mean [c; s; a])%Q ∧
    ∀ current_year' now' df' r',
      df_empty df' = false →
      run_audit parse_datetime epoch_datetime current_year' now' df' = Ok r' →
      scores r' = scores r →
      health_score r' = health_score r.
Proof.
  intros Hne H. pose proof (run_audit_inv _ _ _ _ _ _ Hne H) as [text ->].
  cbn [scores health_score].
  do 4 eexists. rewrite lookup_insert_eq.
  rewrite !lookup_insert_ne, lookup_insert_eq by done.
  rewrite lookup_insert_ne, lookup_insert_eq by done.
  repeat split.
  - unfold mean, Qsum, Qnat. cbn. field.
  - intros cy' now' df' r' Hne' H' Hs.
    pose proof (run_audit_inv _ _ _ _ _ _ Hne' H') as [text' ->].
    cbn [scores health_score] in *.
    set (C := completeness_of (nrows df) (looked_up df)) in *.
    set (S := consistency_of df) in *.
    set (A := accuracy_of (nrows df) _) in *.
    set (C' := completeness_of (nrows df') (looked_up df')) in *.
    set (S' := consistency_of df') in *.
    set (A' := accuracy_of (nrows df') _) in *.
    assert (HC : Some C' = Some C).
    { apply (f_equal (λ m : gmap string Q, m !! "completeness")) in Hs.
      now rewrite !lookup_insert_eq in Hs. }
    assert (HA : Some A' = Some A).
    { apply (f_equal (λ m : gmap string Q, m !! "accuracy")) in Hs.
      now rewrite !(lookup_insert_ne _ "completeness"), !lookup_insert_eq in Hs by done. }
    assert (HS : Some S' = Some S).
    { apply (f_equal (λ m : gmap string Q, m !! "consistency")) in Hs.
      now rewrite !(lookup_insert_ne _ "completeness"),
        !(lookup_insert_ne _ "accuracy"), !lookup_insert_eq in Hs by done. }
    congruence.
Qed.

(** C3 (amended).  With [K] rows of the primary-key column duplicating
    an earlier key, the consistency score is the float that Python
    computes for [100 - (K / N) * 100].  It is within [10^-13] of
    [100 * (1 - K / N)], and it is 100 when [K = 0].  The finding that
    states [K] is in the summary exactly when [K > 0] (it is then the
    only consistency finding).  Without the primary-key column the score
    is 100. *)
Theorem consistency_score_counts_duplicates
    (current_year : Z) (now : Timestamp) (df : DataFrame) (r : AuditResults) :
  df_empty df = false →
  run_audit parse_datetime epoch_datetime current_year now df = Ok r →
  (∀ (s : Series) (K : nat),
     assoc primary_key (columns df) = Some s →
     duplicate_rows s K →
     ∃ c : Q,
       scores r !! "consistency" = Some c ∧
       c = consistency_binary64 K (nrows df) ∧
       ((K <= nrows df)%nat →
        (Qabs (c - 100 * (1 - Qnat K / Qnat (nrows df)))
         <= 1 # 10000000000000)%Q) ∧
       (K = 0%nat → c = 100%Q) ∧
       (In (duplicate_msg K) (summary r) ↔ (0 < K)%nat) ∧
       filter (λ m, consistency_finding m = true) (summary r) =
         finding_if K (duplicate_msg K)) ∧
  (assoc primary_key (columns df) = None →
   ∃ c : Q, scores r !! "consistency" = Some c ∧ (c == 100)%Q).
Proof.
  intros Hne H. pose proof (run_audit_inv _ _ _ _ _ _ Hne H) as [text ->].
  cbn [scores summary].
  rewrite !lookup_insert_ne, lookup_insert_eq by done.
  pose proof (summary_by_kind (nrows df) (looked_up df) df
                (future_dated parse_datetime epoch_datetime now df)
                (invalid_years current_year df) (negative_speeds df)
                current_year) as (_ & Hkind & _).
  cbv zeta in Hkind.
  split.
  - intros s K Hs HK. eexists. split; [reflexivity |].
    assert (HKeq : count_true (duplicated (column_or_empty df primary_key)) = K).
    { unfold column_or_empty. rewrite Hs. cbn.
      eapply duplicate_rows_unique; [apply duplicated_counts | exact HK]. }
    assert (Hfind : duplicate_findings df = finding_if K (duplicate_msg K)).
    { unfold duplicate_findings. now rewrite HKeq. }
    assert (Hc : consistency_of df = consistency_binary64 K (nrows df)).
    { unfold consistency_of, has_column. now rewrite Hs, HKeq. }
    rewrite Hc. split; [reflexivity |]. split; [| split; [| split]].
    + apply consistency_binary64_close.
    + intros ->. apply consistency_binary64_none.
    + transitivity (In (duplicate_msg K) (duplicate_findings df)).
      * split; intros Hin.
        -- rewrite <- Hkind. apply list_elem_of_In, list_elem_of_filter.
           split; [reflexivity | now apply list_elem_of_In].
        -- rewrite <- Hkind in Hin.
           apply list_elem_of_In, list_elem_of_filter in Hin as [_ Hin].
           now apply list_elem_of_In.
      * rewrite Hfind. unfold finding_if.
        destruct (Nat.ltb_spec 0 K); cbn; [| lia].
        split; [intros _; assumption | now left].
    + now rewrite Hkind.
  - intros Hs. eexists. split; [reflexivity |].
    unfold consistency_of, has_column. now rewrite Hs.
Qed.

(** C4.  The accuracy score is [max(0, 100 * (1 - T / (N * 3)))], where
    [T] adds the future-dated timestamps, the years beyond
    [current_year + 1] and the negative speed limits.  An absent field
    contributes no issue and leaves the divisor at [N * 3].  The accuracy
    findings of the summary are one per check with a positive count, each
    stating that count. *)
Theorem accuracy_score_formula
    (current_year : Z) (now : Timestamp) (df : DataFrame) (r : AuditResults) :
  df_empty df = false →
  run_audit parse_datetime epoch_datetime current_year now df = Ok r →
  let N := nrows df in
  let F := future_dated parse_datetime epoch_datetime now df in
  let Y := invalid_years current_year df in
  let P := negative_speeds df in
  let T := (F + Y + P)%nat in
  (∃ a : Q,
     scores r !! "accuracy" = Some a ∧
     (a == Qmax 0 (100 * (1 - Qnat T / (Qnat N * 3))))%Q) ∧
  (has_column df "Crash Date/Time" = false → F = 0%nat) ∧
  (has_column df "Vehicle Year" = false → Y = 0%nat) ∧
  (has_column df "Speed Limit" = false → P = 0%nat) ∧
  filter (λ m, accuracy_finding m = true) (summary r) =
    finding_if F (future_msg F) ++ finding_if Y (years_msg Y current_year) ++
    finding_if P (speed_msg P).
Proof.
  intros Hne H. pose proof (run_audit_inv _ _ _ _ _ _ Hne H) as [text ->].
  cbn [scores summary]. cbv zeta.
  rewrite lookup_insert_ne, lookup_insert_eq by done.
  repeat split.
  - eexists. split; [reflexivity |].
    unfold accuracy_of, accuracy_issue_total. rewrite py_max_Qmax.
    apply Q.max_compat; [reflexivity |].
    rewrite Qnat_mul3. unfold Qdiv. ring.
  - intros Hc. unfold future_dated. now rewrite (has_column_absent _ _ Hc).
  - intros Hc. unfold invalid_years. now rewrite (has_column_absent _ _ Hc).
  - intros Hc. unfold negative_speeds. now rewrite (has_column_absent _ _ Hc).
  - apply summary_by_kind.
Qed.

(** C5.  Between two tables with the same number of rows, the one with
    strictly more out-of-range values in the three wired fields has the
    strictly smaller accuracy score. *)
Theorem accuracy_score_strictly_decreasing
    (current_year : Z) (now : Timestamp) (df1 df2 : DataFrame)
    (r1 r2 : AuditResults) (a1 a2 : Q) :
  df_wf df1 → df_wf df2 →
  df_empty df1 = false → df_empty df2 = false →
  nrows df1 = nrows df2 →
  run_audit parse_datetime epoch_datetime current_year now df1 = Ok r1 →
  run_audit parse_datetime epoch_datetime current_year now df2 = Ok r2 →
  (accuracy_issue_total parse_datetime epoch_datetime current_year now df1 <
   accuracy_issue_total parse_datetime epoch_datetime current_year now df2)%nat →
  scores r1 !! "accuracy" = Some a1 →
  scores r2 !! "accuracy" = Some a2 →
  (a2 < a1)%Q.
Proof.
  intros Hwf1 Hwf2 Hne1 Hne2 HN H1 H2 HT.
  pose proof (run_audit_inv _ _ _ _ _ _ Hne1 H1) as [text1 ->].
  pose proof (run_audit_inv _ _ _ _ _ _ Hne2 H2) as [text2 ->].
  cbn [scores].
  rewrite !(lookup_insert_ne _ "completeness"), !lookup_insert_eq by done.
  intros [= <-] [= <-].
  pose proof (accuracy_issue_total_le parse_datetime epoch_datetime
                current_year now df2 Hwf2) as Hle.
  rewrite <- HN in *.
  set (T1 := accuracy_issue_total _ _ _ _ df1) in *.
  set (T2 := accuracy_issue_total _ _ _ _ df2) in *.
  apply df_nonempty in Hne1 as [HNpos _].
  assert (HD : (0 < Qnat (nrows df1 * 3))%Q) by (apply Qnat_pos; lia).
  assert (Hu : (Qnat T1 / Qnat (nrows df1 * 3) < Qnat T2 / Qnat (nrows df1 * 3))%Q).
  { unfold Qdiv. apply Qmult_lt_compat_r; [now apply Qinv_lt_0_compat |].
    now apply Qnat_lt. }
  assert (Hv : (Qnat T2 / Qnat (nrows df1 * 3) <= 1)%Q).
  { apply Qle_shift_div_r; [assumption |]. rewrite Qmult_1_l. now apply Qnat_le. }
  unfold accuracy_of, py_max.
  set (u1 := (Qnat T1 / Qnat (nrows df1 * 3))%Q) in *.
  set (u2 := (Qnat T2 / Qnat (nrows df1 * 3))%Q) in *.
  destruct (Qltb 0 ((1 - u1) * 100)) eqn:E1, (Qltb 0 ((1 - u2) * 100)) eqn:E2;
    try apply Qltb_lt in E1; try apply Qltb_lt in E2;
    try apply Qltb_ge in E1; try apply Qltb_ge in E2; lra.
Qed.

(** C6.  Column by column: the status is Critical exactly for a key field
    missing in more than 1% of the rows, Warning for another column missing
    in more than 10%, Valid otherwise.  The completeness findings of the
    summary are one per Critical column, naming the column and its missing
    percentage to two decimals: the two decimals of the float that
    Python computes for the percentage, which is within [4 * 10^-14] of
    it and, on a table of up to [10^13] rows, on the same side of both
    thresholds.  The completeness score is the mean over all columns of
    [100 - missing_pct]. *)
Theorem completeness_statuses_and_score
    (current_year : Z) (now : Timestamp) (df : DataFrame) (r : AuditResults) :
  df_wf df →
  df_empty df = false →
  run_audit parse_datetime epoch_datetime current_year now df = Ok r →
  let N := nrows df in
  Forall2
    (λ (c : string * Series) (st : ColumnStat),
       let pct := missing_pct N (snd c) in
       let printed := printed_pct N (snd c) in
       let critical := In (fst c) key_fields ∧ (1 < pct)%Q in
       cs_column_name st = fst c ∧
       cs_pct_missing st = (fmt_2f printed ++ "%")%string ∧
       (Qabs (printed - pct) <= 4 # 100000000000000)%Q ∧
       ((Z.of_nat N <= 10000000000000)%Z →
        ((1 < printed)%Q ↔ (1 < pct)%Q) ∧ ((10 < printed)%Q ↔ (10 < pct)%Q)) ∧
       (cs_status st = "Critical" ↔ critical) ∧
       (cs_status st = "Warning" ↔ ¬ critical ∧ (10 < pct)%Q) ∧
       (cs_status st = "Valid" ↔ ¬ critical ∧ ¬ (10 < pct)%Q))
    (columns df) (column_stats r) ∧
  (∀ c, is_critical N c = true ↔
        In (fst c) key_fields ∧ (1 < missing_pct N (snd c))%Q) ∧
  filter (λ m, completeness_finding m = true) (summary r) =
    map (λ c, key_field_msg (fst c) (printed_pct N (snd c)))
        (filter (λ c, is_critical N c = true) (columns df)) ∧
  ∃ c : Q,
    scores r !! "completeness" = Some c ∧
    (c == mean (map (λ c, 100 - missing_pct N (snd c)) (columns df)))%Q.
Proof.
  intros Hwf Hne H. pose proof (run_audit_inv _ _ _ _ _ _ Hne H) as [text ->].
  cbn [scores summary column_stats]. cbv zeta.
  rewrite (looked_up_wf df Hwf), lookup_insert_eq.
  split; [| split; [| split]].
  - apply Forall2_map_in. intros c Hin.
    pose proof (status_of_cases (nrows df) c) as Hst. cbv zeta in Hst.
    cbn [column_stat_of cs_column_name cs_pct_missing cs_status].
    assert (Hm : (isnull_sum (snd c) <= nrows df)%nat).
    { destruct Hwf as [_ Hlen]. rewrite Forall_forall in Hlen.
      rewrite <- (Hlen c) by now apply list_elem_of_In.
      apply isnull_sum_le. }
    assert (HN : (0 < nrows df)%nat).
    { unfold df_empty in Hne. apply orb_false_iff in Hne as [Hn _].
      apply Nat.eqb_neq in Hn. lia. }
    split; [reflexivity |]. split; [reflexivity |].
    split; [now apply percent_binary64_close |]. split; [| exact Hst].
    intros Hbig. unfold printed_pct, missing_pct. split.
    + exact (threshold_survives_rounding 1 _ _ eq_refl Hm HN Hbig).
    + exact (threshold_survives_rounding 10 _ _ eq_refl Hm HN Hbig).
  - intros c. unfold is_critical.
    now rewrite andb_true_iff, in_list_In, Qltb_lt.
  - pose proof (summary_by_kind (nrows df) (columns df) df
                  (future_dated parse_datetime epoch_datetime now df)
                  (invalid_years current_year df) (negative_speeds df)
                  current_year) as (Hkind & _).
    cbv zeta in Hkind. rewrite Hkind. reflexivity.
  - eexists. split; [reflexivity |].
    unfold completeness_of, mean. rewrite py_sum_Qsum, length_map. reflexivity.
Qed.

(** C2 (amended).  On an empty table, zero rows or zero columns, the audit
    does not raise; it returns the initial report: no column statistics,
    no scores, no findings, ["N/A"] as the latest date, and no
    [health_score] entry. *)
Theorem empty_table_report
    (current_year : Z) (now : Timestamp) (df : DataFrame) :
  (nrows df = 0%nat ∨ columns df = []) →
  ∃ r,
    run_audit parse_datetime epoch_datetime current_year now df = Ok r ∧
    column_stats r = [] ∧ scores r = ∅ ∧ summary r = [] ∧
    latest_date r = "N/A" ∧ health_score r = None.
Proof.
  intros Hempty. unfold run_audit.
  assert (df_empty df = true) as ->.
  { unfold df_empty. destruct Hempty as [-> | ->]; [reflexivity |].
    apply orb_true_r. }
  eexists. split; [reflexivity |]. repeat split.
Qed.
End AuditProperties.

(** ** Properties of [check_consistency] *)

Lemma Qltb_comp_l (a a' b : Q) : (a == a')%Q → Qltb a b = Qltb a' b.
Proof.
  intros H. apply eq_true_iff_eq. rewrite !Qltb_lt. now rewrite H.
Qed.

Lemma assoc_set_eq (k : string) (v : Series) (kvs : list (string * Series)) :
  assoc k (assoc_set k v kvs) = Some v.
Proof.
  induction kvs as [|[k' v'] rest IH]; cbn.
  - now rewrite String.eqb_refl.
  - destruct (String.eqb_spec k k') as [-> | Hne]; cbn.
    + now rewrite String.eqb_refl.
    + apply String.eqb_neq in Hne. now rewrite Hne.
Qed.

Lemma assoc_set_ne (k k' : string) (v : Series) (kvs : list (string * Series)) :
  k ≠ k' → assoc k' (assoc_set k v kvs) = assoc k' kvs.
Proof.
  intros Hne. induction kvs as [|[k0 v0] rest IH]; cbn.
  - destruct (String.eqb_spec k' k); [congruence | reflexivity].
  - destruct (String.eqb_spec k k0) as [-> | Hne0]; cbn.
    + destruct (String.eqb_spec k' k0); [congruence | reflexivity].
    + destruct (String.eqb_spec k' k0); [reflexivity | apply IH].
Qed.

Lemma assoc_set_nonempty (k : string) (v : Series) (kvs : list (string * Series)) :
  assoc_set k v kvs ≠ [].
Proof. destruct kvs as [|[k' v'] rest]; cbn; [| destruct (String.eqb k k')]; discriminate. Qed.

(** The mask of the cross-field rule marks the implausible rows. *)
Lemma implausible_mask (vehicle_year dates : Series) :
  ∀ (limit : Series) (mask : list bool),
    series_add (map year_of_cell dates) 1 = Ok limit →
    series_gt_series vehicle_year limit = Ok mask →
    count_true mask =
    length (filter (λ p, implausible (fst p) (snd p) = true) (zip vehicle_year dates)).
Proof.
  revert dates. induction vehicle_year as [|v vs IH]; intros dates limit mask Hl Hm.
  - cbn in Hm. now injection Hm as <-.
  - destruct dates as [|d ds].
    + cbn in Hl. injection Hl as <-. cbn in Hm. now injection Hm as <-.
    + unfold series_add in Hl. cbn [map mapR] in Hl. do 2 bind_inv Hl.
      injection Hl as <-. cbn [series_gt_series] in Hm. do 2 bind_inv Hm.
      injection Hm as <-.
      cbn [zip zip_with]. rewrite filter_cons, count_true_cons.
      rewrite (IH ds a0 a2 E0 E2). cbn [fst snd].
      assert (Ha1 : a1 = implausible v d).
      { destruct d; cbn in E; injection E as <-;
          destruct v; cbn in E1; try discriminate; injection E1 as <-; try reflexivity.
        cbn. apply Qltb_comp_l. rewrite inject_Z_plus. reflexivity. }
      rewrite Ha1. destruct (implausible v d); destruct (decide _); cbn; congruence.
Qed.

(** The years of a column of timestamps and missing cells can be
    compared with a column of numbers and missing cells. *)
Lemma cross_field_mask (vehicle_year dates : Series) :
  forallb is_numeric vehicle_year = true →
  ∃ limit mask,
    series_add (map year_of_cell dates) 1 = Ok limit ∧
    series_gt_series vehicle_year limit = Ok mask.
Proof.
  revert dates. induction vehicle_year as [|v vs IH]; intros dates Hv.
  - assert (Hl : ∃ limit, series_add (map year_of_cell dates) 1 = Ok limit).
    { unfold series_add. induction dates as [|d ds IHd]; [cbn; eauto |].
      destruct IHd as (l & Hl). cbn [map mapR]. rewrite Hl.
      destruct d; cbn; eauto. }
    destruct Hl as (limit & Hl). exists limit, []. split; [exact Hl | reflexivity].
  - cbn [forallb] in Hv. apply andb_true_iff in Hv as [Hv Hvs].
    destruct dates as [|d ds]; [exists [], []; split; reflexivity |].
    destruct (IH ds Hvs) as (limit & mask & Hl & Hm).
    assert (Hhead : ∃ y, add_num 1 (year_of_cell d) = Ok y ∧ ∃ m, gt_cell v y = Ok m).
    { destruct d, v; try discriminate; cbn; eauto. }
    destruct Hhead as (y & Hy & m & Hm').
    exists (y :: limit), (m :: mask). split.
    + unfold series_add in *. cbn [map mapR]. rewrite Hy.
      cbn [mbind result_mbind result_bind]. now rewrite Hl.
    + cbn [series_gt_series]. rewrite Hm'.
      cbn [mbind result_mbind result_bind]. now rewrite Hm.
Qed.

(** C7.  On a table with both the timestamp and the year-like column, the
    legacy consistency check, when it returns, reports one finding, with
    their number, when some rows have the year-like field beyond the
    timestamp's year + 1, and nothing otherwise; it returns whenever the
    timestamp column is datetime64 and the year-like column holds numbers
    and missing cells.  The consistency score of the audit does not see
    the finding: it is the same on any table with as many rows and the
    same primary-key column, whatever the two fields hold. *)
Theorem cross_field_finding_is_not_scored
    (missing_is_datetime : bool) (df : DataFrame) :
  has_column df "Crash Date/Time" = true →
  has_column df "Vehicle Year" = true →
  let n := implausible_rows df in
  let dates := column_or_empty df "Crash Date/Time" in
  (∀ c, check_consistency missing_is_datetime df = Ok c →
        issues c = finding_if n (inconsistent_msg n) ∧
        (status c = "Pass" ↔ n = 0%nat)) ∧
  ((if forallb is_na dates then missing_is_datetime else forallb is_temporal dates)
   = true →
   forallb is_numeric (column_or_empty df "Vehicle Year") = true →
   ∃ c, check_consistency missing_is_datetime df = Ok c) ∧
  ∀ parse_datetime epoch_datetime current_year now df' r r',
    df_empty df = false → df_empty df' = false →
    nrows df' = nrows df →
    assoc primary_key (columns df') = assoc primary_key (columns df) →
    run_audit parse_datetime epoch_datetime current_year now df = Ok r →
    run_audit parse_datetime epoch_datetime current_year now df' = Ok r' →
    scores r' !! "consistency" = scores r !! "consistency".
Proof.
  intros Hd Hv. cbv zeta.
  assert (Hyears : ∀ years,
            dt_year missing_is_datetime (column_or_empty df "Crash Date/Time")
              = Ok years →
            years = map year_of_cell (column_or_empty df "Crash Date/Time")).
  { intros years H. unfold dt_year in H.
    destruct (forallb is_na _);
      [destruct missing_is_datetime | destruct (String.eqb _ _)];
      try discriminate; now injection H as <-. }
  assert (Hvehicle :
            df_get (df_set df "Crash Year"
                      (map year_of_cell (column_or_empty df "Crash Date/Time")))
                   "Vehicle Year" = Ok (column_or_empty df "Vehicle Year")).
  { unfold df_get, df_set. cbn [columns].
    rewrite (assoc_set_ne "Crash Year" "Vehicle Year") by discriminate.
    fold (df_get df "Vehicle Year"). apply (has_column_get _ _ Hv). }
  assert (Hcrash : ∀ s,
            df_get (df_set df "Crash Year" s) "Crash Year" = Ok s).
  { intros s. unfold df_get, df_set. cbn [columns]. now rewrite assoc_set_eq. }
  split; [| split].
  - intros c H. unfold check_consistency in H. rewrite Hd, Hv in H. cbn [andb] in H.
    bind_inv H. injection H as <-. cbn [issues status].
    rewrite (has_column_get _ _ Hd) in E. cbn [mbind result_mbind result_bind] in E.
    bind_inv E. apply Hyears in E0 as ->.
    rewrite Hvehicle, Hcrash in E. cbn [mbind result_mbind result_bind] in E.
    do 2 bind_inv E.
    unfold df_filter, df_empty, df_set in E. cbn [nrows columns] in E.
    rewrite (implausible_mask _ _ _ _ E0 E1) in E.
    fold (implausible_rows df) in E.
    unfold finding_if.
    destruct (implausible_rows df) as [|n] eqn:En.
    + cbn in E. injection E as <-. split; [reflexivity | tauto].
    + cbn [Nat.eqb orb negb] in E.
      destruct (map _ (assoc_set _ _ _)) eqn:Em.
      * apply map_eq_nil in Em. now apply assoc_set_nonempty in Em.
      * cbn in E. injection E as <-. split; [reflexivity |].
        split; [discriminate | discriminate].
  - intros Hdates Hnum. unfold check_consistency. rewrite Hd, Hv. cbn [andb].
    rewrite (has_column_get _ _ Hd). cbn [mbind result_mbind result_bind].
    assert (Hdt : dt_year missing_is_datetime (column_or_empty df "Crash Date/Time")
                  = Ok (map year_of_cell (column_or_empty df "Crash Date/Time"))).
    { unfold dt_year. destruct (forallb is_na _) eqn:Hna; [now rewrite Hdates |].
      unfold dtype. rewrite Hdates.
      destruct (forallb is_numeric (column_or_empty df "Crash Date/Time")) eqn:Hn;
        [| reflexivity].
      exfalso. clear -Hna Hn Hdates.
      induction (column_or_empty df "Crash Date/Time") as [|c s IH]; [discriminate |].
      cbn [forallb] in *. apply andb_true_iff in Hn as [Hc Hn].
      apply andb_true_iff in Hdates as [Hc' Hd].
      destruct c; try discriminate. cbn [is_na andb] in Hna. now apply IH. }
    rewrite Hdt. cbn [mbind result_mbind result_bind].
    rewrite Hvehicle, Hcrash. cbn [mbind result_mbind result_bind].
    destruct (cross_field_mask _ (column_or_empty df "Crash Date/Time") Hnum)
      as (limit & mask & Hl & Hm).
    rewrite Hl. cbn [mbind result_mbind result_bind].
    rewrite Hm. cbn [mbind result_mbind result_bind].
    destruct (negb _); cbn; eauto.
  - intros pd ed cy now df' r r' Hne Hne' HN Hpk Hr Hr'.
    pose proof (run_audit_inv _ _ _ _ _ _ Hne Hr) as [text ->].
    pose proof (run_audit_inv _ _ _ _ _ _ Hne' Hr') as [text' ->].
    cbn [scores]. rewrite !lookup_insert_ne, !lookup_insert_eq by done.
    f_equal. unfold consistency_of, has_column, column_or_empty.
    now rewrite Hpk, HN.
Qed.

(** ** Properties of [impute_column] *)



Lemma fillna_NA (s : Series) : fillna NA s = s.
Proof.
  unfold fillna. induction s as [|c s IH]; [reflexivity |].
  cbn. rewrite IH. now destruct c.
Qed.

Section CleaningProperties.
Variable py_str_num : Q → string.
Variable np_mean : list Q → option Q.


(** C10.  On a column of the table, a strategy other than Mean, Median,
    Mode and Drop raises nothing and returns the table as it was, with the
    empty message. *)
Theorem impute_unknown_strategy (df : DataFrame) (col strategy : string) :
  has_column df col = true →
  ¬ In strategy ["Mean"; "Median"; "Mode"; "Drop"] →
  impute_column py_str_num np_mean df col strategy = Ok (df, "").
Proof.
  intros Hcol Hstr. unfold impute_column.
  rewrite (has_column_get _ _ Hcol). cbn [mbind result_mbind result_bind].
  destruct (String.eqb_spec strategy "Mean") as [-> | _];
    [exfalso; apply Hstr; cbn; tauto |].
  destruct (String.eqb_spec strategy "Median") as [-> | _];
    [exfalso; apply Hstr; cbn; tauto |].
  destruct (String.eqb_spec strategy "Mode") as [-> | _];
    [exfalso; apply Hstr; cbn; tauto |].
  destruct (String.eqb_spec strategy "Drop") as [-> | _];
    [exfalso; apply Hstr; cbn; tauto |].
  reflexivity.
Qed.
End CleaningProperties.

(** ** Properties of [CleaningEngine] *)

Lemma engine_inv_dom (h0 : store) (st : store * Engine) :
  engine_inv h0 st → dom h0 ⊆ dom (fst st).
Proof.
  intros [_ Hsame] l Hl. rewrite elem_of_dom, (Hsame l Hl), <- elem_of_dom.
  exact Hl.
Qed.

Lemma engine_inv_write (h0 h : store) (self : Engine) (d : DataFrame)
    (hist : list LogEntry) :
  engine_inv h0 (h, self) →
  engine_inv h0 (<[self_df self := d]> h, mkEngine (self_df self) hist).
Proof.
  intros [Hfresh Hsame]. split; [exact Hfresh |].
  intros l Hl. cbn. rewrite lookup_insert_ne; [now apply Hsame |].
  intros <-. contradiction.
Qed.

Lemma engine_inv_alloc (h0 h : store) (self : Engine) (d : DataFrame)
    (hist : list LogEntry) :
  engine_inv h0 (h, self) →
  engine_inv h0 (<[fresh (dom h) := d]> h, mkEngine (fresh (dom h)) hist).
Proof.
  intros Hinv. pose proof (engine_inv_dom _ _ Hinv) as Hdom.
  destruct Hinv as [_ Hsame]. cbn in Hdom.
  assert (Hnew : fresh (dom h) ∉ dom h0).
  { intros Hin. apply (is_fresh (dom h)). now apply Hdom. }
  split; [exact Hnew |].
  intros l Hl. cbn. rewrite lookup_insert_ne; [now apply Hsame |].
  intros <-. contradiction.
Qed.

Lemma engine_init_inv (h0 h : store) (l : loc) (self : Engine) :
  engine_init h0 l = Ok (h, self) → engine_inv h0 (h, self).
Proof.
  unfold engine_init, df_copy, deref. destruct (h0 !! l); [| discriminate].
  cbn [mbind result_mbind result_bind]. intros [= <- <-]. split; cbn.
  - apply is_fresh.
  - intros l' Hl'. rewrite lookup_insert_ne; [reflexivity |].
    intros <-. now apply (is_fresh (dom h0)).
Qed.

Section EngineProperties.
Variable py_str_num : Q → string.
Variable copy_on_write : bool.

Lemma run_op_inv (h0 : store) (now : Timestamp) (o : op)
    (st st' : store * Engine) (l : loc) :
  engine_inv h0 st →
  run_op py_str_num copy_on_write now o st = Ok (st', l) →
  engine_inv h0 st'.
Proof.
  destruct st as [h self]. intros Hinv H. destruct o; cbn [run_op] in H.
  - unfold drop_nulls, log_step in H. do 3 bind_inv H. injection H as <- <-.
    now apply (engine_inv_write h0 h self).
  - unfold fill_nulls, log_step in H. do 3 bind_inv H. injection H as <- <-.
    destruct copy_on_write; [| now apply (engine_inv_write h0 h self)].
    destruct Hinv as [Hfresh Hsame]. split; assumption.
  - unfold filter_by_year, log_step in H. do 4 bind_inv H. injection H as <- <-.
    now apply (engine_inv_alloc h0 h self).
Qed.

Lemma run_ops_inv (h0 : store) (ops : list (Timestamp * op)) :
  ∀ st, engine_inv h0 st →
        engine_inv h0 (fst (run_ops py_str_num copy_on_write ops st)).
Proof.
  induction ops as [|[now o] ops IH]; intros st Hinv; [exact Hinv |].
  cbn [run_ops].
  destruct (run_op py_str_num copy_on_write now o st) as [[st' l]|e] eqn:E.
  - apply IH. eapply run_op_inv; eassumption.
  - exact Hinv.
Qed.

(** C9.  An engine built on a frame works on a copy of it: after any
    sequence of [drop_nulls], [fill_nulls] and [filter_by_year] calls,
    completed or ended by an exception, the caller's frame, and every
    other object the caller had, is as it was. *)
Theorem engine_leaves_caller_frame_unchanged
    (h : store) (l : loc) (d : DataFrame) :
  h !! l = Some d →
  ∃ h0 self,
    engine_init h l = Ok (h0, self) ∧
    self_df self ≠ l ∧
    ∀ ops : list (Timestamp * op),
      let h' := fst (fst (run_ops py_str_num copy_on_write ops (h0, self))) in
      h' !! l = Some d ∧ ∀ l', l' ∈ dom h → h' !! l' = h !! l'.
Proof.
  intros Hl. unfold engine_init, df_copy, deref. rewrite Hl.
  cbn [mbind result_mbind result_bind].
  eexists _, _. split; [reflexivity |].
  assert (Hinit : engine_inv h (<[fresh (dom h) := d]> h, mkEngine (fresh (dom h)) [])).
  { apply (engine_init_inv h _ l). unfold engine_init, df_copy, deref.
    now rewrite Hl. }
  assert (Hdom : l ∈ dom h) by (apply elem_of_dom; eauto).
  split.
  - cbn. intros Heq. destruct Hinit as [Hfresh _]. cbn in Hfresh.
    rewrite Heq in Hfresh. contradiction.
  - intros ops. cbv zeta.
    pose proof (run_ops_inv h ops _ Hinit) as [_ Hsame].
    split; [| exact Hsame]. now rewrite (Hsame l Hdom).
Qed.
End EngineProperties.

(** ** When the audit returns *)

Section AuditReturns.
Variable parse_datetime : string → option Timestamp.
Variable epoch_datetime : Q → option Timestamp.

Lemma to_datetime_datable (s : Series) :
  datable parse_datetime epoch_datetime s →
  ∃ dates, to_datetime parse_datetime epoch_datetime s = Ok dates ∧
           forallb is_temporal dates = true ∧
           ((∃ c, In c s ∧ c ≠ NA) → ∃ t, In (Time t) dates).
Proof.
  unfold to_datetime. induction s as [|c s IH]; intros Hd.
  - exists []. repeat split. now intros (c & [] & _).
  - destruct IH as (dates & Hdates & Htemp & Hsome).
    { intros c' Hc'. apply Hd. now right. }
    cbn [mapR]. rewrite Hdates.
    destruct (Hd c (or_introl eq_refl)) as [-> | (t & Ht)].
    + exists (NA :: dates). cbn. repeat split; [assumption |].
      intros (c & [<- | Hin] & Hne); [congruence |].
      destruct Hsome as (t & Ht); [eauto |]. eauto.
    + exists (Time t :: dates).
      assert (to_datetime_cell parse_datetime epoch_datetime c = Ok (Time t)) as ->.
      { destruct c; cbn in Ht |- *; try discriminate; rewrite ?Ht; congruence. }
      cbn. repeat split; [assumption |]. intros _. exists t. now left.
Qed.

Lemma series_max_time_temporal (dates : Series) :
  forallb is_temporal dates = true →
  ∃ m, series_max_time dates = Ok m ∧
       ((∃ t, In (Time t) dates) → ∃ u, m = Time u).
Proof.
  induction dates as [|c dates IH]; cbn [forallb]; intros H.
  - exists NA. split; [reflexivity |]. now intros (t & []).
  - apply andb_true_iff in H as [Hc Hrest].
    destruct (IH Hrest) as (m & Hm & Hsome).
    destruct c; try discriminate; cbn [series_max_time].
    + exists m. split; [assumption |].
      intros (t & [Heq | Hin]); [discriminate | eauto].
    + rewrite Hm. cbn [mbind result_mbind result_bind].
      destruct m; eexists; (split; [reflexivity | eauto]).
Qed.

Lemma series_after_temporal (dates : Series) (now : Timestamp) :
  forallb is_temporal dates = true → ∃ mask, series_after dates now = Ok mask.
Proof.
  unfold series_after. induction dates as [|c dates IH]; cbn [forallb]; intros H.
  - now exists [].
  - apply andb_true_iff in H as [Hc Hrest]. destruct (IH Hrest) as (mask & Hmask).
    cbn [mapR]. rewrite Hmask. destruct c; try discriminate; cbn; eauto.
Qed.

Lemma cmp_num_numeric (op : Q → Q → bool) (x : Q) (s : Series) :
  forallb is_numeric s = true → ∃ mask, mapR (cmp_num op x) s = Ok mask.
Proof.
  induction s as [|c s IH]; cbn [forallb]; intros H.
  - now exists [].
  - apply andb_true_iff in H as [Hc Hrest]. destruct (IH Hrest) as (mask & Hmask).
    cbn [mapR]. rewrite Hmask. destruct c; try discriminate; cbn; eauto.
Qed.

Lemma dates_ready (df : DataFrame) (now : Timestamp) :
  audit_typed parse_datetime epoch_datetime df →
  has_column df "Crash Date/Time" = true →
  ∃ dates latest mask,
    to_datetime parse_datetime epoch_datetime
      (column_or_empty df "Crash Date/Time") = Ok dates ∧
    series_max_time dates = Ok (Time latest) ∧
    series_after dates now = Ok mask.
Proof.
  intros (Hdate & _) Hc. unfold has_column in Hc. unfold column_or_empty.
  destruct (assoc "Crash Date/Time" (columns df)) as [s|] eqn:Es; [| discriminate].
  destruct (Hdate s eq_refl) as [Hd Hsome].
  destruct (to_datetime_datable s Hd) as (dates & Hdates & Htemp & Htime).
  destruct (series_max_time_temporal dates Htemp) as (m & Hm & Hmt).
  destruct (Hmt (Htime Hsome)) as (u & ->).
  destruct (series_after_temporal dates now Htemp) as (mask & Hmask).
  exists dates, u, mask. cbn. auto.
Qed.

Lemma audit_timeliness_returns (df : DataFrame) (r : AuditResults) :
  audit_typed parse_datetime epoch_datetime df →
  ∃ r', audit_timeliness parse_datetime epoch_datetime df r = Ok r'.
Proof.
  intros Ht. unfold audit_timeliness.
  destruct (has_column df "Crash Date/Time") eqn:Hc; [| eauto].
  destruct (dates_ready df (mkTimestamp 0 0 0 0 0 0 0) Ht Hc)
    as (dates & latest & _ & Hd & Hm & _).
  rewrite (has_column_get _ _ Hc). cbn [mbind result_mbind result_bind].
  rewrite Hd. cbn [mbind result_mbind result_bind].
  rewrite Hm. cbn. eauto.
Qed.

Lemma audit_consistency_returns (df : DataFrame) (N : nat) (r : AuditResults) :
  ∃ r', audit_consistency df N r = Ok r'.
Proof.
  unfold audit_consistency.
  destruct (has_column df primary_key) eqn:Hc; [| eauto].
  rewrite (has_column_get _ _ Hc). cbn [mbind result_mbind result_bind].
  destruct (0 <? _)%nat; eauto.
Qed.

Lemma audit_future_dates_returns (now : Timestamp) (df : DataFrame)
    (st : AuditResults * nat) :
  audit_typed parse_datetime epoch_datetime df →
  ∃ st', audit_future_dates parse_datetime epoch_datetime now df st = Ok st'.
Proof.
  intros Ht. destruct st as [r k]. unfold audit_future_dates.
  destruct (has_column df "Crash Date/Time") eqn:Hc; [| eauto].
  destruct (dates_ready df now Ht Hc) as (dates & _ & mask & Hd & _ & Hm).
  rewrite (has_column_get _ _ Hc). cbn [mbind result_mbind result_bind].
  rewrite Hd. cbn [mbind result_mbind result_bind].
  rewrite Hm. cbn [mbind result_mbind result_bind].
  destruct (0 <? _)%nat; eauto.
Qed.

Lemma audit_vehicle_years_returns (cy : Z) (df : DataFrame)
    (st : AuditResults * nat) :
  audit_typed parse_datetime epoch_datetime df →
  ∃ st', audit_vehicle_years cy df st = Ok st'.
Proof.
  intros (_ & Hyear & _). destruct st as [r k]. unfold audit_vehicle_years.
  destruct (has_column df "Vehicle Year") eqn:Hc; [| eauto].
  rewrite (has_column_get _ _ Hc). cbn [mbind result_mbind result_bind].
  unfold has_column in Hc. unfold column_or_empty, series_gt.
  destruct (assoc "Vehicle Year" (columns df)) as [s|] eqn:Es; [| discriminate].
  change (default [] (Some s)) with s.
  destruct (cmp_num_numeric (λ q x, Qltb x q) (inject_Z (cy + 1)) s (Hyear s eq_refl))
    as (mask & ->).
  cbn [mbind result_mbind result_bind]. destruct (0 <? _)%nat; eauto.
Qed.

Lemma audit_speed_limits_returns (df : DataFrame) (st : AuditResults * nat) :
  audit_typed parse_datetime epoch_datetime df →
  ∃ st', audit_speed_limits df st = Ok st'.
Proof.
  intros (_ & _ & Hspeed). destruct st as [r k]. unfold audit_speed_limits.
  destruct (has_column df "Speed Limit") eqn:Hc; [| eauto].
  rewrite (has_column_get _ _ Hc). cbn [mbind result_mbind result_bind].
  unfold has_column in Hc. unfold column_or_empty, series_lt.
  destruct (assoc "Speed Limit" (columns df)) as [s|] eqn:Es; [| discriminate].
  change (default [] (Some s)) with s.
  destruct (cmp_num_numeric (λ q x, Qltb q x) 0%Q s (Hspeed s eq_refl)) as (mask & ->).
  cbn [mbind result_mbind result_bind]. destruct (0 <? _)%nat; eauto.
Qed.

(** On a non-empty frame whose wired columns hold what the checks expect,
    the audit returns a report. *)
Lemma run_audit_returns (current_year : Z) (now : Timestamp) (df : DataFrame) :
  df_empty df = false →
  audit_typed parse_datetime epoch_datetime df →
  ∃ r, run_audit parse_datetime epoch_datetime current_year now df = Ok r.
Proof.
  intros Hne Ht. unfold run_audit. rewrite Hne.
  destruct (audit_timeliness_returns df (mkAuditResults [] ∅ [] "N/A" None) Ht)
    as [r0 ->].
  cbn [mbind result_mbind result_bind].
  rewrite column_names_looked_up, audit_loop by (intros; now apply looked_up_get).
  cbn [mbind result_mbind result_bind].
  match goal with
  | |- context [audit_consistency df (nrows df) ?r] =>
      destruct (audit_consistency_returns df (nrows df) r) as [r1 H1]
  end.
  rewrite H1. apply audit_consistency_inv in H1 as ->.
  cbn [mbind result_mbind result_bind].
  match goal with
  | |- context [audit_future_dates _ _ now df ?st] =>
      destruct (audit_future_dates_returns now df st Ht) as [[r2 k2] H2]
  end.
  rewrite H2. cbn [mbind result_mbind result_bind].
  destruct (audit_vehicle_years_returns current_year df (r2, k2) Ht) as [[r3 k3] H3].
  rewrite H3. cbn [mbind result_mbind result_bind].
  destruct (audit_speed_limits_returns df (r3, k3) Ht) as [[r4 k4] H4].
  rewrite H4. cbn [mbind result_mbind result_bind].
  apply audit_future_dates_inv in H2. destruct H2 as [-> ->].
  apply audit_vehicle_years_inv in H3. destruct H3 as [-> ->].
  apply audit_speed_limits_inv in H4. destruct H4 as [-> ->].
  unfold get_score.
  cbn [scores set_score with_findings set_latest_date column_stats summary
       latest_date health_score].
  repeat (rewrite ?lookup_insert_ne, ?lookup_insert_eq by done;
          cbn [mbind result_mbind result_bind]).
  eauto.
Qed.
End AuditReturns.

(** ** The theorems at the sample data *)

Lemma sample_df_wf : df_wf sample_df.
Proof.
  split.
  - apply (bool_decide_unpack _). vm_compute. reflexivity.
  - repeat constructor.
Defined.

Lemma worse_df_wf : df_wf worse_df.
Proof.
  split.
  - apply (bool_decide_unpack _). vm_compute. reflexivity.
  - repeat constructor.
Defined.

Lemma sample_report_ok :
  run_audit no_parser no_epoch 2025 sample_now sample_df = Ok sample_report.
Proof. vm_compute. reflexivity. Defined.

Lemma worse_report_ok :
  run_audit no_parser no_epoch 2025 sample_now worse_df = Ok worse_report.
Proof. vm_compute. reflexivity. Defined.

Lemma keyless_report_ok :
  run_audit no_parser no_epoch 2025 sample_now keyless_df = Ok keyless_report.
Proof. vm_compute. reflexivity. Defined.

Lemma health_score_is_mean_of_three_scores_witness :
  df_empty sample_df = false ∧
  run_audit no_parser no_epoch 2025 sample_now sample_df = Ok sample_report ∧
  ∃ c s a h : Q,
    scores sample_report !! "completeness" = Some c ∧
    scores sample_report !! "consistency" = Some s ∧
    scores sample_report !! "accuracy" = Some a ∧
    health_score sample_report = Some h ∧
    (h == mean [c; s; a])%Q ∧
    ∀ current_year' now' df' r',
      df_empty df' = false →
      run_audit no_parser no_epoch current_year' now' df' = Ok r' →
      scores r' = scores sample_report →
      health_score r' = health_score sample_report.
Proof.
  split; [reflexivity |]. split; [exact sample_report_ok |].
  exact (health_score_is_mean_of_three_scores no_parser no_epoch 2025 sample_now
           sample_df sample_report eq_refl sample_report_ok).
Defined.

Lemma empty_table_report_witness :
  (nrows no_rows_df = 0%nat ∨ columns no_rows_df = []) ∧
  ∃ r,
    run_audit no_parser no_epoch 2025 sample_now no_rows_df = Ok r ∧
    column_stats r = [] ∧ scores r = ∅ ∧ summary r = [] ∧
    latest_date r = "N/A" ∧ health_score r = None.
Proof.
  split; [left; reflexivity |].
  exact (empty_table_report no_parser no_epoch 2025 sample_now no_rows_df
           (or_introl eq_refl)).
Defined.

(** C2, as stated, fails: the report of an empty table has no
    [health_score] entry. *)
Lemma empty_table_has_no_health_score :
  df_empty no_rows_df = true ∧
  ∃ r,
    run_audit no_parser no_epoch 2025 sample_now no_rows_df = Ok r ∧
    health_score r = None.
Proof.
  split; [reflexivity |]. eexists. split; reflexivity.
Qed.

Lemma consistency_score_counts_duplicates_witness :
  let s := [Str "R1"; Str "R2"; Str "R2"; Str "R3"] in
  (df_empty sample_df = false ∧
   run_audit no_parser no_epoch 2025 sample_now sample_df = Ok sample_report ∧
   assoc primary_key (columns sample_df) = Some s ∧
   duplicate_rows s 1) ∧
  (∃ c : Q,
     scores sample_report !! "consistency" = Some c ∧
     c = consistency_binary64 1 (nrows sample_df) ∧
     ((1 <= nrows sample_df)%nat →
      (Qabs (c - 100 * (1 - Qnat 1 / Qnat (nrows sample_df)))
       <= 1 # 10000000000000)%Q) ∧
     (1%nat = 0%nat → c = 100%Q) ∧
     (In (duplicate_msg 1) (summary sample_report) ↔ (0 < 1)%nat) ∧
     filter (λ m, consistency_finding m = true) (summary sample_report) =
       finding_if 1 (duplicate_msg 1)) ∧
  (df_empty keyless_df = false ∧
   run_audit no_parser no_epoch 2025 sample_now keyless_df = Ok keyless_report ∧
   assoc primary_key (columns keyless_df) = None) ∧
  (∃ c : Q, scores keyless_report !! "consistency" = Some c ∧ (c == 100)%Q).
Proof.
  cbv zeta.
  assert (Hdup : duplicate_rows [Str "R1"; Str "R2"; Str "R2"; Str "R3"] 1)
    by exact (duplicated_counts [Str "R1"; Str "R2"; Str "R2"; Str "R3"]).
  split; [split; [reflexivity | split; [exact sample_report_ok | split;
            [reflexivity | exact Hdup]]] |].
  split.
  - exact (proj1 (consistency_score_counts_duplicates no_parser no_epoch 2025
                    sample_now sample_df sample_report eq_refl sample_report_ok)
                 _ 1%nat eq_refl Hdup).
  - split; [split; [reflexivity | split; [exact keyless_report_ok | reflexivity]] |].
    exact (proj2 (consistency_score_counts_duplicates no_parser no_epoch 2025
                    sample_now keyless_df keyless_report eq_refl keyless_report_ok)
                 eq_refl).
Defined.

(** C3, as stated, fails: with two of three rows repeating the key, the
    score is the float 33.33333333333334 (the nearest to 100 - 66.666...67),
    which is neither the number [100 * (1 - 2/3)] nor the float that
    Python computes for [100 * (1 - 2/3)], 33.33333333333333. *)
Lemma consistency_score_is_a_rounded_difference :
  df_empty repeated_df = false ∧
  run_audit no_parser no_epoch 2025 sample_now repeated_df = Ok repeated_report ∧
  assoc primary_key (columns repeated_df) = Some [Str "R1"; Str "R1"; Str "R1"] ∧
  duplicate_rows [Str "R1"; Str "R1"; Str "R1"] 2 ∧
  ∃ c : Q,
    scores repeated_report !! "consistency" = Some c ∧
    float_value (kernel_consistency 2 3) = Some c ∧
    ¬ (c == 100 * (1 - Qnat 2 / Qnat 3))%Q ∧
    c ≠ claimed_consistency_binary64 2 3 ∧
    (claimed_consistency_binary64 2 3 < c)%Q.
Proof.
  split; [reflexivity |]. split; [vm_compute; reflexivity |].
  split; [reflexivity |].
  split; [exact (duplicated_counts [Str "R1"; Str "R1"; Str "R1"]) |].
  eexists. split; [vm_compute; reflexivity |].
  split; [vm_compute; reflexivity |].
  split; [vm_compute; discriminate |].
  split; [vm_compute; discriminate |].
  vm_compute. reflexivity.
Qed.

Lemma accuracy_score_formula_witness :
  df_empty sample_df = false ∧
  run_audit no_parser no_epoch 2025 sample_now sample_df = Ok sample_report ∧
  let N := nrows sample_df in
  let F := future_dated no_parser no_epoch sample_now sample_df in
  let Y := invalid_years 2025 sample_df in
  let P := negative_speeds sample_df in
  let T := (F + Y + P)%nat in
  (∃ a : Q,
     scores sample_report !! "accuracy" = Some a ∧
     (a == Qmax 0 (100 * (1 - Qnat T / (Qnat N * 3))))%Q) ∧
  (has_column sample_df "Crash Date/Time" = false → F = 0%nat) ∧
  (has_column sample_df "Vehicle Year" = false → Y = 0%nat) ∧
  (has_column sample_df "Speed Limit" = false → P = 0%nat) ∧
  filter (λ m, accuracy_finding m = true) (summary sample_report) =
    finding_if F (future_msg F) ++ finding_if Y (years_msg Y 2025) ++
    finding_if P (speed_msg P).
Proof.
  split; [reflexivity |]. split; [exact sample_report_ok |].
  exact (accuracy_score_formula no_parser no_epoch 2025 sample_now sample_df
           sample_report eq_refl sample_report_ok).
Defined.

Lemma accuracy_score_strictly_decreasing_witness :
  (df_wf sample_df ∧ df_wf worse_df ∧
   df_empty sample_df = false ∧ df_empty worse_df = false ∧
   nrows sample_df = nrows worse_df ∧
   run_audit no_parser no_epoch 2025 sample_now sample_df = Ok sample_report ∧
   run_audit no_parser no_epoch 2025 sample_now worse_df = Ok worse_report ∧
   (accuracy_issue_total no_parser no_epoch 2025 sample_now sample_df <
    accuracy_issue_total no_parser no_epoch 2025 sample_now worse_df)%nat ∧
   scores sample_report !! "accuracy" = Some (900 # 12) ∧
   scores worse_report !! "accuracy" = Some (800 # 12)) ∧
  (800 # 12 < 900 # 12)%Q.
Proof.
  assert (HT : (accuracy_issue_total no_parser no_epoch 2025 sample_now sample_df <
                accuracy_issue_total no_parser no_epoch 2025 sample_now worse_df)%nat)
    by (vm_compute; constructor).
  split.
  - exact (conj sample_df_wf (conj worse_df_wf (conj eq_refl (conj eq_refl
             (conj eq_refl (conj sample_report_ok (conj worse_report_ok
             (conj HT (conj eq_refl eq_refl))))))))).
  - exact (accuracy_score_strictly_decreasing no_parser no_epoch 2025 sample_now
             sample_df worse_df sample_report worse_report (900 # 12) (800 # 12)
             sample_df_wf worse_df_wf eq_refl eq_refl eq_refl
             sample_report_ok worse_report_ok HT eq_refl eq_refl).
Defined.

Lemma completeness_statuses_and_score_witness :
  df_wf sample_df ∧
  df_empty sample_df = false ∧
  run_audit no_parser no_epoch 2025 sample_now sample_df = Ok sample_report ∧
  let N := nrows sample_df in
  Forall2
    (λ (c : string * Series) (st : ColumnStat),
       let pct := missing_pct N (snd c) in
       let printed := printed_pct N (snd c) in
       let critical := In (fst c) key_fields ∧ (1 < pct)%Q in
       cs_column_name st = fst c ∧
       cs_pct_missing st = (fmt_2f printed ++ "%")%string ∧
       (Qabs (printed - pct) <= 4 # 100000000000000)%Q ∧
       ((Z.of_nat N <= 10000000000000)%Z →
        ((1 < printed)%Q ↔ (1 < pct)%Q) ∧ ((10 < printed)%Q ↔ (10 < pct)%Q)) ∧
       (cs_status st = "Critical" ↔ critical) ∧
       (cs_status st = "Warning" ↔ ¬ critical ∧ (10 < pct)%Q) ∧
       (cs_status st = "Valid" ↔ ¬ critical ∧ ¬ (10 < pct)%Q))
    (columns sample_df) (column_stats sample_report) ∧
  (∀ c, is_critical N c = true ↔
        In (fst c) key_fields ∧ (1 < missing_pct N (snd c))%Q) ∧
  filter (λ m, completeness_finding m = true) (summary sample_report) =
    map (λ c, key_field_msg (fst c) (printed_pct N (snd c)))
        (filter (λ c, is_critical N c = true) (columns sample_df)) ∧
  ∃ c : Q,
    scores sample_report !! "completeness" = Some c ∧
    (c == mean (map (λ c, 100 - missing_pct N (snd c)) (columns sample_df)))%Q.
Proof.
  split; [exact sample_df_wf |]. split; [reflexivity |].
  split; [exact sample_report_ok |].
  exact (completeness_statuses_and_score no_parser no_epoch 2025 sample_now
           sample_df sample_report sample_df_wf eq_refl sample_report_ok).
Defined.

Lemma cross_field_finding_is_not_scored_witness :
  (has_column sample_df "Crash Date/Time" = true ∧
   has_column sample_df "Vehicle Year" = true) ∧
  let n := implausible_rows sample_df in
  let dates := column_or_empty sample_df "Crash Date/Time" in
  (∀ c, check_consistency false sample_df = Ok c →
        issues c = finding_if n (inconsistent_msg n) ∧
        (status c = "Pass" ↔ n = 0%nat)) ∧
  ((if forallb is_na dates then false else forallb is_temporal dates) = true →
   forallb is_numeric (column_or_empty sample_df "Vehicle Year") = true →
   ∃ c, check_consistency false sample_df = Ok c) ∧
  ∀ parse_datetime epoch_datetime current_year now df' r r',
    df_empty sample_df = false → df_empty df' = false →
    nrows df' = nrows sample_df →
    assoc primary_key (columns df') = assoc primary_key (columns sample_df) →
    run_audit parse_datetime epoch_datetime current_year now sample_df = Ok r →
    run_audit parse_datetime epoch_datetime current_year now df' = Ok r' →
    scores r' !! "consistency" = scores r !! "consistency".
Proof.
  split; [split; reflexivity |].
  exact (cross_field_finding_is_not_scored false sample_df eq_refl eq_refl).
Defined.



Lemma impute_unknown_strategy_witness :
  (has_column sample_df "Speed Limit" = true ∧
   ¬ In "Interpolate" ["Mean"; "Median"; "Mode"; "Drop"]) ∧
  impute_column plain_str left_to_right_mean sample_df "Speed Limit" "Interpolate"
    = Ok (sample_df, "").
Proof.
  assert (Hstr : ¬ In "Interpolate" ["Mean"; "Median"; "Mode"; "Drop"])
    by (intros [H | [H | [H | [H | []]]]]; discriminate H).
  split; [split; [reflexivity | exact Hstr] |].
  exact (impute_unknown_strategy plain_str left_to_right_mean sample_df
           "Speed Limit" "Interpolate" eq_refl Hstr).
Defined.

Lemma engine_leaves_caller_frame_unchanged_witness :
  let h : gmap positive DataFrame := {[ 1%positive := sample_df ]} in
  h !! 1%positive = Some sample_df ∧
  ∃ h0 self,
    engine_init h 1%positive = Ok (h0, self) ∧
    self_df self ≠ 1%positive ∧
    ∀ ops : list (Timestamp * op),
      let h' := fst (fst (run_ops plain_str false ops (h0, self))) in
      h' !! 1%positive = Some sample_df ∧
      ∀ l', l' ∈ dom h → h' !! l' = h !! l'.
Proof.
  cbv zeta. split; [reflexivity |].
  exact (engine_leaves_caller_frame_unchanged plain_str false
           {[ 1%positive := sample_df ]} 1%positive sample_df eq_refl).
Defined.

(** * Further properties *)

(** ** Selecting rows and assigning columns *)

Lemma count_true_negb (mask : list bool) :
  (count_true (map negb mask) + count_true mask = length mask)%nat.
Proof.
  induction mask as [|b mask IH]; [reflexivity |].
  cbn [map length]. rewrite !count_true_cons. destruct b; cbn; lia.
Qed.

Lemma select_length (mask : list bool) (s : Series) :
  length s = length mask → length (select mask s) = count_true mask.
Proof.
  revert s. induction mask as [|b mask IH]; intros [|c s] Hlen;
    try discriminate; [reflexivity |].
  cbn [select]. rewrite count_true_cons. injection Hlen as Hlen.
  destruct b; cbn; rewrite IH by assumption; reflexivity.
Qed.

Lemma notna_mask_length (s : Series) : length (notna_mask s) = length s.
Proof. unfold notna_mask. apply length_map. Qed.

Lemma count_true_notna (s : Series) :
  (count_true (notna_mask s) + isnull_sum s = length s)%nat.
Proof.
  unfold notna_mask, isnull_sum. induction s as [|c s IH]; [reflexivity |].
  cbn [map length]. rewrite !count_true_cons. destruct c; cbn; lia.
Qed.

Lemma select_notna (s : Series) :
  select (notna_mask s) s = filter (λ c, is_na c = false) s.
Proof.
  unfold notna_mask. induction s as [|c s IH]; [reflexivity |].
  cbn [map select]. rewrite filter_cons, IH. now destruct c.
Qed.

Lemma isnull_sum_present (s : Series) :
  isnull_sum (filter (λ c, is_na c = false) s) = 0%nat.
Proof.
  unfold isnull_sum. induction s as [|c s IH]; [reflexivity |].
  rewrite filter_cons. destruct c; cbn; try exact IH;
    rewrite count_true_cons; cbn; exact IH.
Qed.

Lemma assoc_select (mask : list bool) (col : string) (kvs : list (string * Series)) :
  assoc col (map (λ c, (fst c, select mask (snd c))) kvs) =
  select mask <$> assoc col kvs.
Proof.
  induction kvs as [|[k v] rest IH]; [reflexivity |].
  cbn. destruct (String.eqb col k); [reflexivity | exact IH].
Qed.

Lemma df_filter_wf (mask : list bool) (df : DataFrame) :
  df_wf df → length mask = nrows df → df_wf (df_filter mask df).
Proof.
  intros [Hnd Hlen] Hmask. split; cbn [df_filter columns nrows].
  - rewrite map_map. cbn. exact Hnd.
  - apply Forall_map. eapply Forall_impl; [exact Hlen |].
    intros [k v] Hv. cbn in *. apply select_length. congruence.
Qed.

Lemma assoc_set_names (k : string) (v : Series) (kvs : list (string * Series)) :
  map fst (assoc_set k v kvs) =
  if in_list k (map fst kvs) then map fst kvs else map fst kvs ++ [k].
Proof.
  unfold in_list. induction kvs as [|[k' v'] rest IH]; [reflexivity |].
  cbn. destruct (String.eqb_spec k k') as [-> | Hne]; cbn; [reflexivity |].
  rewrite IH. now destruct (existsb _ _).
Qed.

Lemma assoc_set_In (k : string) (v : Series) (kvs : list (string * Series))
    (c : string * Series) :
  In c (assoc_set k v kvs) → c = (k, v) ∨ In c kvs.
Proof.
  induction kvs as [|[k' v'] rest IH]; cbn.
  - intros [<- | []]. now left.
  - destruct (String.eqb k k'); cbn.
    + intros [<- | Hin]; [now left | right; now right].
    + intros [<- | Hin]; [right; now left |].
      destruct (IH Hin); [now left | right; now right].
Qed.

Lemma df_set_wf (df : DataFrame) (col : string) (s : Series) :
  df_wf df → length s = nrows df → df_wf (df_set df col s).
Proof.
  intros [Hnd Hlen] Hs. split; cbn [df_set columns nrows].
  - rewrite assoc_set_names. destruct (in_list col _) eqn:Hin; [exact Hnd |].
    apply NoDup_app. repeat split; [exact Hnd | | apply NoDup_singleton].
    intros x Hx Hx'. apply list_elem_of_singleton in Hx' as ->.
    apply list_elem_of_In, in_list_In in Hx. congruence.
  - apply Forall_forall. intros c Hc. apply list_elem_of_In, assoc_set_In in Hc.
    destruct Hc as [-> | Hc]; [exact Hs |].
    rewrite Forall_forall in Hlen. now apply Hlen, list_elem_of_In.
Qed.

Lemma fillna_length (val : cell) (s : Series) : length (fillna val s) = length s.
Proof. unfold fillna. apply length_map. Qed.

Lemma column_length (df : DataFrame) (col : string) (s : Series) :
  df_wf df → assoc col (columns df) = Some s → length s = nrows df.
Proof.
  intros [_ Hlen] Hs. apply assoc_Some_In in Hs.
  rewrite Forall_forall in Hlen. now apply list_elem_of_In, Hlen in Hs.
Qed.

(** ** More on [impute_column] *)

Lemma assoc_in_list (col : string) (kvs : list (string * Series)) (s : Series) :
  assoc col kvs = Some s → in_list col (map fst kvs) = true.
Proof.
  intros H. apply in_list_In. apply assoc_Some_In in H.
  change col with (fst (col, s)). now apply in_map.
Qed.

Lemma fillna_keeps_present (val : cell) (s : Series) :
  Forall2 (λ old new, is_na old = false → new = old) s (fillna val s).
Proof.
  unfold fillna. induction s as [|c s IH]; cbn; constructor; [| exact IH].
  now destruct c.
Qed.

Lemma cell_eqb_sym (a b : cell) : cell_eqb a b = cell_eqb b a.
Proof.
  apply eq_true_iff_eq. rewrite !cell_eqb_same_key.
  split; apply same_key_sym.
Qed.

Lemma same_key_trans (a b c : cell) : same_key a b → same_key b c → same_key a c.
Proof.
  destruct a, b, c; cbn; try tauto; try congruence.
  intros H1 H2. now rewrite H1.
Qed.

Lemma cell_eqb_trans (a b c : cell) :
  cell_eqb a b = true → cell_eqb b c = true → cell_eqb a c = true.
Proof. rewrite !cell_eqb_same_key. apply same_key_trans. Qed.

Lemma cell_eqb_congr (a b c : cell) :
  cell_eqb a b = true → cell_eqb a c = cell_eqb b c.
Proof.
  intros Hab. apply eq_true_iff_eq. split; intros H.
  - apply (cell_eqb_trans b a c); [now rewrite cell_eqb_sym | exact H].
  - now apply (cell_eqb_trans a b c).
Qed.

Lemma occurrences_congr (a b : cell) (s : Series) :
  cell_eqb a b = true → occurrences a s = occurrences b s.
Proof.
  intros Hab. unfold occurrences. f_equal. apply list_filter_iff.
  intros c. now rewrite (cell_eqb_congr a b c Hab).
Qed.

(** What the scan for the mode keeps true of its candidate. *)
Lemma mode_step_spec (s : Series) (best best' : option cell) (v : cell) :
  mode_step s best v = Ok best' →
  (∀ w, best = Some w → is_na w = false) →
  (∀ w, best' = Some w → is_na w = false ∧ (w = v ∨ best = Some w)) ∧
  (∀ c, mode_bound s best c → mode_bound s best' c) ∧
  mode_bound s best' v ∧
  (best' = None → best = None ∧ is_na v = true).
Proof.
  unfold mode_step, mode_bound. intros H Hgood.
  destruct (is_na v) eqn:Hv.
  { injection H as <-. split; [| split; [| split]].
    - intros w Hw. split; [now apply Hgood | now right].
    - auto.
    - now left.
    - auto. }
  destruct best as [w|].
  - pose proof (Hgood w eq_refl) as Hw.
    destruct (cell_eqb v w) eqn:Hvw.
    { injection H as <-. split; [| split; [| split]].
      - intros w' [= <-]. split; [assumption | now right].
      - auto.
      - right. exists w. split; [reflexivity |].
        now rewrite (occurrences_congr v w s Hvw).
      - discriminate. }
    bind_inv H.
    destruct ((occurrences w s <? occurrences v s)%nat ||
              ((occurrences v s =? occurrences w s)%nat && a)) eqn:Hb;
      injection H as <-; (split; [| split; [| split]]); try discriminate.
    + intros w' [= <-]. split; [assumption | now left].
    + intros c [Hc | (w' & [= <-] & Hle)]; [now left |].
      right. exists v. split; [reflexivity |].
      apply orb_true_iff in Hb as [Hb | Hb].
      * apply Nat.ltb_lt in Hb. lia.
      * apply andb_true_iff in Hb as [Hb _]. apply Nat.eqb_eq in Hb. lia.
    + right. eauto.
    + intros w' [= <-]. split; [assumption | now right].
    + auto.
    + right. exists w. split; [reflexivity |].
      apply orb_false_iff in Hb as [Hb _]. apply Nat.ltb_ge in Hb. exact Hb.
  - injection H as <-. split; [| split; [| split]]; try discriminate.
    + intros w' [= <-]. split; [assumption | now left].
    + intros c [Hc | (w' & [=] & _)]. now left.
    + right. eauto.
Qed.

Lemma mode_scan_spec (s : Series) (l : Series) :
  ∀ best best',
    foldR (mode_step s) l best = Ok best' →
    (∀ w, best = Some w → is_na w = false) →
    (∀ w, best' = Some w → is_na w = false ∧ (In w l ∨ best = Some w)) ∧
    (∀ c, mode_bound s best c → mode_bound s best' c) ∧
    (∀ c, In c l → mode_bound s best' c) ∧
    (best' = None → best = None ∧ ∀ c, In c l → is_na c = true).
Proof.
  induction l as [|v l IH]; intros best best' H Hgood.
  - injection H as <-. repeat split; auto; try tauto.
    intros c [].
  - cbn [foldR] in H. bind_inv H.
    destruct (mode_step_spec s best a v E Hgood) as (Hg1 & Hb1 & Hv1 & Hn1).
    destruct (IH a best' H) as (Hg2 & Hb2 & Hl2 & Hn2).
    { intros w Hw. now apply Hg1. }
    split; [| split; [| split]].
    + intros w Hw. destruct (Hg2 w Hw) as [Hna [Hin | Ha]].
      * split; [assumption | left; now right].
      * split; [assumption |].
        destruct (Hg1 w Ha) as [_ [-> | Hbest]]; [left; now left | now right].
    + intros c Hc. auto.
    + intros c [<- | Hin]; auto.
    + intros Hnone. destruct (Hn2 Hnone) as [-> Hall].
      destruct (Hn1 eq_refl) as [-> Hv]. split; [reflexivity |].
      intros c [<- | Hin]; auto.
Qed.

Section CleaningMoreProperties.
Variable py_str_num : Q → string.
Variable np_mean : list Q → option Q.

(** X1.  On a well-formed table, the Drop strategy removes exactly the rows
    in which the column is missing: the message states their number, the
    row count goes down by it, the column keeps its values in order with no
    missing cell, and the table stays well-formed. *)
Theorem impute_drop_removes_missing_rows
    (df : DataFrame) (col : string) (s : Series) :
  df_wf df →
  assoc col (columns df) = Some s →
  ∃ df',
    impute_column py_str_num np_mean df col "Drop" =
      Ok (df', ("Dropped " ++ str_of_nat (isnull_sum s) ++
                " rows with missing values in '" ++ col ++ "'")%string) ∧
    df_wf df' ∧
    (nrows df' + isnull_sum s = nrows df)%nat ∧
    assoc col (columns df') = Some (filter (λ c, is_na c = false) s) ∧
    isnull_sum (filter (λ c, is_na c = false) s) = 0%nat.
Proof.
  intros Hwf Hs. unfold impute_column, df_get. rewrite Hs.
  cbn [mbind result_mbind result_bind String.eqb Ascii.eqb Bool.eqb andb].
  pose proof (column_length df col s Hwf Hs) as Hlen.
  eexists. split; [reflexivity |]. repeat split.
  - apply df_filter_wf; [split; apply Hwf |]. now rewrite notna_mask_length.
  - apply df_filter_wf; [split; apply Hwf |]. now rewrite notna_mask_length.
  - cbn [df_filter nrows]. pose proof (count_true_notna s). lia.
  - cbn [df_filter columns]. rewrite assoc_select, Hs. cbn.
    now rewrite select_notna.
  - apply isnull_sum_present.
Qed.

(** X2.  The Mean, Median and Mode strategies only fill missing cells of
    the chosen column: whenever they return, the table has the same rows and
    column labels, every other column is as it was, every present cell of
    the column is as it was, and a well-formed table stays well-formed. *)
Theorem impute_fill_touches_only_missing_cells
    (df df' : DataFrame) (col strategy msg : string) (s : Series) :
  In strategy ["Mean"; "Median"; "Mode"] →
  assoc col (columns df) = Some s →
  impute_column py_str_num np_mean df col strategy = Ok (df', msg) →
  nrows df' = nrows df ∧
  map fst (columns df') = map fst (columns df) ∧
  (∀ other, other ≠ col → assoc other (columns df') = assoc other (columns df)) ∧
  (∃ s', assoc col (columns df') = Some s' ∧
         Forall2 (λ old new, is_na old = false → new = old) s s') ∧
  (df_wf df → df_wf df').
Proof.
  intros Hstr Hs H.
  assert (Hfill : ∃ val, df' = df_set df col (fillna val s)).
  { unfold impute_column, df_get in H. rewrite Hs in H.
    cbn [mbind result_mbind result_bind] in H.
    destruct Hstr as [<- | [<- | [<- | []]]];
      cbn [String.eqb Ascii.eqb Bool.eqb andb] in H.
    - do 2 bind_inv H. injection H as <- _. eauto.
    - do 2 bind_inv H. injection H as <- _. eauto.
    - bind_inv H. injection H as <- _. eauto. }
  destruct Hfill as [val ->]. cbn [df_set nrows columns].
  repeat split.
  - rewrite assoc_set_names. now rewrite (assoc_in_list col _ s Hs).
  - intros other Hne. now apply assoc_set_ne.
  - exists (fillna val s). split; [apply assoc_set_eq | apply fillna_keeps_present].
  - apply (df_set_wf df col (fillna val s)); [split; apply H0 |].
    rewrite fillna_length. now apply column_length with (col := col).
  - apply (df_set_wf df col (fillna val s)); [split; apply H0 |].
    rewrite fillna_length. now apply column_length with (col := col).
Qed.

(** X3.  The Mode strategy, whenever it returns, fills with a most
    frequent value of the column, or with the text ["N/A"] when the column
    has no value at all; either way no missing cell is left. *)
Theorem impute_mode_fills_with_most_frequent
    (df df' : DataFrame) (col msg : string) (s : Series) :
  assoc col (columns df) = Some s →
  impute_column py_str_num np_mean df col "Mode" = Ok (df', msg) →
  ∃ val,
    assoc col (columns df') = Some (fillna val s) ∧
    isnull_sum (fillna val s) = 0%nat ∧
    msg = ("Imputed '" ++ col ++ "' with Mode: " ++ py_str py_str_num val)%string ∧
    ((In val s ∧ is_na val = false ∧
      ∀ c, In c s → is_na c = false →
           (occurrences c s <= occurrences val s)%nat) ∨
     (val = Str "N/A" ∧ ∀ c, In c s → c = NA)).
Proof.
  intros Hs H. unfold impute_column, df_get in H. rewrite Hs in H.
  cbn [mbind result_mbind result_bind String.eqb Ascii.eqb Bool.eqb andb] in H.
  bind_inv H. injection H as <- <-. exists a.
  unfold mode_or_sentinel in E. bind_inv E.
  destruct (mode_scan_spec s s None a0 E0) as (Hgood & _ & Hbound & Hnone);
    [discriminate |].
  assert (Hna : is_na a = false).
  { destruct a0 as [w|]; injection E as <-; [| reflexivity].
    now destruct (Hgood w eq_refl). }
  split; [cbn [df_set columns]; apply assoc_set_eq |].
  split.
  { unfold isnull_sum, fillna. clear -Hna. induction s as [|c s IH]; [reflexivity |].
    cbn [map]. rewrite count_true_cons, IH. destruct c; cbn; try reflexivity.
    now rewrite Hna. }
  split; [reflexivity |].
  destruct a0 as [w|]; injection E as <-.
  - left. destruct (Hgood w eq_refl) as [_ [Hin | Hbad]]; [| discriminate].
    repeat split; try assumption.
    intros c Hc Hcna. destruct (Hbound c Hc) as [Hbad | (w' & [= <-] & Hle)];
      [congruence | exact Hle].
  - right. split; [reflexivity |]. intros c Hc.
    destruct (Hnone eq_refl) as [_ Hall]. specialize (Hall c Hc). now destruct c.
Qed.
End CleaningMoreProperties.

(** ** Keys, duplicates and transposition *)

Lemma key_eqb_refl (a : list cell) : key_eqb a a = true.
Proof.
  induction a as [|x a IH]; [reflexivity |]. cbn. rewrite IH, andb_true_r.
  apply cell_eqb_same_key. destruct x; cbn; auto. reflexivity.
Qed.

Lemma key_eqb_sym (a b : list cell) : key_eqb a b = key_eqb b a.
Proof.
  revert b. induction a as [|x a IH]; intros [|y b]; try reflexivity.
  cbn. now rewrite IH, cell_eqb_sym.
Qed.

Lemma key_eqb_trans (a b c : list cell) :
  key_eqb a b = true → key_eqb b c = true → key_eqb a c = true.
Proof.
  revert b c. induction a as [|x a IH]; intros [|y b] [|z c]; cbn;
    try discriminate; auto.
  rewrite !andb_true_iff. intros [Hxy Hab] [Hyz Hbc]. split.
  - now apply (cell_eqb_trans x y z).
  - now apply (IH b c).
Qed.

Lemma seen_congr (k j : list cell) (seen : list (list cell)) :
  key_eqb k j = true → existsb (key_eqb k) seen = existsb (key_eqb j) seen.
Proof.
  intros Hkj. induction seen as [|x seen IH]; [reflexivity |].
  cbn. rewrite IH. f_equal. apply eq_true_iff_eq. split; intros H.
  - apply (key_eqb_trans j k x); [now rewrite key_eqb_sym | exact H].
  - now apply (key_eqb_trans k j x).
Qed.

(** The marks depend on the keys seen only through what they match. *)
Lemma duplicated_keys_ext (keys : list (list cell)) :
  ∀ seen seen',
    (∀ k, existsb (key_eqb k) seen = existsb (key_eqb k) seen') →
    duplicated_keys seen keys = duplicated_keys seen' keys.
Proof.
  induction keys as [|k keys IH]; intros seen seen' H; [reflexivity |].
  cbn. rewrite (H k). f_equal. apply IH. intros j. cbn. now rewrite (H j).
Qed.

(** Among the rows that are kept, none is marked again. *)
Lemma kept_not_duplicated (keys : list (list cell)) :
  ∀ seen,
    Forall (λ b, b = false)
      (duplicated_keys seen
         (select_rows (map negb (duplicated_keys seen keys)) keys)).
Proof.
  induction keys as [|k keys IH]; intros seen; [constructor |].
  cbn [duplicated_keys map select_rows].
  destruct (existsb (key_eqb k) seen) eqn:Hk; cbn [negb].
  - rewrite (duplicated_keys_ext _ seen (k :: seen)); [apply IH |].
    intros j. cbn. destruct (key_eqb j k) eqn:Hjk; [| reflexivity].
    cbn. now rewrite (seen_congr j k seen Hjk).
  - cbn [duplicated_keys]. rewrite Hk. constructor; [reflexivity | apply IH].
Qed.

(** Every key is the key of a kept row, unless it was seen before. *)
Lemma kept_covers (keys : list (list cell)) :
  ∀ seen k,
    In k keys →
    existsb (key_eqb k) seen = true ∨
    ∃ k', In k' (select_rows (map negb (duplicated_keys seen keys)) keys) ∧
          key_eqb k k' = true.
Proof.
  induction keys as [|k0 keys IH]; intros seen k Hin; [destruct Hin |].
  cbn [duplicated_keys map select_rows].
  destruct Hin as [-> | Hin].
  - destruct (existsb (key_eqb k) seen) eqn:Hk; [now left |].
    right. exists k. split; [now left | apply key_eqb_refl].
  - destruct (IH (k0 :: seen) k Hin) as [Hseen | (k' & Hk' & Heq)].
    + cbn in Hseen. apply orb_true_iff in Hseen as [Hk0 | Hseen]; [| now left].
      destruct (existsb (key_eqb k0) seen) eqn:Hk0seen.
      * left. now rewrite (seen_congr k k0 seen Hk0).
      * right. exists k0. split; [now left | exact Hk0].
    + right. exists k'. split; [| exact Heq].
      destruct (existsb (key_eqb k0) seen); cbn [negb]; [exact Hk' | now right].
Qed.

Lemma count_true_all_false (bs : list bool) :
  Forall (λ b, b = false) bs → count_true bs = 0%nat.
Proof.
  induction 1 as [|b bs -> _ IH]; [reflexivity |].
  now rewrite count_true_cons, IH.
Qed.

Lemma duplicated_keys_length (keys seen : list (list cell)) :
  length (duplicated_keys seen keys) = length keys.
Proof.
  revert seen. induction keys as [|k keys IH]; intros seen; [reflexivity |].
  cbn. now rewrite IH.
Qed.

Lemma select_is_select_rows (mask : list bool) (s : Series) :
  select mask s = select_rows mask s.
Proof.
  revert s. induction mask as [|b mask IH]; intros [|c s]; try reflexivity.
  cbn. rewrite IH. reflexivity.
Qed.

Lemma zip_with_nil_r {A B C} (f : A → B → C) (l : list A) : zip_with f l [] = [].
Proof. now destruct l. Qed.

Lemma select_rows_zip_with {A B C} (f : A → B → C) (mask : list bool) :
  ∀ (a : list A) (b : list B),
    select_rows mask (zip_with f a b) =
    zip_with f (select_rows mask a) (select_rows mask b).
Proof.
  induction mask as [|m mask IH]; intros [|x a] [|y b]; try reflexivity.
  - cbn. now rewrite zip_with_nil_r.
  - cbn. destruct m; cbn; now rewrite IH.
Qed.

Lemma select_rows_repeat {A} (x : A) (mask : list bool) :
  select_rows mask (repeat x (length mask)) = repeat x (count_true mask).
Proof.
  induction mask as [|b mask IH]; [reflexivity |].
  cbn [length repeat select_rows]. rewrite count_true_cons, IH. now destruct b.
Qed.

(** Selecting rows and reading across columns commute. *)
Lemma transpose_select (mask : list bool) (cols : list Series) :
  transpose (count_true mask) (map (select mask) cols) =
  select_rows mask (transpose (length mask) cols).
Proof.
  induction cols as [|c cols IH]; cbn [map transpose].
  - now rewrite select_rows_repeat.
  - now rewrite IH, select_rows_zip_with, select_is_select_rows.
Qed.

Lemma transpose_length (n : nat) (cols : list Series) :
  Forall (λ c, length c = n) cols → length (transpose n cols) = n.
Proof.
  induction 1 as [|c cols Hc _ IH]; cbn [transpose].
  - apply repeat_length.
  - rewrite length_zip_with, IH, Hc. lia.
Qed.

Lemma select_rows_all (l : list (list cell)) (mask : list bool) :
  Forall (λ b, b = false) mask → length mask = length l →
  select_rows (map negb mask) l = l.
Proof.
  intros H. revert l. induction H as [|b mask -> _ IH]; intros [|x l] Hlen;
    try discriminate; [reflexivity |].
  cbn. f_equal. apply IH. now injection Hlen.
Qed.

Lemma select_all (s : Series) (mask : list bool) :
  Forall (λ b, b = false) mask → length mask = length s →
  select (map negb mask) s = s.
Proof.
  intros H. revert s. induction H as [|b mask -> _ IH]; intros [|x l] Hlen;
    try discriminate; [reflexivity |].
  cbn. f_equal. apply IH. now injection Hlen.
Qed.

Lemma count_true_negb_all (mask : list bool) :
  Forall (λ b, b = false) mask → count_true (map negb mask) = length mask.
Proof.
  intros H. pose proof (count_true_negb mask).
  rewrite (count_true_all_false mask H) in *. lia.
Qed.

(** ** [get_metrics] and [drop_duplicates] *)

Lemma columns_lengths (df : DataFrame) (cols : list (string * Series)) :
  df_wf df → (∀ c, In c cols → In c (columns df)) →
  Forall (λ c, length c = nrows df) (map snd cols).
Proof.
  intros [_ Hlen] Hsub. apply Forall_map, Forall_forall. intros c Hc.
  rewrite Forall_forall in Hlen. apply Hlen, list_elem_of_In, Hsub.
  now apply list_elem_of_In.
Qed.

Lemma subset_columns_sub (subset : option (list string)) (df : DataFrame) :
  ∀ c, In c (subset_columns subset df) → In c (columns df).
Proof.
  intros c. destruct subset as [labels|]; cbn; [| auto].
  rewrite <- !list_elem_of_In, list_elem_of_filter. tauto.
Qed.

Lemma subset_keys_length (subset : option (list string)) (df : DataFrame) :
  df_wf df →
  length (transpose (nrows df) (map snd (subset_columns subset df))) = nrows df.
Proof.
  intros Hwf. apply transpose_length, columns_lengths; [exact Hwf |].
  apply subset_columns_sub.
Qed.

Lemma subset_columns_filter (subset : option (list string)) (mask : list bool)
    (df : DataFrame) :
  map snd (subset_columns subset (df_filter mask df)) =
  map (select mask) (map snd (subset_columns subset df)).
Proof.
  destruct subset as [labels|]; cbn [subset_columns df_filter columns].
  - induction (columns df) as [|[k v] rest IH]; [reflexivity |].
    cbn [map]. rewrite !filter_cons. cbn [fst].
    destruct (decide (in_list k labels = true)); cbn [map snd]; now rewrite IH.
  - now rewrite !map_map.
Qed.

Lemma has_column_filter (mask : list bool) (df : DataFrame) (col : string) :
  has_column (df_filter mask df) col = has_column df col.
Proof.
  unfold has_column. cbn [df_filter columns]. rewrite assoc_select.
  now destruct (assoc col (columns df)).
Qed.

(** The marks of a frame, and the frame of the rows that are not marked. *)
Lemma key_marks_length (subset : option (list string)) (df : DataFrame) :
  df_wf df → length (key_marks subset df) = nrows df.
Proof.
  intros Hwf. unfold key_marks.
  now rewrite duplicated_keys_length, subset_keys_length.
Qed.

Lemma df_duplicated_marks (subset : option (list string)) (df : DataFrame)
    (mask : list bool) :
  df_empty df = false → df_duplicated subset df = Ok mask →
  mask = key_marks subset df.
Proof.
  unfold df_duplicated, key_marks. intros -> H.
  destruct subset as [[|l labels]|]; [discriminate | |].
  - destruct (forallb _ _); [| discriminate]. now injection H.
  - now injection H.
Qed.

Lemma kept_marks (subset : option (list string)) (df : DataFrame) :
  df_wf df →
  Forall (λ b, b = false)
    (key_marks subset (df_filter (map negb (key_marks subset df)) df)).
Proof.
  intros Hwf. unfold key_marks at 1.
  rewrite subset_columns_filter. cbn [df_filter nrows].
  rewrite transpose_select, length_map, key_marks_length by assumption.
  apply kept_not_duplicated.
Qed.

Lemma df_filter_all (df : DataFrame) (mask : list bool) :
  df_wf df → Forall (λ b, b = false) mask → length mask = nrows df →
  df_filter (map negb mask) df = df.
Proof.
  intros [_ Hlen] Hall Hmask. destruct df as [n cols]. unfold df_filter.
  cbn [nrows columns] in *. f_equal.
  - rewrite count_true_negb_all by assumption. exact Hmask.
  - rewrite <- (map_id cols) at 2. apply map_ext_in. intros [k v] Hin. cbn.
    f_equal. apply select_all; [assumption |].
    rewrite Forall_forall in Hlen.
    apply list_elem_of_In, Hlen in Hin. cbn in Hin. congruence.
Qed.

Lemma df_drop_duplicates_inv (subset : option (list string)) (df df' : DataFrame) :
  df_drop_duplicates subset df = Ok df' →
  (df_empty df = true ∧ df' = df) ∨
  (df_empty df = false ∧ df_duplicated subset df = Ok (key_marks subset df) ∧
   df' = df_filter (map negb (key_marks subset df)) df).
Proof.
  unfold df_drop_duplicates. destruct (df_empty df) eqn:He.
  - intros [= <-]. now left.
  - intros H. bind_inv H. injection H as <-. right.
    pose proof (df_duplicated_marks subset df a He E) as ->.
    split; [reflexivity |]. split; [exact E | reflexivity].
Qed.

Lemma df_filter_nonempty (df : DataFrame) (mask : list bool) :
  df_empty df = false → df_empty (df_filter mask df) = (count_true mask =? 0)%nat.
Proof.
  unfold df_empty. cbn [df_filter nrows columns]. intros H.
  apply orb_false_iff in H as [_ Hc].
  destruct (columns df); [discriminate |]. cbn. apply orb_false_r.
Qed.

Lemma forallb_pointwise {A} (f g : A → bool) (l : list A) :
  (∀ x, f x = g x) → forallb f l = forallb g l.
Proof. intros H. induction l as [|x l IH]; cbn; [reflexivity | now rewrite H, IH]. Qed.

Section DuplicatesProperties.
Variable py_repr_str : string → string.

(** X4.  Dropping all duplicates of a well-formed table never raises and
    leaves a well-formed table without duplicate rows: the message states
    the [duplicate_count] that [get_metrics] showed before, the new
    [row_count] is lower by exactly that number, and the new
    [duplicate_count] is 0. *)
Theorem drop_duplicates_clears_duplicate_metric (df : DataFrame) :
  df_wf df →
  ∃ df' m m',
    get_metrics df = Ok m ∧
    drop_duplicates py_repr_str df None =
      Ok (df', ("Removed " ++ str_of_Z (Z.of_nat (duplicate_count m)) ++
                " duplicate rows")%string) ∧
    get_metrics df' = Ok m' ∧
    df_wf df' ∧
    duplicate_count m' = 0%nat ∧
    (row_count m' + duplicate_count m = row_count m)%nat.
Proof.
  intros Hwf.
  assert (Hmetrics : ∀ d mask, df_duplicated None d = Ok mask →
            get_metrics d =
            Ok (mkMetrics (nrows d)
                  (sum_list (map (λ c, isnull_sum (snd c)) (columns d)))
                  (count_true mask))).
  { intros d mask Hd. unfold get_metrics. now rewrite Hd. }
  destruct (df_empty df) eqn:He.
  - assert (Hd : df_duplicated None df = Ok []).
    { unfold df_duplicated. now rewrite He. }
    exists df, (mkMetrics (nrows df)
                  (sum_list (map (λ c, isnull_sum (snd c)) (columns df))) 0),
           (mkMetrics (nrows df)
                  (sum_list (map (λ c, isnull_sum (snd c)) (columns df))) 0).
    split; [exact (Hmetrics df [] Hd) |]. split.
    { unfold drop_duplicates, df_drop_duplicates. rewrite He.
      cbn [mbind result_mbind result_bind]. now rewrite Z.sub_diag. }
    split; [exact (Hmetrics df [] Hd) |]. cbn. repeat split; try apply Hwf. lia.
  - assert (Hd : df_duplicated None df = Ok (key_marks None df)).
    { unfold df_duplicated. now rewrite He. }
    pose proof (key_marks_length None df Hwf) as Hlen.
    pose proof (count_true_negb (key_marks None df)) as Hcount.
    set (df' := df_filter (map negb (key_marks None df)) df).
    assert (Hwf' : df_wf df').
    { apply df_filter_wf; [exact Hwf | now rewrite length_map]. }
    assert (Hd' : ∃ mask', df_duplicated None df' = Ok mask' ∧ count_true mask' = 0%nat).
    { unfold df_duplicated. destruct (df_empty df') eqn:He'.
      - exists []. split; reflexivity.
      - eexists. split; [reflexivity |].
        apply count_true_all_false. apply (kept_marks None df Hwf). }
    destruct Hd' as (mask' & Hm' & Hzero).
    assert (Hdropped : (Z.of_nat (nrows df) - Z.of_nat (nrows df'))%Z =
                       Z.of_nat (count_true (key_marks None df))).
    { subst df'. cbn [df_filter nrows]. lia. }
    exists df', (mkMetrics (nrows df)
                   (sum_list (map (λ c, isnull_sum (snd c)) (columns df)))
                   (count_true (key_marks None df))),
           (mkMetrics (nrows df')
                   (sum_list (map (λ c, isnull_sum (snd c)) (columns df')))
                   (count_true mask')).
    split; [now apply Hmetrics |]. split.
    { unfold drop_duplicates, df_drop_duplicates. rewrite He, Hd.
      cbn [mbind result_mbind result_bind]. fold df'. now rewrite Hdropped. }
    split; [now apply Hmetrics |]. cbn [duplicate_count row_count].
    split; [exact Hwf' |]. split; [exact Hzero |].
    subst df'. cbn [df_filter nrows]. lia.
Qed.

(** X5.  Dropping duplicates is idempotent on a well-formed table, on all
    columns or on a subset: a second call returns the same table and reports
    0 rows removed. *)
Theorem drop_duplicates_idempotent
    (df df' : DataFrame) (subset : option (list string)) (msg : string) :
  df_wf df →
  drop_duplicates py_repr_str df subset = Ok (df', msg) →
  ∃ msg',
    drop_duplicates py_repr_str df' subset = Ok (df', msg') ∧
    msg' = ("Removed 0 duplicate rows" ++
            match subset with
            | Some ((_ :: _) as labels) => " based on " ++ py_list_repr py_repr_str labels
            | _ => ""
            end)%string.
Proof.
  intros Hwf H. unfold drop_duplicates in H. bind_inv H.
  assert (Hdf' : df' = a) by (destruct subset as [[|l ls]|]; now injection H).
  subst a. clear H.
  assert (Hagain : df_drop_duplicates subset df' = Ok df').
  { destruct (df_drop_duplicates_inv subset df df' E) as [[He ->] | (He & Hd & ->)].
    - unfold df_drop_duplicates. now rewrite He.
    - set (mask := key_marks subset df) in *.
      assert (Hwf' : df_wf (df_filter (map negb mask) df)).
      { apply df_filter_wf; [exact Hwf |].
        subst mask. now rewrite length_map, key_marks_length. }
      unfold df_drop_duplicates.
      destruct (df_empty (df_filter (map negb mask) df)) eqn:He'; [reflexivity |].
      assert (Hd' : df_duplicated subset (df_filter (map negb mask) df) =
                    Ok (key_marks subset (df_filter (map negb mask) df))).
      { unfold df_duplicated in Hd |- *. rewrite He in Hd. rewrite He'.
        destruct subset as [[|l labels]|]; [discriminate | | reflexivity].
        replace (forallb (has_column (df_filter (map negb mask) df)) (l :: labels))
          with (forallb (has_column df) (l :: labels)).
        - destruct (forallb (has_column df) (l :: labels)); [reflexivity | discriminate].
        - apply forallb_pointwise. intros x. now rewrite has_column_filter. }
      rewrite Hd'. cbn [mbind result_mbind result_bind]. f_equal.
      apply df_filter_all; [exact Hwf' | apply (kept_marks subset df Hwf) |].
      now apply key_marks_length. }
  unfold drop_duplicates. rewrite Hagain. cbn [mbind result_mbind result_bind].
  rewrite Z.sub_diag.
  destruct subset as [[|l ls]|]; eexists; (split; reflexivity).
Qed.

(** X6.  Dropping duplicates keeps rows of the table, in their order, and
    loses no key: every row of the original has a row with the same key in
    the result. *)
Theorem drop_duplicates_keeps_every_key
    (df df' : DataFrame) (subset : option (list string)) (msg : string) :
  df_wf df →
  drop_duplicates py_repr_str df subset = Ok (df', msg) →
  (∃ mask, length mask = nrows df ∧ df' = df_filter mask df) ∧
  ∀ k, In k (transpose (nrows df) (map snd (subset_columns subset df))) →
       ∃ k', In k' (transpose (nrows df') (map snd (subset_columns subset df'))) ∧
             key_eqb k k' = true.
Proof.
  intros Hwf H. unfold drop_duplicates in H. bind_inv H.
  assert (Hdf' : df' = a) by (destruct subset as [[|l ls]|]; now injection H).
  subst a. clear H.
  destruct (df_drop_duplicates_inv subset df df' E) as [[He ->] | (He & Hd & ->)].
  - split.
    + exists (map negb (repeat false (nrows df))). split.
      * now rewrite length_map, repeat_length.
      * symmetry. apply df_filter_all; [exact Hwf | | apply repeat_length].
        apply Forall_forall. intros b Hb.
        apply list_elem_of_In in Hb. now apply repeat_spec in Hb.
    + intros k Hk. exists k. split; [exact Hk | apply key_eqb_refl].
  - split.
    + exists (map negb (key_marks subset df)). split; [| reflexivity].
      now rewrite length_map, key_marks_length.
    + intros k Hk. rewrite subset_columns_filter. cbn [df_filter nrows].
      rewrite transpose_select, length_map, key_marks_length by assumption.
      destruct (kept_covers _ [] k Hk) as [Hseen | Hkept]; [discriminate |].
      exact Hkept.
Qed.
End DuplicatesProperties.

(** ** [standardize_dates] *)

Lemma assoc_set_same (k : string) (v : Series) (kvs : list (string * Series)) :
  assoc k kvs = Some v → assoc_set k v kvs = kvs.
Proof.
  induction kvs as [|[k' v'] rest IH]; cbn; [discriminate |].
  destruct (String.eqb_spec k k') as [-> | Hne].
  - now intros [= ->].
  - intros H. now rewrite IH.
Qed.

Lemma string_app_assoc (a b c : string) :
  ((a ++ b) ++ c = a ++ (b ++ c))%string.
Proof.
  induction a as [|x a IH]; [reflexivity |].
  change (String x ((a ++ b) ++ c) = String x (a ++ (b ++ c)))%string.
  now rewrite IH.
Qed.

Section DatesProperties.
Variable parse_in : Series → string → option Timestamp.
Variable epoch_datetime : Q → option Timestamp.

Lemma coerce_temporal (s : Series) :
  forallb is_temporal (to_datetime_coerce parse_in epoch_datetime s) = true.
Proof.
  unfold to_datetime_coerce. generalize s at 1. intros ctx.
  induction s as [|c s IH]; [reflexivity |].
  cbn [map forallb]. rewrite IH, andb_true_r.
  destruct c; cbn; try reflexivity.
  - now destruct (epoch_datetime q).
  - now destruct (parse_in ctx s0).
Qed.

Lemma coerce_fixes_temporal (ctx s : Series) :
  forallb is_temporal s = true →
  map (coerce_cell parse_in epoch_datetime ctx) s = s.
Proof.
  induction s as [|c s IH]; [reflexivity |].
  cbn [forallb map]. rewrite andb_true_iff. intros [Hc Hs].
  rewrite (IH Hs). now destruct c.
Qed.

Lemma coerce_missing (s : Series) :
  isnull_sum (to_datetime_coerce parse_in epoch_datetime s) =
  (isnull_sum s + count_where (unreadable parse_in epoch_datetime s) s)%nat.
Proof.
  unfold to_datetime_coerce, isnull_sum, unreadable. generalize s at 1 4. intros ctx.
  induction s as [|c s IH]; [reflexivity |].
  cbn [map]. rewrite !count_true_cons, count_where_cons, IH.
  destruct c; cbn;
    try destruct (epoch_datetime q); try destruct (parse_in ctx s0); cbn; lia.
Qed.

(** X7.  On a column of the table, [standardize_dates] never raises.  The
    column afterwards holds timestamps and missing cells only, the cells
    that went missing are exactly those that held something unreadable, and
    the message carries the note with their number when there are any and
    no note otherwise.  Other columns and the row count are untouched. *)
Theorem standardize_dates_counts_unreadable
    (df : DataFrame) (col : string) (s : Series) :
  assoc col (columns df) = Some s →
  let failed := count_where (unreadable parse_in epoch_datetime s) s in
  let s' := to_datetime_coerce parse_in epoch_datetime s in
  ∃ df',
    standardize_dates parse_in epoch_datetime df col =
      Ok (df',
          ("Standardized '" ++ col ++ "' to datetime." ++
           if (0 <? failed)%nat then
             " (Note: " ++ str_of_Z (Z.of_nat failed) ++
             " values failed to parse and were set to NaT)"
           else "")%string) ∧
    assoc col (columns df') = Some s' ∧
    forallb is_temporal s' = true ∧
    isnull_sum s' = (isnull_sum s + failed)%nat ∧
    nrows df' = nrows df ∧
    (∀ other, other ≠ col → assoc other (columns df') = assoc other (columns df)) ∧
    (df_wf df → df_wf df').
Proof.
  intros Hs. cbv zeta. unfold standardize_dates, df_get. rewrite Hs.
  cbn [mbind result_mbind result_bind df_set columns].
  rewrite assoc_set_eq. cbn [mbind result_mbind result_bind].
  rewrite coerce_missing.
  replace (Z.of_nat (isnull_sum s + count_where (unreadable parse_in epoch_datetime s) s) -
           Z.of_nat (isnull_sum s))%Z
    with (Z.of_nat (count_where (unreadable parse_in epoch_datetime s) s)) by lia.
  exists (df_set df col (to_datetime_coerce parse_in epoch_datetime s)).
  split.
  { destruct (count_where (unreadable parse_in epoch_datetime s) s) as [|n] eqn:En.
    - reflexivity.
    - replace (0 <? Z.of_nat (S n))%Z with true by (symmetry; apply Z.ltb_lt; lia).
      cbn [Nat.ltb Nat.leb]. do 2 f_equal.
      rewrite !string_app_assoc. reflexivity. }
  cbn [df_set columns nrows].
  split; [apply assoc_set_eq |]. split; [apply coerce_temporal |].
  split; [reflexivity |]. split; [reflexivity |].
  split; [intros other Hne; now apply assoc_set_ne |].
  intros Hwf. apply (df_set_wf df col); [exact Hwf |].
  unfold to_datetime_coerce. rewrite length_map.
  now apply column_length with (col := col).
Qed.

(** X8.  [standardize_dates] is idempotent: run again on its own result,
    it returns the same table and the message without a note. *)
Theorem standardize_dates_idempotent
    (df df' : DataFrame) (col msg : string) :
  standardize_dates parse_in epoch_datetime df col = Ok (df', msg) →
  standardize_dates parse_in epoch_datetime df' col =
    Ok (df', ("Standardized '" ++ col ++ "' to datetime.")%string).
Proof.
  intros H. unfold standardize_dates in H. bind_inv H.
  unfold df_get in E. destruct (assoc col (columns df)) as [s|] eqn:Hs;
    [| discriminate].
  injection E as <-. bind_inv H.
  assert (Hdf' : df' = df_set df col (to_datetime_coerce parse_in epoch_datetime s)).
  { destruct (0 <? _)%Z; now injection H. }
  clear H E. subst df'.
  set (s' := to_datetime_coerce parse_in epoch_datetime s).
  assert (Hs' : assoc col (columns (df_set df col s')) = Some s')
    by (cbn; apply assoc_set_eq).
  unfold standardize_dates, df_get. rewrite Hs'.
  cbn [mbind result_mbind result_bind].
  assert (Hfix : to_datetime_coerce parse_in epoch_datetime s' = s').
  { unfold to_datetime_coerce at 1. apply coerce_fixes_temporal.
    apply coerce_temporal. }
  rewrite Hfix.
  assert (Hsame : df_set (df_set df col s') col s' = df_set df col s').
  { unfold df_set. cbn [nrows columns]. f_equal.
    apply assoc_set_same, assoc_set_eq. }
  rewrite Hsame, Hs'. cbn [mbind result_mbind result_bind].
  now rewrite Z.sub_diag.
Qed.

End DatesProperties.

(** ** The legacy completeness and accuracy checks *)

Lemma Qnat_mul (n m : nat) : (Qnat (n * m) == Qnat n * Qnat m)%Q.
Proof. unfold Qnat. rewrite Nat2Z.inj_mul, inject_Z_mult. reflexivity. Qed.

Lemma Qnat_S (n : nat) : (Qnat (S n) == Qnat n + 1)%Q.
Proof. unfold Qnat. rewrite Nat2Z.inj_succ, <- Z.add_1_r, inject_Z_plus. reflexivity. Qed.

Lemma Qsum_present (N : nat) (cols : list (string * Series)) :
  (Qsum (map (λ c, 100 - missing_pct N (snd c)) cols) ==
   100 * Qnat (length cols)
   - Qnat (sum_list (map (λ c, isnull_sum (snd c)) cols)) / Qnat N * 100)%Q.
Proof.
  induction cols as [|c cols IH].
  - cbn [map length sum_list]. unfold Qsum. cbn [foldr].
    change (Qnat 0) with 0%Q. unfold Qdiv. generalize (/ Qnat N)%Q. intros x. lra.
  - cbn [map length sum_list]. unfold Qsum in *. cbn [foldr].
    rewrite IH, Qnat_S, Qnat_add. unfold missing_pct, Qdiv.
    unfold id. generalize (/ Qnat N)%Q. intros x. ring.
Qed.

Lemma completeness_of_ratio (df : DataFrame) :
  (0 < nrows df)%nat → (0 < length (columns df))%nat →
  (completeness_of (nrows df) (columns df) ==
   (1 - Qnat (total_missing df) / Qnat (nrows df * length (columns df))) * 100)%Q.
Proof.
  intros HN HC. unfold completeness_of, total_missing.
  rewrite py_sum_Qsum, Qsum_present, Qnat_mul.
  pose proof (Qnat_pos _ HN). pose proof (Qnat_pos _ HC).
  field. split; intros Hz; rewrite Hz in *; now apply Qlt_irrefl with 0%Q.
Qed.

Lemma map_snd_null_counts (cols : list (string * Series)) :
  map snd (map (λ c, (fst c, isnull_sum (snd c))) cols) =
  map (λ c, isnull_sum (snd c)) cols.
Proof. now rewrite map_map. Qed.

Lemma total_missing_le (df : DataFrame) :
  df_wf df → (total_missing df <= nrows df * length (columns df))%nat.
Proof.
  intros [_ Hlen]. unfold total_missing.
  induction Hlen as [|c cols Hc _ IH]; cbn; [lia |].
  pose proof (isnull_sum_le (snd c)). lia.
Qed.

Lemma check_completeness_nonempty (df : DataFrame) :
  df_empty df = false →
  check_completeness df =
  Ok (mkCompleteness
        (Num ((1 - Qnat (total_missing df) /
                   Qnat (nrows df * length (columns df))) * 100)%Q)
        (positive_counts (map (λ c, (fst c, isnull_sum (snd c))) (columns df)))).
Proof.
  intros Hne. apply df_nonempty in Hne as [HN HC].
  unfold check_completeness. rewrite map_snd_null_counts. fold (total_missing df).
  destruct (nrows df * length (columns df))%nat eqn:E; [nia |]. reflexivity.
Qed.

(** Looking up the dictionary built from a list of distinct labels. *)
Lemma fold_insert_lookup (l : list (string * nat)) :
  ∀ (m : gmap string nat) (k : string) (v : nat),
    NoDup (map fst l) →
    fold_left (λ m p, <[fst p := snd p]> m) l m !! k = Some v ↔
    In (k, v) l ∨ (¬ In k (map fst l) ∧ m !! k = Some v).
Proof.
  induction l as [|[k0 v0] l IH]; intros m k v Hnd.
  - cbn. tauto.
  - apply NoDup_cons in Hnd as [Hk0 Hnd]. cbn [fold_left map fst snd].
    rewrite IH by assumption. cbn [In]. split.
    + intros [Hin | [Hnot Hm]]; [left; now right |].
      destruct (decide (k0 = k)) as [-> | Hne].
      * rewrite lookup_insert_eq in Hm. injection Hm as ->. left. now left.
      * rewrite lookup_insert_ne in Hm by assumption. right. split; [| exact Hm].
        intros [Heq | Hin]; [congruence | contradiction].
    + intros [[Heq | Hin] | [Hnot Hm]].
      * injection Heq as -> ->. right. split.
        -- intros Hin. apply Hk0. now apply list_elem_of_In.
        -- apply lookup_insert_eq.
      * now left.
      * right. split; [tauto |]. rewrite lookup_insert_ne; [exact Hm |].
        intros ->. tauto.
Qed.

Lemma positive_counts_lookup (cols : list (string * Series)) (k : string) (v : nat) :
  NoDup (map fst cols) →
  positive_counts (map (λ c, (fst c, isnull_sum (snd c))) cols) !! k = Some v ↔
  ∃ s, assoc k cols = Some s ∧ isnull_sum s = v ∧ (0 < v)%nat.
Proof.
  intros Hnd. unfold positive_counts.
  assert (Hsub : ∀ p, In p (filter (λ p : string * nat, (0 < snd p)%nat)
                              (map (λ c, (fst c, isnull_sum (snd c))) cols)) ↔
                      ∃ s, In (fst p, s) cols ∧ isnull_sum s = snd p ∧ (0 < snd p)%nat).
  { intros [k' v']. rewrite <- list_elem_of_In, list_elem_of_filter, list_elem_of_In.
    rewrite in_map_iff. cbn. split.
    - intros (Hpos & [k'' s] & [= -> <-] & Hin). eauto.
    - intros (s & Hin & <- & Hpos). split; [exact Hpos |]. exists (k', s). auto. }
  assert (Hnd' : NoDup (map fst (filter (λ p : string * nat, (0 < snd p)%nat)
                              (map (λ c, (fst c, isnull_sum (snd c))) cols)))).
  { clear Hsub. induction cols as [|[k' s'] cols IH]; [constructor |].
    cbn [map fst] in Hnd. inversion Hnd as [|? ? Hk' Hnd']; subst.
    specialize (IH Hnd'). cbn [map]. rewrite filter_cons.
    destruct (decide _); [| exact IH].
    cbn [map fst]. constructor; [| exact IH].
    intros Hin. apply Hk'. apply list_elem_of_In, in_map_iff in Hin as ([k'' v''] & Heq & Hin).
    cbn in Heq. subst k''. apply list_elem_of_In, list_elem_of_filter in Hin as [_ Hin].
    apply list_elem_of_In, in_map_iff in Hin as ([k3 s3] & [= -> _] & Hin).
    apply list_elem_of_In. change k' with (fst (k', s3)). now apply in_map. }
  rewrite fold_insert_lookup by assumption. rewrite lookup_empty. split.
  - intros [Hin | [_ Hbad]]; [| discriminate].
    apply Hsub in Hin as (s & Hin & Hv & Hpos). cbn in *.
    exists s. split; [now apply assoc_In | auto].
  - intros (s & Hs & Hv & Hpos). left. apply Hsub. cbn.
    exists s. split; [now apply assoc_Some_In | auto].
Qed.

Section LegacyAuditProperties.
Variable parse_datetime : string → option Timestamp.
Variable epoch_datetime : Q → option Timestamp.

(** X10.  On a well-formed non-empty table the legacy completeness ratio
    and the completeness score of [run_audit] are the same number: the mean
    of the per-column rates equals the overall share of present cells. *)
Theorem completeness_checks_agree
    (current_year : Z) (now : Timestamp) (df : DataFrame) (r : AuditResults) :
  df_wf df →
  df_empty df = false →
  run_audit parse_datetime epoch_datetime current_year now df = Ok r →
  ∃ c q q',
    check_completeness df = Ok c ∧ ratio c = Num q ∧
    scores r !! "completeness" = Some q' ∧ (q == q')%Q.
Proof.
  intros Hwf Hne H.
  pose proof (run_audit_inv _ _ _ _ _ _ Hne H) as [text ->].
  rewrite (check_completeness_nonempty df Hne).
  eexists _, _, _. split; [reflexivity |]. split; [reflexivity |].
  cbn [scores]. rewrite lookup_insert_eq. split; [reflexivity |].
  rewrite (looked_up_wf df Hwf).
  apply df_nonempty in Hne as [HN HC].
  symmetry. now apply completeness_of_ratio.
Qed.
End LegacyAuditProperties.

(** X11.  On a well-formed non-empty table the legacy completeness check
    returns a ratio between 0 and 100, and the ratio is 100 exactly when
    [missing_by_column] is empty. *)
Theorem completeness_ratio_range (df : DataFrame) :
  df_wf df →
  df_empty df = false →
  ∃ c q,
    check_completeness df = Ok c ∧ ratio c = Num q ∧
    (0 <= q <= 100)%Q ∧
    ((q == 100)%Q ↔ missing_by_column c = ∅).
Proof.
  intros Hwf Hne. rewrite (check_completeness_nonempty df Hne).
  eexists _, _. split; [reflexivity |]. split; [reflexivity |].
  cbn [missing_by_column].
  pose proof (total_missing_le df Hwf) as Hle.
  apply df_nonempty in Hne as [HN HC].
  set (T := total_missing df) in *.
  set (D := (nrows df * length (columns df))%nat) in *.
  assert (HD : (0 < Qnat D)%Q) by (apply Qnat_pos; subst D; nia).
  assert (Hu0 : (0 <= Qnat T / Qnat D)%Q).
  { apply Qle_shift_div_l; [exact HD |]. rewrite Qmult_0_l. apply Qnat_nonneg. }
  assert (Hu1 : (Qnat T / Qnat D <= 1)%Q).
  { apply Qle_shift_div_r; [exact HD |]. rewrite Qmult_1_l. now apply Qnat_le. }
  split; [split; lra |].
  assert (HT : (Qnat T / Qnat D == 0)%Q ↔ T = 0%nat).
  { split.
    - intros Hz. destruct T as [|n]; [reflexivity |]. exfalso.
      assert ((0 < Qnat (S n) / Qnat D)%Q).
      { apply Qlt_shift_div_l; [exact HD |]. rewrite Qmult_0_l. apply Qnat_pos. lia. }
      lra.
    - intros ->. unfold Qdiv, Qnat. cbn. ring. }
  assert (Hmap : positive_counts (map (λ c, (fst c, isnull_sum (snd c))) (columns df)) = ∅
                 ↔ T = 0%nat).
  { subst T. unfold total_missing. destruct Hwf as [Hnd _]. split.
    - intros Hempty.
      assert (Hall : ∀ c, In c (columns df) → isnull_sum (snd c) = 0%nat).
      { intros [k s] Hin. cbn [snd]. destruct (isnull_sum s) as [|n] eqn:En; [reflexivity |].
        exfalso.
        assert (Hl : positive_counts (map (λ c, (fst c, isnull_sum (snd c))) (columns df))
                       !! k = Some (S n)).
        { apply positive_counts_lookup; [exact Hnd |]. exists s.
          split; [now apply assoc_In | split; [exact En | lia]]. }
        rewrite Hempty, lookup_empty in Hl. discriminate. }
      clear -Hall. induction (columns df) as [|c cols IH]; [reflexivity |].
      change (isnull_sum (snd c) + sum_list (map (λ c, isnull_sum (snd c)) cols) = 0)%nat.
      rewrite (Hall c) by now left. apply IH. intros; apply Hall; now right.
    - intros Hsum. apply map_eq. intros k. rewrite lookup_empty.
      destruct (positive_counts _ !! k) as [v|] eqn:Hk; [| reflexivity].
      exfalso. apply positive_counts_lookup in Hk as (s & Hs & Hv & Hpos);
        [| exact Hnd].
      apply assoc_Some_In in Hs.
      assert (Hge : (isnull_sum s <=
                     sum_list (map (λ c, isnull_sum (snd c)) (columns df)))%nat).
      { clear -Hs. induction (columns df) as [|c cols IH]; [destruct Hs |].
        change (isnull_sum s <= isnull_sum (snd c) +
                  sum_list (map (λ c, isnull_sum (snd c)) cols))%nat.
        destruct Hs as [-> | Hin]; [cbn [snd]; lia |]. specialize (IH Hin). lia. }
      lia. }
  rewrite Hmap, <- HT. split; intros Heq; lra.
Qed.

(** X12.  On a well-formed table, [missing_by_column] maps a label to a
    count exactly when it is a column with that many missing cells, and the
    count is positive; columns without a missing cell are left out. *)
Theorem missing_by_column_lists_incomplete_columns
    (df : DataFrame) (c : Completeness) (col : string) (k : nat) :
  df_wf df →
  check_completeness df = Ok c →
  missing_by_column c !! col = Some k ↔
  ∃ s, assoc col (columns df) = Some s ∧ isnull_sum s = k ∧ (0 < k)%nat.
Proof.
  intros [Hnd _] H. unfold check_completeness in H. bind_inv H.
  injection H as <-. cbn [missing_by_column].
  now apply positive_counts_lookup.
Qed.

(** ** The legacy accuracy check *)

Lemma mapR_cmp_num (op : Q → Q → bool) (x : Q) (s : Series) (mask : list bool) :
  mapR (cmp_num op x) s = Ok mask →
  mask = map (λ c, match c with Num q => op q x | _ => false end) s ∧
  forallb is_numeric s = true.
Proof.
  revert mask. induction s as [|c s IH]; intros mask H.
  - now injection H as <-.
  - cbn [mapR] in H. do 2 bind_inv H. injection H as <-.
    destruct (IH _ E0) as [-> Hnum]. cbn [map forallb]. rewrite Hnum.
    destruct c; cbn in E; try discriminate; injection E as <-; auto.
Qed.

Lemma out_of_range_mask (lo hi : Q) (s : Series) (mask : list bool) :
  out_of_range lo hi s = Ok mask → mask = map (outside lo hi) s.
Proof.
  unfold out_of_range, series_lt, series_gt. intros H. do 2 bind_inv H.
  injection H as <-.
  apply mapR_cmp_num in E as [-> _]. apply mapR_cmp_num in E0 as [-> _].
  induction s as [|c s IH]; [reflexivity |].
  cbn [map zip_with]. rewrite IH. f_equal. now destruct c.
Qed.

Lemma out_of_range_numeric (lo hi : Q) (s : Series) (mask : list bool) :
  out_of_range lo hi s = Ok mask → forallb is_numeric s = true.
Proof.
  unfold out_of_range, series_lt. intros H. bind_inv H.
  now apply mapR_cmp_num in E as [_ Hnum].
Qed.

Lemma out_of_range_returns (lo hi : Q) (s : Series) :
  forallb is_numeric s = true → ∃ mask, out_of_range lo hi s = Ok mask.
Proof.
  intros Hs. unfold out_of_range, series_lt, series_gt.
  destruct (cmp_num_numeric (λ q x, Qltb q x) lo s Hs) as (below & ->).
  destruct (cmp_num_numeric (λ q x, Qltb x q) hi s Hs) as (above & ->).
  cbn. eauto.
Qed.

Lemma count_true_map (P : cell → bool) (s : Series) :
  count_true (map P s) = count_where P s.
Proof.
  induction s as [|c s IH]; [reflexivity |].
  cbn [map]. now rewrite count_true_cons, count_where_cons, IH.
Qed.

Lemma count_true_pairs (P R : cell → bool) (s t : Series) :
  count_true (zip_with orb (map P s) (map R t)) =
  length (filter (λ p, P (fst p) || R (snd p) = true) (zip s t)).
Proof.
  revert t. induction s as [|c s IH]; intros [|d t]; try reflexivity.
  cbn [map zip_with]. change (zip (c :: s) (d :: t)) with ((c, d) :: zip s t).
  rewrite count_true_cons, filter_cons, IH. cbn [fst snd].
  destruct (P c || R d); destruct (decide _); cbn; congruence.
Qed.

Lemma filtered_empty (mask : list bool) (df : DataFrame) (col : string) :
  has_column df col = true →
  negb (df_empty (df_filter mask df)) = (0 <? count_true mask)%nat.
Proof.
  unfold has_column, df_empty, df_filter. cbn [nrows columns].
  destruct (columns df) as [|c cols]; [discriminate |]. intros _.
  cbn [map]. rewrite orb_false_r. now destruct (count_true mask).
Qed.

Lemma column_or_empty_get (df : DataFrame) (col : string) (s : Series) :
  df_get df col = Ok s → column_or_empty df col = s.
Proof.
  unfold df_get, column_or_empty. destruct (assoc col (columns df)); [| discriminate].
  now intros [= ->].
Qed.

Lemma column_or_empty_absent (df : DataFrame) (col : string) :
  has_column df col = false → column_or_empty df col = [].
Proof.
  unfold has_column, column_or_empty. now destruct (assoc col (columns df)).
Qed.

Lemma count_where_mono (P R : cell → bool) (s : Series) :
  (∀ c, P c = true → R c = true) → (count_where P s <= count_where R s)%nat.
Proof.
  intros HPR. induction s as [|c s IH]; [reflexivity |].
  rewrite !count_where_cons. specialize (HPR c).
  destruct (P c), (R c); try lia; now discriminate HPR.
Qed.

Lemma check_accuracy_inv (df : DataFrame) (a : CheckResult) :
  check_accuracy df = Ok a →
  issues a =
    finding_if (invalid_coordinates df) (gps_msg (invalid_coordinates df)) ++
    finding_if (suspicious_speeds df) (suspicious_speed_msg (suspicious_speeds df)) ∧
  status a = match issues a with [] => "Pass" | _ => "Warning" end.
Proof.
  intros H. unfold check_accuracy in H. cbv zeta in H. bind_inv H.
  rename a0 into coords. bind_inv H. rename a0 into all. injection H as <-.
  cbn [issues status]. split; [| reflexivity].
  assert (Hcoords : coords =
            finding_if (invalid_coordinates df) (gps_msg (invalid_coordinates df))).
  { unfold invalid_coordinates.
    destruct (has_column df "Latitude") eqn:Hlat;
      [| injection E as <-; now rewrite (column_or_empty_absent _ _ Hlat)].
    destruct (has_column df "Longitude") eqn:Hlon;
      [| injection E as <-; rewrite (column_or_empty_absent _ _ Hlon), zip_with_nil_r;
         reflexivity].
    cbn [andb] in E. bind_inv E. rename a into latitude, E1 into Hlatitude.
    bind_inv E. rename a into bad_latitude. apply out_of_range_mask in E1 as ->.
    bind_inv E. rename a into longitude, E1 into Hlongitude.
    bind_inv E. rename a into bad_longitude. apply out_of_range_mask in E1 as ->.
    rewrite (filtered_empty _ _ _ Hlat) in E. unfold df_filter in E. cbn [nrows] in E.
    rewrite count_true_pairs in E.
    rewrite (column_or_empty_get _ _ _ Hlatitude), (column_or_empty_get _ _ _ Hlongitude).
    unfold finding_if. destruct (0 <? _)%nat; now injection E as <-. }
  assert (Hspeed : all = coords ++
            finding_if (suspicious_speeds df) (suspicious_speed_msg (suspicious_speeds df))).
  { unfold suspicious_speeds.
    destruct (has_column df "Speed Limit") eqn:Hsp;
      [| injection E0 as <-; rewrite (column_or_empty_absent _ _ Hsp);
         cbn; now rewrite app_nil_r].
    bind_inv E0. rename a into speed, E1 into Hspeed.
    bind_inv E0. rename a into mask. apply out_of_range_mask in E1 as ->.
    rewrite (filtered_empty _ _ _ Hsp) in E0. unfold df_filter in E0. cbn [nrows] in E0.
    rewrite count_true_map in E0. rewrite (column_or_empty_get _ _ _ Hspeed).
    unfold finding_if. destruct (0 <? _)%nat; injection E0 as <-;
      [reflexivity | now rewrite app_nil_r]. }
  now rewrite Hspeed, Hcoords.
Qed.

(** X13.  When it returns, the legacy accuracy check reports one finding
    with the number of rows whose latitude lies outside [-90, 90] or whose
    longitude lies outside [-180, 180], if there is such a row and both
    columns exist, then one with the number of rows whose speed limit lies
    outside [0, 100], if any, and nothing else; a missing value is never
    counted; the status is "Pass" exactly when both counts are zero. *)
Theorem check_accuracy_findings (df : DataFrame) (a : CheckResult) :
  check_accuracy df = Ok a →
  issues a =
    finding_if (invalid_coordinates df) (gps_msg (invalid_coordinates df)) ++
    finding_if (suspicious_speeds df) (suspicious_speed_msg (suspicious_speeds df)) ∧
  (status a = "Pass" ↔ invalid_coordinates df = 0%nat ∧ suspicious_speeds df = 0%nat) ∧
  (status a = "Pass" ∨ status a = "Warning").
Proof.
  intros H. apply check_accuracy_inv in H as [Hissues Hstatus].
  split; [exact Hissues |]. rewrite Hstatus, Hissues. unfold finding_if.
  destruct (invalid_coordinates df), (suspicious_speeds df); cbn;
    (split; [split; [intros; (split; [reflexivity || discriminate | reflexivity || discriminate]) || discriminate
                    | intros [? ?]; reflexivity || discriminate]
            | auto]).
Qed.

(** X14.  The legacy accuracy check returns on every table whose
    "Latitude", "Longitude" and "Speed Limit" columns, where present, hold
    only numbers and missing values; it raises as soon as one of the columns
    it compares holds anything else. *)
Theorem check_accuracy_returns_on_numeric_columns (df : DataFrame) :
  (∃ a, check_accuracy df = Ok a) ↔
  (has_column df "Latitude" && has_column df "Longitude" = true →
   forallb is_numeric (column_or_empty df "Latitude") = true ∧
   forallb is_numeric (column_or_empty df "Longitude") = true) ∧
  forallb is_numeric (column_or_empty df "Speed Limit") = true.
Proof.
  split.
  - intros (a & H). unfold check_accuracy in H. cbv zeta in H. do 2 bind_inv H.
    clear H. split.
    + intros Hboth. rewrite Hboth in E. do 4 bind_inv E. clear E.
      repeat match goal with
             | H : df_get _ _ = Ok _ |- _ => apply column_or_empty_get in H; rewrite H
             | H : out_of_range _ _ _ = Ok _ |- _ => apply out_of_range_numeric in H
             end.
      now split.
    + destruct (has_column df "Speed Limit") eqn:Hsp;
        [| now rewrite (column_or_empty_absent _ _ Hsp)].
      do 2 bind_inv E0. clear E0.
      repeat match goal with
             | H : df_get _ _ = Ok _ |- _ => apply column_or_empty_get in H; rewrite H
             | H : out_of_range _ _ _ = Ok _ |- _ => apply out_of_range_numeric in H
             end.
      assumption.
  - intros [Hcoords Hspeed]. unfold check_accuracy. cbv zeta.
    assert (Hfirst : ∃ coords,
      (if has_column df "Latitude" && has_column df "Longitude" then
         latitude ← df_get df "Latitude";
         bad_latitude ← out_of_range (-90) 90 latitude;
         longitude ← df_get df "Longitude";
         bad_longitude ← out_of_range (-180) 180 longitude;
         let invalid_coords := df_filter (zip_with orb bad_latitude bad_longitude) df in
         if negb (df_empty invalid_coords) then
           Ok ([] ++ [gps_msg (nrows invalid_coords)])
         else Ok []
       else Ok []) = Ok coords).
    { destruct (has_column df "Latitude" && has_column df "Longitude") eqn:Hboth;
        [| eauto].
      destruct (Hcoords eq_refl) as [Hlat Hlon].
      apply andb_true_iff in Hboth as [Hla Hlo].
      unfold has_column in Hla, Hlo. unfold column_or_empty in Hlat, Hlon.
      unfold df_get.
      destruct (assoc "Latitude" (columns df)) as [lat|]; [| discriminate].
      destruct (assoc "Longitude" (columns df)) as [lon|]; [| discriminate].
      cbn [default] in Hlat, Hlon.
      destruct (out_of_range_returns (-90) 90 lat Hlat) as (m1 & H1).
      destruct (out_of_range_returns (-180) 180 lon Hlon) as (m2 & H2).
      cbn [mbind result_mbind result_bind]. rewrite H1.
      cbn [mbind result_mbind result_bind]. rewrite H2.
      cbn [mbind result_mbind result_bind]. destruct (negb _); eauto. }
    destruct Hfirst as (coords & Hfirst). cbv zeta in Hfirst. rewrite Hfirst.
    cbn [mbind result_mbind result_bind].
    unfold has_column, df_get. unfold column_or_empty in Hspeed.
    destruct (assoc "Speed Limit" (columns df)) as [speed|]; [| cbn; eauto].
    cbn [default] in Hspeed.
    destruct (out_of_range_returns 0 100 speed Hspeed) as (m & Hm).
    cbn [mbind result_mbind result_bind]. rewrite Hm.
    cbn [mbind result_mbind result_bind]. destruct (negb _); cbn; eauto.
Qed.

Section AccuracyAgreement.
Variable parse_datetime : string → option Timestamp.
Variable epoch_datetime : Q → option Timestamp.

(** X15.  Every negative speed limit counted by [run_audit] is also counted
    by the legacy accuracy check; so when the legacy check passes on a
    non-empty table, the audit's accuracy findings hold no speed-limit
    finding: they are the future-date and the vehicle-year finding at
    most. *)
Theorem legacy_pass_rules_out_negative_speeds
    (current_year : Z) (now : Timestamp) (df : DataFrame)
    (a : CheckResult) (r : AuditResults) :
  df_empty df = false →
  check_accuracy df = Ok a →
  run_audit parse_datetime epoch_datetime current_year now df = Ok r →
  (negative_speeds df <= suspicious_speeds df)%nat ∧
  (status a = "Pass" →
   let F := future_dated parse_datetime epoch_datetime now df in
   let Y := invalid_years current_year df in
   filter (λ m, accuracy_finding m = true) (summary r) =
   finding_if F (future_msg F) ++ finding_if Y (years_msg Y current_year)).
Proof.
  intros Hne Ha Hr.
  assert (Hle : (negative_speeds df <= suspicious_speeds df)%nat).
  { apply count_where_mono. intros [| q | |]; cbn; try discriminate.
    intros ->. reflexivity. }
  split; [exact Hle |]. intros Hpass. cbv zeta.
  apply check_accuracy_inv in Ha as [Hissues Hstatus].
  assert (Hzero : suspicious_speeds df = 0%nat).
  { rewrite Hstatus, Hissues in Hpass. unfold finding_if in Hpass.
    destruct (invalid_coordinates df), (suspicious_speeds df); cbn in Hpass;
      try discriminate; reflexivity. }
  pose proof (run_audit_inv _ _ _ _ _ _ Hne Hr) as [text ->]. cbn [summary].
  destruct (summary_by_kind (nrows df) (looked_up df) df
              (future_dated parse_datetime epoch_datetime now df)
              (invalid_years current_year df) (negative_speeds df) current_year)
    as (_ & _ & ->).
  replace (negative_speeds df) with 0%nat by lia.
  cbn [finding_if Nat.ltb Nat.leb]. now rewrite app_nil_r.
Qed.
End AccuracyAgreement.

(** ** The cleaning engine: effects of the calls *)

Lemma zip_andb_true (m : list bool) (n : nat) :
  (length m <= n)%nat → zip_with andb m (repeat true n) = m.
Proof.
  revert n. induction m as [|b m IH]; intros [|n] Hn; cbn in *; try reflexivity; try lia.
  rewrite andb_true_r, IH by lia. reflexivity.
Qed.

Lemma zip_true_andb (m : list bool) (n : nat) :
  (length m <= n)%nat → zip_with andb (repeat true n) m = m.
Proof.
  revert n. induction m as [|b m IH]; intros [|n] Hn; cbn in *; try reflexivity; try lia.
  rewrite IH by lia. reflexivity.
Qed.

Lemma transpose_length_le (n : nat) (cols : list Series) :
  (length (transpose n cols) <= n)%nat.
Proof.
  induction cols as [|c cols IH]; cbn [transpose].
  - now rewrite repeat_length.
  - rewrite length_zip_with. lia.
Qed.

Lemma complete_cons (m : list bool) (s : Series) (rows : list (list cell)) :
  zip_with andb (zip_with andb m (map present s)) (map (forallb present) rows) =
  zip_with andb m (map (forallb present) (zip_with cons s rows)).
Proof.
  revert s rows. induction m as [|b m IH]; intros [|c s] [|r rows]; try reflexivity.
  cbn [map zip_with forallb]. now rewrite IH, andb_assoc.
Qed.

Lemma dropna_fold (df : DataFrame) (n : nat) (cols : list string) :
  ∀ m mask : list bool,
    (length m <= n)%nat →
    foldR (λ mask col, s ← df_get df col; Ok (zip_with andb mask (notna_mask s)))
          cols m = Ok mask →
    mask = zip_with andb m (map (forallb present)
                              (transpose n (map (column_or_empty df) cols))) ∧
    Forall (λ col, has_column df col = true) cols.
Proof.
  induction cols as [|col cols IH]; intros m mask Hm H.
  - injection H as <-. cbn [map transpose]. split; [| constructor].
    assert (Hrep : map (forallb present) (repeat [] n) = repeat true n).
    { clear. induction n as [|k IHk]; [reflexivity |]. cbn. now rewrite IHk. }
    now rewrite Hrep, zip_andb_true.
  - cbn [foldR] in H. bind_inv H. rename a into m1, E into Hstep.
    bind_inv Hstep. rename a into s, E into Hs. injection Hstep as <-.
    assert (Hm' : (length (zip_with andb m (notna_mask s)) <= n)%nat)
      by (rewrite length_zip_with; lia).
    destruct (IH _ _ Hm' H) as [-> Hcols]. split.
    + cbn [map transpose]. rewrite (column_or_empty_get _ _ _ Hs).
      change (notna_mask s) with (map present s). apply complete_cons.
    + constructor; [| exact Hcols]. unfold has_column. unfold df_get in Hs.
      now destruct (assoc col (columns df)).
Qed.

Lemma dropna_mask_spec (df : DataFrame) (cols : list string) (mask : list bool) :
  dropna_mask df cols = Ok mask →
  mask = complete_rows df cols ∧ Forall (λ col, has_column df col = true) cols.
Proof.
  unfold dropna_mask. intros H.
  apply (dropna_fold df (nrows df)) in H as [-> Hcols];
    [| now rewrite repeat_length].
  split; [| exact Hcols]. unfold complete_rows. apply zip_true_andb.
  rewrite length_map. apply transpose_length_le.
Qed.

Lemma dropna_mask_returns (df : DataFrame) (cols : list string) :
  Forall (λ col, has_column df col = true) cols →
  dropna_mask df cols = Ok (complete_rows df cols).
Proof.
  intros Hcols.
  assert (H : ∃ mask, dropna_mask df cols = Ok mask).
  { unfold dropna_mask. generalize (repeat true (nrows df)).
    induction Hcols as [|col cols Hcol _ IH]; intros m; [cbn; eauto |].
    cbn [foldR].
    assert (Hget : ∃ s, df_get df col = Ok s).
    { unfold has_column in Hcol. unfold df_get.
      destruct (assoc col (columns df)); [eauto | discriminate]. }
    destruct Hget as (s & ->).
    cbn [mbind result_mbind result_bind]. apply IH. }
  destruct H as (mask & H). rewrite H. f_equal. now apply dropna_mask_spec in H.
Qed.

Lemma complete_rows_length (df : DataFrame) (cols : list string) :
  df_wf df → Forall (λ col, has_column df col = true) cols →
  length (complete_rows df cols) = nrows df.
Proof.
  intros Hwf Hcols. unfold complete_rows. rewrite length_map.
  apply transpose_length. apply Forall_map.
  eapply Forall_impl; [exact Hcols |]. intros col Hcol. cbn.
  unfold has_column in Hcol. unfold column_or_empty.
  destruct (assoc col (columns df)) as [s|] eqn:Hs; [| discriminate].
  cbn. now apply (column_length df col).
Qed.

(** The mask of the complete rows is below the presence mask of each of the
    columns. *)
Lemma complete_mask_factor (n : nat) (s : Series) (cols : list Series) :
  In s cols →
  ∃ m, map (forallb present) (transpose n cols) = zip_with andb m (map present s).
Proof.
  induction cols as [|c cols IH]; [intros [] |].
  assert (Hcons : ∀ (c : Series) (rows : list (list cell)),
            map (forallb present) (zip_with cons c rows) =
            zip_with andb (map (forallb present) rows) (map present c)).
  { clear. intros c. induction c as [|x c IHc]; intros [|r rows]; try reflexivity.
    cbn [zip_with map forallb]. now rewrite IHc, andb_comm. }
  intros [-> | Hin]; cbn [transpose]; rewrite Hcons.
  - eauto.
  - destruct (IH Hin) as (m & ->). exists (zip_with andb m (map present c)).
    clear. generalize (map present c) as u. generalize (map present s) as v.
    induction m as [|b m IHm]; intros [|x v] [|y u]; try reflexivity.
    cbn [zip_with]. rewrite IHm. f_equal.
    now rewrite <- !andb_assoc, (andb_comm x y).
Qed.

Lemma select_present (m : list bool) (s : Series) :
  isnull_sum (select (zip_with andb m (map present s)) s) = 0%nat.
Proof.
  unfold isnull_sum. revert s. induction m as [|b m IH]; intros [|c s]; try reflexivity.
  cbn [map zip_with select]. destruct b, c; cbn [andb present is_na negb];
    try apply IH; cbn [map]; rewrite count_true_cons; cbn; apply IH.
Qed.

Lemma select_nil (mask : list bool) : select mask [] = [].
Proof. now destruct mask. Qed.

Lemma column_or_empty_filter (mask : list bool) (df : DataFrame) (col : string) :
  column_or_empty (df_filter mask df) col = select mask (column_or_empty df col).
Proof.
  unfold column_or_empty, df_filter. cbn [columns]. rewrite assoc_select.
  destruct (assoc col (columns df)); cbn; [reflexivity | now rewrite select_nil].
Qed.

Lemma complete_after_select (rows : list (list cell)) :
  Forall (λ b, b = true)
    (map (forallb present) (select_rows (map (forallb present) rows) rows)).
Proof.
  induction rows as [|r rows IH]; [constructor |].
  cbn [map select_rows]. destruct (forallb present r) eqn:Hr; [| exact IH].
  cbn [map]. constructor; [exact Hr | exact IH].
Qed.

Lemma all_true_negb (mask : list bool) :
  Forall (λ b, b = true) mask →
  Forall (λ b, b = false) (map negb mask) ∧ map negb (map negb mask) = mask.
Proof.
  induction 1 as [|b mask -> _ [IH1 IH2]]; [now split |].
  cbn. split; [now constructor | now rewrite IH2].
Qed.

Lemma df_filter_all_true (df : DataFrame) (mask : list bool) :
  df_wf df → Forall (λ b, b = true) mask → length mask = nrows df →
  df_filter mask df = df ∧ count_true mask = nrows df.
Proof.
  intros Hwf Hall Hlen. destruct (all_true_negb mask Hall) as [Hneg Hinv].
  pose proof (df_filter_all df (map negb mask) Hwf Hneg) as Hsame.
  rewrite length_map, Hinv in Hsame. specialize (Hsame Hlen).
  split; [exact Hsame |].
  transitivity (nrows (df_filter mask df)); [reflexivity | now rewrite Hsame].
Qed.

(** Dropping the incomplete rows leaves only complete rows. *)
Lemma complete_rows_idem (df : DataFrame) (cols : list string) :
  df_wf df → Forall (λ col, has_column df col = true) cols →
  Forall (λ b, b = true)
         (complete_rows (df_filter (complete_rows df cols) df) cols).
Proof.
  intros Hwf Hcols. unfold complete_rows at 1.
  assert (Hmap : map (column_or_empty (df_filter (complete_rows df cols) df)) cols =
                 map (select (complete_rows df cols)) (map (column_or_empty df) cols)).
  { rewrite map_map. apply map_ext. intros col. apply column_or_empty_filter. }
  rewrite Hmap. cbn [df_filter nrows]. rewrite transpose_select.
  rewrite complete_rows_length by assumption.
  apply complete_after_select.
Qed.

Lemma select_map_filter (P : cell → bool) (s : Series) :
  select (map P s) s = filter (λ c, P c = true) s.
Proof.
  induction s as [|c s IH]; [reflexivity |].
  cbn [map select]. rewrite filter_cons, IH.
  destruct (P c); destruct (decide _); congruence.
Qed.

Lemma Qleb_le (a b : Q) : Qleb a b = true ↔ (a <= b)%Q.
Proof. unfold Qleb. apply Qle_bool_iff. Qed.

Lemma series_ge_mask (s : Series) (x : Q) (mask : list bool) :
  series_ge s x = Ok mask → mask = map (at_least x) s.
Proof.
  unfold series_ge. intros H. apply mapR_cmp_num in H as [-> _]. reflexivity.
Qed.

Lemma df_filter_names (mask : list bool) (df : DataFrame) :
  map fst (columns (df_filter mask df)) = map fst (columns df).
Proof. unfold df_filter. cbn [columns]. now rewrite map_map. Qed.

Lemma df_set_names (df : DataFrame) (col : string) (s s' : Series) :
  assoc col (columns df) = Some s →
  map fst (columns (df_set df col s')) = map fst (columns df).
Proof.
  intros Hs. unfold df_set. cbn [columns].
  now rewrite assoc_set_names, (assoc_in_list _ _ _ Hs).
Qed.

Section EngineCalls.
Variable py_str_num : Q → string.
Variable copy_on_write : bool.

Lemma drop_nulls_inv (now : Timestamp) (cols : list string) (h h' : store)
    (self self' : Engine) (l : loc) :
  drop_nulls now cols (h, self) = Ok (h', self', l) →
  ∃ d,
    h !! self_df self = Some d ∧
    Forall (λ col, has_column d col = true) cols ∧
    h' = <[self_df self := df_filter (complete_rows d cols) d]> h ∧
    self' = log_step now (op_label (DropNulls cols))
              (removed_msg (nrows d) (count_true (complete_rows d cols))) self ∧
    l = self_df self.
Proof.
  unfold drop_nulls, deref. intros H.
  destruct (h !! self_df self) as [d|] eqn:Hd; [| discriminate].
  cbn [mbind result_mbind result_bind] in H. bind_inv H.
  apply dropna_mask_spec in E as [-> Hcols].
  rewrite lookup_insert_eq in H. cbn [mbind result_mbind result_bind] in H.
  injection H as <- <- <-. exists d. repeat split; assumption || reflexivity.
Qed.

Lemma fill_nulls_inv (now : Timestamp) (col : string) (value : cell) (h h' : store)
    (self self' : Engine) (l : loc) :
  fill_nulls py_str_num copy_on_write now col value (h, self) = Ok (h', self', l) →
  ∃ d s,
    h !! self_df self = Some d ∧
    assoc col (columns d) = Some s ∧
    is_na value = false ∧
    h' = (if copy_on_write then h
          else <[self_df self := df_set d col (fillna value s)]> h) ∧
    self' = log_step now (op_label (FillNulls col value))
              ("Filled " ++ str_of_nat (isnull_sum s) ++ " values with '" ++
               py_str py_str_num value ++ "'.") self ∧
    l = self_df self.
Proof.
  unfold fill_nulls, deref, df_get. intros H.
  destruct (h !! self_df self) as [d|] eqn:Hd; [| discriminate].
  cbn [mbind result_mbind result_bind] in H.
  destruct (assoc col (columns d)) as [s|] eqn:Hs; [| discriminate].
  cbn [mbind result_mbind result_bind] in H.
  destruct (is_na value) eqn:Hv; [discriminate |].
  cbn [mbind result_mbind result_bind] in H.
  injection H as <- <- <-. exists d, s.
  split; [reflexivity |]. split; [exact Hs |]. split; [reflexivity |].
  split; [reflexivity |]. split; reflexivity.
Qed.

Lemma filter_by_year_inv (now : Timestamp) (col : string) (min_year : Z)
    (h h' : store) (self self' : Engine) (l : loc) :
  filter_by_year now col min_year (h, self) = Ok (h', self', l) →
  ∃ d s,
    h !! self_df self = Some d ∧
    assoc col (columns d) = Some s ∧
    forallb is_numeric s = true ∧
    l = fresh (dom h) ∧
    h' = <[l := df_filter (map (at_least (inject_Z min_year)) s) d]> h ∧
    self' = log_step now (op_label (FilterByYear col min_year))
              (removed_msg (nrows d)
                 (count_where (at_least (inject_Z min_year)) s))
              (mkEngine l (history self)).
Proof.
  unfold filter_by_year, deref, df_get. intros H.
  destruct (h !! self_df self) as [d|] eqn:Hd; [| discriminate].
  cbn [mbind result_mbind result_bind] in H.
  destruct (assoc col (columns d)) as [s|] eqn:Hs; [| discriminate].
  cbn [mbind result_mbind result_bind] in H. bind_inv H.
  pose proof (series_ge_mask _ _ _ E) as ->.
  unfold series_ge in E. apply mapR_cmp_num in E as [_ Hnum].
  cbn [self_df] in H. rewrite lookup_insert_eq in H.
  cbn [mbind result_mbind result_bind] in H.
  injection H as <- <- <-. exists d, s.
  cbn [df_filter nrows]. rewrite count_true_map.
  repeat split; assumption || reflexivity.
Qed.

(** What a completed call does to the engine's frame. *)
Lemma run_op_frame (now : Timestamp) (o : op) (h h' : store)
    (self self' : Engine) (l : loc) (d : DataFrame) :
  run_op py_str_num copy_on_write now o (h, self) = Ok (h', self', l) →
  h !! self_df self = Some d →
  df_wf d →
  ∃ d',
    h' !! self_df self' = Some d' ∧ df_wf d' ∧
    (nrows d' <= nrows d)%nat ∧
    map fst (columns d') = map fst (columns d).
Proof.
  intros H Hd Hwf. destruct o as [cols | col value | col min_year]; cbn [run_op] in H.
  - apply drop_nulls_inv in H as (d0 & Hd0 & Hcols & -> & -> & ->).
    assert (d0 = d) as -> by congruence.
    eexists. cbn [log_step self_df]. rewrite lookup_insert_eq.
    split; [reflexivity |].
    pose proof (complete_rows_length d cols Hwf Hcols) as Hlen.
    split; [now apply df_filter_wf |]. split; [| apply df_filter_names].
    cbn [df_filter nrows]. rewrite <- Hlen. apply count_true_le.
  - apply fill_nulls_inv in H as (d0 & s & Hd0 & Hs & _ & -> & -> & ->).
    assert (d0 = d) as -> by congruence.
    cbn [log_step self_df]. destruct copy_on_write.
    { exists d. split; [exact Hd |]. split; [exact Hwf |].
      split; [apply Nat.le_refl | reflexivity]. }
    eexists. rewrite lookup_insert_eq.
    split; [reflexivity |]. split.
    + apply df_set_wf; [exact Hwf |]. rewrite fillna_length.
      now apply (column_length d col).
    + split; [reflexivity | now apply (df_set_names d col s)].
  - apply filter_by_year_inv in H as (d0 & s & Hd0 & Hs & Hnum & -> & -> & ->).
    assert (d0 = d) as -> by congruence.
    eexists. cbn [log_step self_df]. rewrite lookup_insert_eq.
    split; [reflexivity |].
    assert (Hlen : length (map (at_least (inject_Z min_year)) s) = nrows d)
      by (rewrite length_map; now apply (column_length d col)).
    split; [now apply df_filter_wf |]. split; [| apply df_filter_names].
    cbn [df_filter nrows]. rewrite <- Hlen. apply count_true_le.
Qed.

Lemma run_op_log (now : Timestamp) (o : op) (st st' : store * Engine) (l : loc) :
  run_op py_str_num copy_on_write now o st = Ok (st', l) →
  ∃ impact,
    history (snd st') =
    history (snd st) ++ [mkLogEntry (strftime now) (op_label o) impact].
Proof.
  destruct st as [h self], st' as [h' self']. intros H.
  destruct o as [cols | col value | col min_year]; cbn [run_op] in H.
  - apply drop_nulls_inv in H as (d & _ & _ & _ & -> & _). cbn. eauto.
  - apply fill_nulls_inv in H as (d & s & _ & _ & _ & _ & -> & _). cbn. eauto.
  - apply filter_by_year_inv in H as (d & s & _ & _ & _ & _ & _ & ->). cbn. eauto.
Qed.

(** X16.  The history is append-only and records the completed calls in
    call order: after any sequence of calls it is the earlier history
    followed by one entry per completed call, stamped with that call's
    clock reading and naming its operation; a call that raises adds no
    entry and ends the sequence, so the number of new entries equals the
    number of calls exactly when no call raised.  [get_history] has one
    row per entry. *)
Theorem history_records_completed_calls
    (ops : list (Timestamp * op)) (st : store * Engine) :
  let st' := fst (run_ops py_str_num copy_on_write ops st) in
  let err := snd (run_ops py_str_num copy_on_write ops st) in
  ∃ added : list LogEntry,
    history (snd st') = history (snd st) ++ added ∧
    map log_timestamp added =
      map (λ c, strftime (fst c)) (take (length added) ops) ∧
    map log_operation added =
      map (λ c, op_label (snd c)) (take (length added) ops) ∧
    (err = None ↔ length added = length ops) ∧
    nrows (get_history (snd st')) = (length (history (snd st)) + length added)%nat.
Proof.
  cbv zeta.
  assert (Hrows : ∀ e, nrows (get_history e) = length (history e)).
  { intros e. unfold get_history. now destruct (history e). }
  revert st. induction ops as [|[now o] ops IH]; intros st.
  - exists []. cbn [run_ops fst snd]. rewrite app_nil_r, Hrows.
    repeat split; cbn; auto.
  - cbn [run_ops]. destruct (run_op py_str_num copy_on_write now o st) as [[st1 l]|e] eqn:E.
    + destruct (run_op_log _ _ _ _ _ E) as (impact & Hlog).
      destruct (IH st1) as (added & Hhist & Hts & Hops & Herr & Hn).
      exists (mkLogEntry (strftime now) (op_label o) impact :: added).
      rewrite Hhist, Hlog, <- app_assoc. cbn [app length take map
        log_timestamp log_operation fst snd].
      rewrite Hts, Hops, Hn, Hlog, length_app. cbn [length].
      repeat split; try reflexivity; try lia.
      * intros H. apply Herr in H. lia.
      * intros H. apply Herr. lia.
    + exists []. cbn [fst snd]. rewrite app_nil_r, Hrows.
      repeat split; cbn; auto; discriminate.
Qed.

(** X17.  The engine's frame stays well formed: after any sequence of
    calls on an engine whose frame is well formed, completed or ended by an
    exception, the frame is well formed, has no more rows than before and
    the same column labels in the same order. *)
Theorem engine_frame_stays_well_formed
    (ops : list (Timestamp * op)) (h : store) (self : Engine) (d : DataFrame) :
  h !! self_df self = Some d →
  df_wf d →
  let st' := fst (run_ops py_str_num copy_on_write ops (h, self)) in
  ∃ d',
    fst st' !! self_df (snd st') = Some d' ∧ df_wf d' ∧
    (nrows d' <= nrows d)%nat ∧
    map fst (columns d') = map fst (columns d).
Proof.
  cbv zeta. revert h self d. induction ops as [|[now o] ops IH]; intros h self d Hd Hwf.
  - exists d. cbn [run_ops fst snd].
    split; [exact Hd | split; [exact Hwf | split; [lia | reflexivity]]].
  - cbn [run_ops].
    destruct (run_op py_str_num copy_on_write now o (h, self)) as [[[h1 self1] l]|e] eqn:E.
    + destruct (run_op_frame _ _ _ _ _ _ _ _ E Hd Hwf) as (d1 & Hd1 & Hwf1 & Hn1 & Hc1).
      destruct (IH h1 self1 d1 Hd1 Hwf1) as (d' & Hd' & Hwf' & Hn' & Hc').
      exists d'. split; [exact Hd' | split; [exact Hwf' | split; [lia | congruence]]].
    + exists d. cbn [fst snd]. split; [exact Hd | split; [exact Hwf | split; [lia | reflexivity]]].
Qed.

(** X18.  [drop_nulls] keeps exactly the rows with no missing cell in any
    of the named columns: it overwrites the engine's own frame with those
    rows, returns that same frame, logs the number of rows removed, and
    afterwards none of the named columns has a missing cell. *)
Theorem drop_nulls_keeps_complete_rows
    (now : Timestamp) (cols : list string) (h h' : store)
    (self self' : Engine) (l : loc) :
  drop_nulls now cols (h, self) = Ok (h', self', l) →
  ∃ d d',
    h !! self_df self = Some d ∧
    l = self_df self ∧ self_df self' = self_df self ∧
    h' !! l = Some d' ∧
    d' = df_filter (complete_rows d cols) d ∧
    history self' = history self ++
      [mkLogEntry (strftime now) ("Drop Nulls in " ++ String.concat ", " cols)
         (removed_msg (nrows d) (nrows d'))] ∧
    (∀ col, In col cols →
       ∃ s', assoc col (columns d') = Some s' ∧ isnull_sum s' = 0%nat).
Proof.
  intros H. apply drop_nulls_inv in H as (d & Hd & Hcols & -> & -> & ->).
  exists d, (df_filter (complete_rows d cols) d).
  rewrite lookup_insert_eq. repeat split; try assumption; try reflexivity.
  intros col Hin. rewrite Forall_forall in Hcols.
  assert (Hcol : has_column d col = true) by (apply Hcols, list_elem_of_In, Hin).
  unfold has_column in Hcol.
  destruct (assoc col (columns d)) as [s|] eqn:Hs; [| discriminate].
  exists (select (complete_rows d cols) s). unfold df_filter. cbn [columns].
  rewrite assoc_select, Hs. split; [reflexivity |].
  assert (Hs' : In s (map (column_or_empty d) cols)).
  { apply in_map_iff. exists col. split; [| exact Hin].
    unfold column_or_empty. now rewrite Hs. }
  destruct (complete_mask_factor (nrows d) s _ Hs') as (m & Hm).
  unfold complete_rows. rewrite Hm. apply select_present.
Qed.

(** X19.  [drop_nulls] is idempotent on a well-formed frame: a second call
    with the same columns returns, leaves the frame as the first call left
    it and logs "Removed 0 rows.". *)
Theorem drop_nulls_twice_removes_nothing
    (now now' : Timestamp) (cols : list string) (h h' : store)
    (self self' : Engine) (l : loc) (d : DataFrame) :
  h !! self_df self = Some d →
  df_wf d →
  drop_nulls now cols (h, self) = Ok (h', self', l) →
  ∃ self'',
    drop_nulls now' cols (h', self') = Ok (h', self'', l) ∧
    history self'' = history self' ++
      [mkLogEntry (strftime now') ("Drop Nulls in " ++ String.concat ", " cols)
         "Removed 0 rows."].
Proof.
  intros Hd Hwf H. apply drop_nulls_inv in H as (d0 & Hd0 & Hcols & -> & -> & ->).
  assert (d0 = d) as -> by congruence.
  set (d' := df_filter (complete_rows d cols) d).
  assert (Hwf' : df_wf d')
    by (apply df_filter_wf; [exact Hwf | now apply complete_rows_length]).
  assert (Hcols' : Forall (λ col, has_column d' col = true) cols).
  { eapply Forall_impl; [exact Hcols |]. intros col Hcol. cbn in *.
    unfold has_column, d', df_filter in *. cbn [columns]. rewrite assoc_select.
    now destruct (assoc col (columns d)). }
  destruct (df_filter_all_true d' (complete_rows d' cols) Hwf')
    as [Hsame Hcount].
  { apply complete_rows_idem; assumption. }
  { now apply complete_rows_length. }
  eexists. unfold drop_nulls, deref. cbn [log_step self_df].
  rewrite lookup_insert_eq. cbn [mbind result_mbind result_bind].
  fold d'. rewrite (dropna_mask_returns d' cols Hcols').
  cbn [mbind result_mbind result_bind]. rewrite lookup_insert_eq.
  cbn [mbind result_mbind result_bind]. rewrite Hsame, insert_insert_eq.
  split; [reflexivity |]. cbn [log_step history]. unfold removed_msg.
  rewrite Z.sub_diag. reflexivity.
Qed.

(** X20.  A call of [fill_nulls] with a value that is not itself missing,
    when it returns, returns the engine's own frame and logs the number of
    cells of the column that were missing.  What it does to the frame
    depends on pandas: with copy-on-write the fill lands in a temporary
    column and the store is as before; without, the value is written into
    the missing cells of that column and nowhere else (present cells,
    other columns, the row count and every other object are as before),
    and the column has no missing cell afterwards. *)
Theorem fill_nulls_fills_missing_cells
    (now : Timestamp) (col : string) (value : cell) (h h' : store)
    (self self' : Engine) (l : loc) :
  fill_nulls py_str_num copy_on_write now col value (h, self) = Ok (h', self', l) →
  ∃ d s,
    h !! self_df self = Some d ∧ assoc col (columns d) = Some s ∧
    is_na value = false ∧
    l = self_df self ∧ self_df self' = self_df self ∧
    history self' = history self ++
      [mkLogEntry (strftime now) ("Fill Nulls in " ++ col)
         ("Filled " ++ str_of_nat (isnull_sum s) ++ " values with '" ++
          py_str py_str_num value ++ "'.")] ∧
    (copy_on_write = true → h' = h) ∧
    (copy_on_write = false →
     ∃ d' s',
       h' !! l = Some d' ∧ assoc col (columns d') = Some s' ∧
       nrows d' = nrows d ∧
       (∀ other, other ≠ col →
                 assoc other (columns d') = assoc other (columns d)) ∧
       Forall2 (λ old new, if is_na old then new = value else new = old) s s' ∧
       isnull_sum s' = 0%nat ∧
       ∀ l', l' ≠ l → h' !! l' = h !! l').
Proof.
  intros H. apply fill_nulls_inv in H as (d & s & Hd & Hs & Hv & -> & -> & ->).
  exists d, s.
  split; [exact Hd |]. split; [exact Hs |]. split; [exact Hv |].
  split; [reflexivity |]. split; [reflexivity |]. split; [reflexivity |].
  split; [now intros -> |]. intros ->.
  exists (df_set d col (fillna value s)), (fillna value s).
  rewrite lookup_insert_eq. unfold df_set. cbn [columns nrows].
  rewrite assoc_set_eq.
  split; [reflexivity |]. split; [reflexivity |]. split; [reflexivity |].
  split; [intros other Hne; apply assoc_set_ne; congruence |].
  split; [| split].
  - unfold fillna. clear. induction s as [|c s IH]; cbn; constructor; [| exact IH].
    now destruct (is_na c).
  - unfold isnull_sum, fillna. clear -Hv.
    induction s as [|c s IH]; [reflexivity |].
    cbn [map]. rewrite count_true_cons, IH.
    destruct (is_na c) eqn:Hc; [now rewrite Hv | now rewrite Hc].
  - intros l' Hl'. now rewrite lookup_insert_ne.
Qed.

(** X21.  [filter_by_year] keeps exactly the rows whose cell in the column
    is a number not below the minimum; rows with a missing cell go.  The
    result is a new frame object that becomes the engine's frame; the frame
    object the engine had before is left as it was. *)
Theorem filter_by_year_keeps_recent_rows
    (now : Timestamp) (col : string) (min_year : Z) (h h' : store)
    (self self' : Engine) (l : loc) :
  filter_by_year now col min_year (h, self) = Ok (h', self', l) →
  ∃ d d' s,
    h !! self_df self = Some d ∧ assoc col (columns d) = Some s ∧
    l = self_df self' ∧ (l ∉ dom h) ∧
    h' !! self_df self = Some d ∧
    h' !! l = Some d' ∧
    d' = df_filter (map (at_least (inject_Z min_year)) s) d ∧
    assoc col (columns d') =
      Some (filter (λ c, at_least (inject_Z min_year) c = true) s) ∧
    (∀ c, In c (column_or_empty d' col) →
          ∃ q, c = Num q ∧ (inject_Z min_year <= q)%Q) ∧
    history self' = history self ++
      [mkLogEntry (strftime now) ("Filter " ++ col ++ " >= " ++ str_of_Z min_year)
         (removed_msg (nrows d) (nrows d'))].
Proof.
  intros H. apply filter_by_year_inv in H as (d & s & Hd & Hs & Hnum & -> & -> & ->).
  exists d, (df_filter (map (at_least (inject_Z min_year)) s) d), s.
  assert (Hfresh : fresh (dom h) ∉ dom h) by apply is_fresh.
  assert (Hne : fresh (dom h) ≠ self_df self).
  { intros Heq. apply Hfresh. rewrite Heq. apply elem_of_dom. eauto. }
  assert (Hcol : assoc col (columns (df_filter (map (at_least (inject_Z min_year)) s) d)) =
                 Some (filter (λ c, at_least (inject_Z min_year) c = true) s)).
  { unfold df_filter. cbn [columns]. rewrite assoc_select, Hs. cbn.
    now rewrite select_map_filter. }
  rewrite lookup_insert_eq, lookup_insert_ne by exact Hne.
  repeat split; try assumption; try reflexivity.
  - intros c Hin. unfold column_or_empty in Hin. rewrite Hcol in Hin. cbn in Hin.
    apply list_elem_of_In, list_elem_of_filter in Hin as [Hc _].
    destruct c as [| q | |]; try discriminate. exists q. split; [reflexivity |].
    now apply Qleb_le.
  - cbn [log_step history df_filter nrows]. now rewrite count_true_map.
Qed.

(** X22.  A completed call changes at most one object of the store, the
    one it returns, which is the engine's frame afterwards.  [drop_nulls]
    and [fill_nulls] return the object the engine already had, so whoever
    holds an earlier return value sees the change; [filter_by_year]
    returns an object that did not exist before. *)
Theorem engine_call_changes_only_its_frame
    (now : Timestamp) (o : op) (h h' : store) (self self' : Engine) (l : loc) :
  run_op py_str_num copy_on_write now o (h, self) = Ok (h', self', l) →
  l = self_df self' ∧
  (∀ l', l' ≠ l → h' !! l' = h !! l') ∧
  match o with
  | FilterByYear _ _ => l ∉ dom h
  | _ => l = self_df self
  end.
Proof.
  intros H. destruct o as [cols | col value | col min_year]; cbn [run_op] in H.
  - apply drop_nulls_inv in H as (d & Hd & _ & -> & -> & ->).
    repeat split. intros l' Hl'. now rewrite lookup_insert_ne.
  - apply fill_nulls_inv in H as (d & s & Hd & _ & _ & -> & -> & ->).
    repeat split. intros l' Hl'.
    destruct copy_on_write; [reflexivity | now rewrite lookup_insert_ne].
  - apply filter_by_year_inv in H as (d & s & Hd & _ & _ & -> & -> & ->).
    repeat split; [| apply is_fresh]. intros l' Hl'. now rewrite lookup_insert_ne.
Qed.
End EngineCalls.

(** ** The main pain point *)

Lemma idxmax_spec (rest : list (string * nat)) :
  ∀ best : string * nat,
    let r := idxmax best rest in
    (r = best ∧ Forall (λ p, (snd p <= snd best)%nat) rest) ∨
    (∃ before after,
       rest = before ++ r :: after ∧ (snd best < snd r)%nat ∧
       Forall (λ p, (snd p < snd r)%nat) before ∧
       Forall (λ p, (snd p <= snd r)%nat) after).
Proof.
  induction rest as [|p rest IH]; intros best; cbv zeta; cbn [idxmax].
  - left. split; [reflexivity | constructor].
  - destruct (snd best <? snd p)%nat eqn:Hlt.
    + apply Nat.ltb_lt in Hlt. right.
      destruct (IH p) as [[Hr Hall] | (before & after & Hrest & Hbest & Hb & Ha)].
      * exists [], rest. rewrite Hr. cbn [app].
        split; [reflexivity | split; [exact Hlt | split; [constructor | exact Hall]]].
      * exists (p :: before), after. rewrite Hrest at 1. cbn [app].
        split; [reflexivity | split; [lia | split; [| exact Ha]]].
        constructor; [lia | exact Hb].
    + apply Nat.ltb_ge in Hlt.
      destruct (IH best) as [[Hr Hall] | (before & after & Hrest & Hbest & Hb & Ha)].
      * left. split; [exact Hr |]. constructor; [exact Hlt | exact Hall].
      * right. exists (p :: before), after. rewrite Hrest at 1. cbn [app].
        split; [reflexivity | split; [exact Hbest | split; [| exact Ha]]].
        constructor; [lia | exact Hb].
Qed.

(** X23.  [get_main_pain_point] never raises.  On an empty table it
    answers "N/A" with count 0; otherwise it names the first column, in
    the order of the table, that has the largest number of missing cells,
    with that number: the columns before it have strictly fewer missing
    cells, the columns after it no more. *)
Theorem main_pain_point_is_first_worst_column (df : DataFrame) :
  ∃ p,
    get_main_pain_point df = Ok p ∧
    if df_empty df then p = mkPainPoint "N/A" 0
    else ∃ before s after,
      columns df = before ++ (pp_column p, s) :: after ∧
      isnull_sum s = pp_count p ∧
      Forall (λ c, (isnull_sum (snd c) < pp_count p)%nat) before ∧
      Forall (λ c, (isnull_sum (snd c) <= pp_count p)%nat) after.
Proof.
  unfold get_main_pain_point. destruct (df_empty df) eqn:He; [eauto |].
  apply df_nonempty in He as [_ Hc].
  destruct (columns df) as [|[k s] cols]; [cbn in Hc; lia |]. clear Hc.
  cbn [map series_idxmax fst snd mbind result_mbind result_bind].
  set (counts := map (λ c : string * Series, (fst c, isnull_sum (snd c))) cols).
  destruct (idxmax (k, isnull_sum s) counts) as [col n] eqn:Hr.
  eexists. split; [reflexivity |]. cbn [pp_column pp_count].
  pose proof (idxmax_spec counts (k, isnull_sum s)) as Hspec. cbv zeta in Hspec.
  rewrite Hr in Hspec. cbn [snd] in Hspec.
  destruct Hspec as [[[= -> ->] Hall] | (before & after & Hrest & Hbest & Hb & Ha)].
  - exists [], s, cols. cbn [app].
    split; [reflexivity | split; [reflexivity | split; [constructor |]]].
    subst counts. rewrite Forall_map in Hall. exact Hall.
  - subst counts. apply map_eq_app in Hrest as (before' & rest' & -> & <- & Hrest).
    apply map_eq_cons in Hrest as ([k' s'] & after' & -> & [= <- <-] & <-).
    rewrite Forall_map in Hb, Ha. cbn [snd fst] in *.
    exists ((k, s) :: before'), s', after'. cbn [app].
    split; [reflexivity | split; [reflexivity | split; [| exact Ha]]].
    constructor; [exact Hbest | exact Hb].
Qed.

(** ** The data dictionary *)

Lemma get_data_dictionary_wf (df : DataFrame) :
  df_wf df →
  get_data_dictionary df =
  Ok (map (λ c, mkDictionaryRow (fst c) (dtype (snd c))
                  (count_true (notna_mask (snd c))) (sample_value (snd c)))
          (columns df)).
Proof.
  intros [Hnd _]. unfold get_data_dictionary.
  assert (Hget : ∀ c, In c (columns df) → df_get df (fst c) = Ok (snd c)).
  { intros [k s] Hin. unfold df_get. cbn. now rewrite (assoc_In _ _ _ Hnd Hin). }
  revert Hget. generalize (columns df) as cols.
  induction cols as [|c cols IH]; intros Hget; [reflexivity |].
  cbn [mapR map]. rewrite (Hget c) by now left.
  cbn [mbind result_mbind result_bind]. rewrite IH; [reflexivity |].
  intros c' Hin. apply Hget. now right.
Qed.

(** X24.  On a well-formed table [get_data_dictionary] does not raise and
    lists the columns in the order of the table, one row each; the
    non-null count of a row and the number of missing cells of its column
    add up to the number of rows of the table; the sample value is the
    first cell of the column, missing or not, and it is a missing value
    when the table has no rows. *)
Theorem data_dictionary_describes_each_column (df : DataFrame) :
  df_wf df →
  ∃ rows,
    get_data_dictionary df = Ok rows ∧
    Forall2 (λ row c,
               dd_column row = fst c ∧
               (dd_non_null_count row + isnull_sum (snd c) = nrows df)%nat ∧
               dd_sample_value row = hd NA (snd c) ∧
               (nrows df = 0%nat → dd_sample_value row = NA))
            rows (columns df).
Proof.
  intros Hwf. rewrite (get_data_dictionary_wf df Hwf). eexists. split; [reflexivity |].
  destruct Hwf as [_ Hlen]. induction Hlen as [|c cols Hc _ IH]; [constructor |].
  cbn [map]. constructor; [| exact IH].
  cbn [dd_column dd_non_null_count dd_sample_value].
  split; [reflexivity |]. split; [rewrite count_true_notna; exact Hc |].
  split; [now destruct (snd c) |].
  rewrite <- Hc. destruct (snd c); [reflexivity | discriminate].
Qed.

Section DictionaryAgreement.
Variable parse_datetime : string → option Timestamp.
Variable epoch_datetime : Q → option Timestamp.

(** X25.  On a well-formed non-empty table the data dictionary and the
    column statistics of [run_audit] list the same columns in the same
    order with the same types. *)
Theorem data_dictionary_agrees_with_audit
    (current_year : Z) (now : Timestamp) (df : DataFrame)
    (r : AuditResults) (rows : list DictionaryRow) :
  df_wf df →
  df_empty df = false →
  run_audit parse_datetime epoch_datetime current_year now df = Ok r →
  get_data_dictionary df = Ok rows →
  map dd_column rows = map cs_column_name (column_stats r) ∧
  map dd_type rows = map cs_type (column_stats r).
Proof.
  intros Hwf Hne Hr Hrows.
  rewrite (get_data_dictionary_wf df Hwf) in Hrows. injection Hrows as <-.
  pose proof (run_audit_inv _ _ _ _ _ _ Hne Hr) as [text ->].
  cbn [column_stats]. rewrite (looked_up_wf df Hwf), !map_map. split; reflexivity.
Qed.
End DictionaryAgreement.

(** ** The further properties at the sample data *)

Lemma dup_df_wf : df_wf dup_df.
Proof.
  split.
  - apply (bool_decide_unpack _). vm_compute. reflexivity.
  - repeat constructor.
Defined.

Lemma clean_df_wf : df_wf clean_df.
Proof.
  split.
  - apply (bool_decide_unpack _). vm_compute. reflexivity.
  - repeat constructor.
Defined.

Lemma median_filled_ok :
  impute_column plain_str left_to_right_mean sample_df "Speed Limit" "Median" = Ok median_filled.
Proof. vm_compute. reflexivity. Defined.

Lemma mode_filled_ok :
  impute_column plain_str left_to_right_mean sample_df "Agency Name" "Mode" = Ok mode_filled.
Proof. vm_compute. reflexivity. Defined.

Lemma deduplicated_ok :
  drop_duplicates quoted dup_df (Some ["a"; "b"]) = Ok deduplicated.
Proof. vm_compute. reflexivity. Defined.

Lemma dated_ok : standardize_dates iso_day no_epoch dup_df "d" = Ok dated.
Proof. vm_compute. reflexivity. Defined.

Lemma sample_completeness_ok : check_completeness sample_df = Ok sample_completeness.
Proof. vm_compute. reflexivity. Defined.

Lemma located_check_ok : check_accuracy located_df = Ok located_check.
Proof. vm_compute. reflexivity. Defined.

Lemma clean_check_ok : check_accuracy clean_df = Ok clean_check.
Proof. vm_compute. reflexivity. Defined.

Lemma clean_report_ok :
  run_audit no_parser no_epoch 2025 sample_now clean_df = Ok clean_report.
Proof. vm_compute. reflexivity. Defined.

Lemma sample_dictionary_ok : get_data_dictionary sample_df = Ok sample_dictionary.
Proof. vm_compute. reflexivity. Defined.

Lemma dropped_ok :
  drop_nulls sample_now ["Speed Limit"; "Vehicle Year"] (sample_store, sample_engine) =
  Ok (fst (fst dropped), snd (fst dropped), snd dropped).
Proof. vm_compute. reflexivity. Defined.

Lemma filled_ok :
  fill_nulls plain_str false sample_now "Speed Limit" (Str "Unknown")
             (sample_store, sample_engine) =
  Ok (fst (fst filled), snd (fst filled), snd filled).
Proof. vm_compute. reflexivity. Defined.

Lemma filtered_ok :
  filter_by_year sample_now "Vehicle Year" 2021 (sample_store, sample_engine) =
  Ok (fst (fst filtered), snd (fst filtered), snd filtered).
Proof. vm_compute. reflexivity. Defined.

Lemma impute_drop_removes_missing_rows_witness :
  let s := [Num 35; Num (-5); Num 40; NA] in
  (df_wf sample_df ∧ assoc "Speed Limit" (columns sample_df) = Some s) ∧
  ∃ df',
    impute_column plain_str left_to_right_mean sample_df "Speed Limit" "Drop" =
      Ok (df', "Dropped 1 rows with missing values in 'Speed Limit'") ∧
    df_wf df' ∧
    (nrows df' + isnull_sum s = nrows sample_df)%nat ∧
    assoc "Speed Limit" (columns df') = Some (filter (λ c, is_na c = false) s) ∧
    isnull_sum (filter (λ c, is_na c = false) s) = 0%nat.
Proof.
  cbv zeta. split; [split; [exact sample_df_wf | reflexivity] |].
  exact (impute_drop_removes_missing_rows plain_str left_to_right_mean sample_df "Speed Limit" _
           sample_df_wf eq_refl).
Defined.

Lemma impute_fill_touches_only_missing_cells_witness :
  let s := [Num 35; Num (-5); Num 40; NA] in
  let df' := fst median_filled in
  (In "Median" ["Mean"; "Median"; "Mode"] ∧
   assoc "Speed Limit" (columns sample_df) = Some s ∧
   impute_column plain_str left_to_right_mean sample_df "Speed Limit" "Median" = Ok median_filled) ∧
  nrows df' = nrows sample_df ∧
  map fst (columns df') = map fst (columns sample_df) ∧
  (∀ other, other ≠ "Speed Limit" →
            assoc other (columns df') = assoc other (columns sample_df)) ∧
  (∃ s', assoc "Speed Limit" (columns df') = Some s' ∧
         Forall2 (λ old new, is_na old = false → new = old) s s') ∧
  (df_wf sample_df → df_wf df').
Proof.
  cbv zeta.
  assert (Hin : In "Median" ["Mean"; "Median"; "Mode"]) by (right; left; reflexivity).
  split; [split; [exact Hin | split; [reflexivity | exact median_filled_ok]] |].
  exact (impute_fill_touches_only_missing_cells plain_str left_to_right_mean
           sample_df (fst median_filled)
           "Speed Limit" "Median" (snd median_filled) _ Hin eq_refl median_filled_ok).
Defined.

Lemma impute_mode_fills_with_most_frequent_witness :
  let s := [Str "MCP"; Str "MCP"; Str "RCPD"; Str "MCP"] in
  (assoc "Agency Name" (columns sample_df) = Some s ∧
   impute_column plain_str left_to_right_mean sample_df "Agency Name" "Mode" = Ok mode_filled) ∧
  ∃ val,
    assoc "Agency Name" (columns (fst mode_filled)) = Some (fillna val s) ∧
    isnull_sum (fillna val s) = 0%nat ∧
    snd mode_filled =
      ("Imputed '" ++ "Agency Name" ++ "' with Mode: " ++ py_str plain_str val)%string ∧
    ((In val s ∧ is_na val = false ∧
      ∀ c, In c s → is_na c = false →
           (occurrences c s <= occurrences val s)%nat) ∨
     (val = Str "N/A" ∧ ∀ c, In c s → c = NA)).
Proof.
  cbv zeta. split; [split; [reflexivity | exact mode_filled_ok] |].
  exact (impute_mode_fills_with_most_frequent plain_str left_to_right_mean
           sample_df (fst mode_filled)
           "Agency Name" (snd mode_filled) _ eq_refl mode_filled_ok).
Defined.

Lemma drop_duplicates_clears_duplicate_metric_witness :
  df_wf dup_df ∧
  ∃ df' m m',
    get_metrics dup_df = Ok m ∧
    drop_duplicates quoted dup_df None =
      Ok (df', ("Removed " ++ str_of_Z (Z.of_nat (duplicate_count m)) ++
                " duplicate rows")%string) ∧
    get_metrics df' = Ok m' ∧
    df_wf df' ∧
    duplicate_count m' = 0%nat ∧
    (row_count m' + duplicate_count m = row_count m)%nat.
Proof.
  split; [exact dup_df_wf |].
  exact (drop_duplicates_clears_duplicate_metric quoted dup_df dup_df_wf).
Defined.

Lemma drop_duplicates_idempotent_witness :
  (df_wf dup_df ∧
   drop_duplicates quoted dup_df (Some ["a"; "b"]) = Ok deduplicated) ∧
  ∃ msg',
    drop_duplicates quoted (fst deduplicated) (Some ["a"; "b"]) =
      Ok (fst deduplicated, msg') ∧
    msg' = ("Removed 0 duplicate rows" ++
            " based on " ++ py_list_repr quoted ["a"; "b"])%string.
Proof.
  split; [split; [exact dup_df_wf | exact deduplicated_ok] |].
  exact (drop_duplicates_idempotent quoted dup_df (fst deduplicated)
           (Some ["a"; "b"]) (snd deduplicated) dup_df_wf deduplicated_ok).
Defined.

Lemma drop_duplicates_keeps_every_key_witness :
  let subset := Some ["a"; "b"] in
  let df' := fst deduplicated in
  (df_wf dup_df ∧ drop_duplicates quoted dup_df subset = Ok deduplicated) ∧
  (∃ mask, length mask = nrows dup_df ∧ df' = df_filter mask dup_df) ∧
  ∀ k, In k (transpose (nrows dup_df) (map snd (subset_columns subset dup_df))) →
       ∃ k', In k' (transpose (nrows df') (map snd (subset_columns subset df'))) ∧
             key_eqb k k' = true.
Proof.
  cbv zeta. split; [split; [exact dup_df_wf | exact deduplicated_ok] |].
  exact (drop_duplicates_keeps_every_key quoted dup_df (fst deduplicated)
           (Some ["a"; "b"]) (snd deduplicated) dup_df_wf deduplicated_ok).
Defined.

Lemma standardize_dates_counts_unreadable_witness :
  let s := [Str "2024-01-01"; Str "soon"; Str "2024-01-01"; Time sample_now] in
  let s' := to_datetime_coerce iso_day no_epoch s in
  assoc "d" (columns dup_df) = Some s ∧
  ∃ df',
    standardize_dates iso_day no_epoch dup_df "d" =
      Ok (df',
          "Standardized 'd' to datetime. (Note: 1 values failed to parse and were set to NaT)") ∧
    assoc "d" (columns df') = Some s' ∧
    forallb is_temporal s' = true ∧
    isnull_sum s' = (isnull_sum s + count_where (unreadable iso_day no_epoch s) s)%nat ∧
    nrows df' = nrows dup_df ∧
    (∀ other, other ≠ "d" → assoc other (columns df') = assoc other (columns dup_df)) ∧
    (df_wf dup_df → df_wf df').
Proof.
  cbv zeta. split; [reflexivity |].
  exact (standardize_dates_counts_unreadable iso_day no_epoch dup_df "d" _ eq_refl).
Defined.

Lemma standardize_dates_idempotent_witness :
  standardize_dates iso_day no_epoch dup_df "d" = Ok dated ∧
  standardize_dates iso_day no_epoch (fst dated) "d" =
    Ok (fst dated, "Standardized 'd' to datetime.").
Proof.
  split; [exact dated_ok |].
  exact (standardize_dates_idempotent iso_day no_epoch dup_df (fst dated) "d"
           (snd dated) dated_ok).
Defined.

Lemma completeness_checks_agree_witness :
  (df_wf sample_df ∧ df_empty sample_df = false ∧
   run_audit no_parser no_epoch 2025 sample_now sample_df = Ok sample_report) ∧
  ∃ c q q',
    check_completeness sample_df = Ok c ∧ ratio c = Num q ∧
    scores sample_report !! "completeness" = Some q' ∧ (q == q')%Q.
Proof.
  split; [split; [exact sample_df_wf | split; [reflexivity | exact sample_report_ok]] |].
  exact (completeness_checks_agree no_parser no_epoch 2025 sample_now sample_df
           sample_report sample_df_wf eq_refl sample_report_ok).
Defined.

Lemma completeness_ratio_range_witness :
  (df_wf sample_df ∧ df_empty sample_df = false) ∧
  ∃ c q,
    check_completeness sample_df = Ok c ∧ ratio c = Num q ∧
    (0 <= q <= 100)%Q ∧
    ((q == 100)%Q ↔ missing_by_column c = ∅).
Proof.
  split; [split; [exact sample_df_wf | reflexivity] |].
  exact (completeness_ratio_range sample_df sample_df_wf eq_refl).
Defined.

Lemma missing_by_column_lists_incomplete_columns_witness :
  (df_wf sample_df ∧ check_completeness sample_df = Ok sample_completeness) ∧
  (missing_by_column sample_completeness !! "Speed Limit" = Some 1%nat ↔
   ∃ s, assoc "Speed Limit" (columns sample_df) = Some s ∧
        isnull_sum s = 1%nat ∧ (0 < 1)%nat).
Proof.
  split; [split; [exact sample_df_wf | exact sample_completeness_ok] |].
  exact (missing_by_column_lists_incomplete_columns sample_df sample_completeness
           "Speed Limit" 1 sample_df_wf sample_completeness_ok).
Defined.

Lemma check_accuracy_findings_witness :
  check_accuracy located_df = Ok located_check ∧
  issues located_check =
    finding_if (invalid_coordinates located_df)
               (gps_msg (invalid_coordinates located_df)) ++
    finding_if (suspicious_speeds located_df)
               (suspicious_speed_msg (suspicious_speeds located_df)) ∧
  (status located_check = "Pass" ↔
   invalid_coordinates located_df = 0%nat ∧ suspicious_speeds located_df = 0%nat) ∧
  (status located_check = "Pass" ∨ status located_check = "Warning").
Proof.
  split; [exact located_check_ok |].
  exact (check_accuracy_findings located_df located_check located_check_ok).
Defined.

Lemma legacy_pass_rules_out_negative_speeds_witness :
  (df_empty clean_df = false ∧
   check_accuracy clean_df = Ok clean_check ∧
   run_audit no_parser no_epoch 2025 sample_now clean_df = Ok clean_report) ∧
  (negative_speeds clean_df <= suspicious_speeds clean_df)%nat ∧
  (status clean_check = "Pass" →
   let F := future_dated no_parser no_epoch sample_now clean_df in
   let Y := invalid_years 2025 clean_df in
   filter (λ m, accuracy_finding m = true) (summary clean_report) =
   finding_if F (future_msg F) ++ finding_if Y (years_msg Y 2025)).
Proof.
  split; [split; [reflexivity | split; [exact clean_check_ok | exact clean_report_ok]] |].
  exact (legacy_pass_rules_out_negative_speeds no_parser no_epoch 2025 sample_now
           clean_df clean_check clean_report eq_refl clean_check_ok clean_report_ok).
Defined.

Lemma engine_frame_stays_well_formed_witness :
  let st' := fst (run_ops plain_str false sample_ops (sample_store, sample_engine)) in
  (sample_store !! self_df sample_engine = Some sample_df ∧ df_wf sample_df) ∧
  ∃ d',
    fst st' !! self_df (snd st') = Some d' ∧ df_wf d' ∧
    (nrows d' <= nrows sample_df)%nat ∧
    map fst (columns d') = map fst (columns sample_df).
Proof.
  cbv zeta. split; [split; [reflexivity | exact sample_df_wf] |].
  exact (engine_frame_stays_well_formed plain_str false sample_ops sample_store
           sample_engine sample_df eq_refl sample_df_wf).
Defined.

Lemma drop_nulls_keeps_complete_rows_witness :
  let cols := ["Speed Limit"; "Vehicle Year"] in
  let h' := fst (fst dropped) in
  let self' := snd (fst dropped) in
  let l := snd dropped in
  drop_nulls sample_now cols (sample_store, sample_engine) = Ok (h', self', l) ∧
  ∃ d d',
    sample_store !! self_df sample_engine = Some d ∧
    l = self_df sample_engine ∧ self_df self' = self_df sample_engine ∧
    h' !! l = Some d' ∧
    d' = df_filter (complete_rows d cols) d ∧
    history self' = history sample_engine ++
      [mkLogEntry (strftime sample_now) ("Drop Nulls in " ++ String.concat ", " cols)
         (removed_msg (nrows d) (nrows d'))] ∧
    (∀ col, In col cols →
       ∃ s', assoc col (columns d') = Some s' ∧ isnull_sum s' = 0%nat).
Proof.
  cbv zeta. split; [exact dropped_ok |].
  exact (drop_nulls_keeps_complete_rows sample_now ["Speed Limit"; "Vehicle Year"]
           sample_store (fst (fst dropped)) sample_engine (snd (fst dropped))
           (snd dropped) dropped_ok).
Defined.

Lemma drop_nulls_twice_removes_nothing_witness :
  let cols := ["Speed Limit"; "Vehicle Year"] in
  let h' := fst (fst dropped) in
  let self' := snd (fst dropped) in
  let l := snd dropped in
  (sample_store !! self_df sample_engine = Some sample_df ∧ df_wf sample_df ∧
   drop_nulls sample_now cols (sample_store, sample_engine) = Ok (h', self', l)) ∧
  ∃ self'',
    drop_nulls later_now cols (h', self') = Ok (h', self'', l) ∧
    history self'' = history self' ++
      [mkLogEntry (strftime later_now) ("Drop Nulls in " ++ String.concat ", " cols)
         "Removed 0 rows."].
Proof.
  cbv zeta. split; [split; [reflexivity | split; [exact sample_df_wf | exact dropped_ok]] |].
  exact (drop_nulls_twice_removes_nothing sample_now later_now
           ["Speed Limit"; "Vehicle Year"] sample_store (fst (fst dropped))
           sample_engine (snd (fst dropped)) (snd dropped) sample_df
           eq_refl sample_df_wf dropped_ok).
Defined.

Lemma fill_nulls_fills_missing_cells_witness :
  let h' := fst (fst filled) in
  let self' := snd (fst filled) in
  let l := snd filled in
  let value := Str "Unknown" in
  fill_nulls plain_str false sample_now "Speed Limit" value
             (sample_store, sample_engine) = Ok (h', self', l) ∧
  ∃ d s,
    sample_store !! self_df sample_engine = Some d ∧
    assoc "Speed Limit" (columns d) = Some s ∧
    is_na value = false ∧
    l = self_df sample_engine ∧ self_df self' = self_df sample_engine ∧
    history self' = history sample_engine ++
      [mkLogEntry (strftime sample_now) ("Fill Nulls in " ++ "Speed Limit")
         ("Filled " ++ str_of_nat (isnull_sum s) ++ " values with '" ++
          py_str plain_str value ++ "'.")] ∧
    (false = true → h' = sample_store) ∧
    (false = false →
     ∃ d' s',
       h' !! l = Some d' ∧ assoc "Speed Limit" (columns d') = Some s' ∧
       nrows d' = nrows d ∧
       (∀ other, other ≠ "Speed Limit" →
                 assoc other (columns d') = assoc other (columns d)) ∧
       Forall2 (λ old new, if is_na old then new = value else new = old) s s' ∧
       isnull_sum s' = 0%nat ∧
       ∀ l', l' ≠ l → h' !! l' = sample_store !! l').
Proof.
  cbv zeta. split; [exact filled_ok |].
  exact (fill_nulls_fills_missing_cells plain_str false sample_now "Speed Limit"
           (Str "Unknown") sample_store (fst (fst filled)) sample_engine
           (snd (fst filled)) (snd filled) filled_ok).
Defined.

Lemma filter_by_year_keeps_recent_rows_witness :
  let h' := fst (fst filtered) in
  let self' := snd (fst filtered) in
  let l := snd filtered in
  let col := "Vehicle Year" in
  filter_by_year sample_now col 2021 (sample_store, sample_engine) = Ok (h', self', l) ∧
  ∃ d d' s,
    sample_store !! self_df sample_engine = Some d ∧ assoc col (columns d) = Some s ∧
    l = self_df self' ∧ (l ∉ dom sample_store) ∧
    h' !! self_df sample_engine = Some d ∧
    h' !! l = Some d' ∧
    d' = df_filter (map (at_least (inject_Z 2021)) s) d ∧
    assoc col (columns d') =
      Some (filter (λ c, at_least (inject_Z 2021) c = true) s) ∧
    (∀ c, In c (column_or_empty d' col) →
          ∃ q, c = Num q ∧ (inject_Z 2021 <= q)%Q) ∧
    history self' = history sample_engine ++
      [mkLogEntry (strftime sample_now) ("Filter " ++ col ++ " >= " ++ str_of_Z 2021)
         (removed_msg (nrows d) (nrows d'))].
Proof.
  cbv zeta. split; [exact filtered_ok |].
  exact (filter_by_year_keeps_recent_rows sample_now "Vehicle Year" 2021
           sample_store (fst (fst filtered)) sample_engine (snd (fst filtered))
           (snd filtered) filtered_ok).
Defined.

Lemma engine_call_changes_only_its_frame_witness :
  let h' := fst (fst filtered) in
  let self' := snd (fst filtered) in
  let l := snd filtered in
  run_op plain_str false sample_now (FilterByYear "Vehicle Year" 2021)
         (sample_store, sample_engine) = Ok (h', self', l) ∧
  l = self_df self' ∧
  (∀ l', l' ≠ l → h' !! l' = sample_store !! l') ∧
  (l ∉ dom sample_store).
Proof.
  cbv zeta. split; [exact filtered_ok |].
  exact (engine_call_changes_only_its_frame plain_str false sample_now
           (FilterByYear "Vehicle Year" 2021) sample_store (fst (fst filtered))
           sample_engine (snd (fst filtered)) (snd filtered) filtered_ok).
Defined.

Lemma data_dictionary_describes_each_column_witness :
  df_wf sample_df ∧
  ∃ rows,
    get_data_dictionary sample_df = Ok rows ∧
    Forall2 (λ row c,
               dd_column row = fst c ∧
               (dd_non_null_count row + isnull_sum (snd c) = nrows sample_df)%nat ∧
               dd_sample_value row = hd NA (snd c) ∧
               (nrows sample_df = 0%nat → dd_sample_value row = NA))
            rows (columns sample_df).
Proof.
  split; [exact sample_df_wf |].
  exact (data_dictionary_describes_each_column sample_df sample_df_wf).
Defined.

Lemma data_dictionary_agrees_with_audit_witness :
  (df_wf sample_df ∧ df_empty sample_df = false ∧
   run_audit no_parser no_epoch 2025 sample_now sample_df = Ok sample_report ∧
   get_data_dictionary sample_df = Ok sample_dictionary) ∧
  map dd_column sample_dictionary = map cs_column_name (column_stats sample_report) ∧
  map dd_type sample_dictionary = map cs_type (column_stats sample_report).
Proof.
  split; [split; [exact sample_df_wf | split; [reflexivity |
          split; [exact sample_report_ok | exact sample_dictionary_ok]]] |].
  exact (data_dictionary_agrees_with_audit no_parser no_epoch 2025 sample_now
           sample_df sample_report sample_dictionary sample_df_wf eq_refl
           sample_report_ok sample_dictionary_ok).
Defined.

(** ** The model at work *)

Example fmt_thousands_groups : fmt_thousands 1234567 = "1,234,567".
Proof. reflexivity. Qed.

Example fmt_thousands_small : fmt_thousands 999 = "999".
Proof. reflexivity. Qed.

Example fmt_2f_rounds : fmt_2f (5 # 3) = "1.67".
Proof. reflexivity. Qed.

Example fmt_2f_negative_zero : fmt_2f (- (1 # 1000)) = "-0.00".
Proof. reflexivity. Qed.

Example strftime_pads : strftime (mkTimestamp 2024 3 9 7 5 0 0) = "2024-03-09 07:05:00".
Proof. reflexivity. Qed.

Example sample_summary :
  summary sample_report =
  ["Key field 'Crash Date/Time' exceeds 1% missing threshold (25.00%).";
   "Found 1 duplicate IDs based on 'Report Number'.";
   "Detected 1 records with crashes in the future.";
   "Detected 1 vehicles with years beyond 2026.";
   "Detected 1 negative values in Speed Limit."].
Proof. reflexivity. Qed.

Example sample_statuses :
  map cs_status (column_stats sample_report) =
  ["Valid"; "Valid"; "Critical"; "Warning"; "Warning"].
Proof. reflexivity. Qed.

Example sample_latest_date : latest_date sample_report = "2026-01-01 00:00:00".
Proof. reflexivity. Qed.

Example sample_scores :
  ∃ c s a h,
    scores sample_report !! "completeness" = Some c ∧ (c == 85)%Q ∧
    scores sample_report !! "consistency" = Some s ∧ (s == 75)%Q ∧
    scores sample_report !! "accuracy" = Some a ∧ (a == 75)%Q ∧
    health_score sample_report = Some h ∧ (h == 235 # 3)%Q.
Proof. do 4 eexists. repeat split. Qed.

(** A timestamp column with every cell missing makes the audit raise:
    [max()] is NaT, and NaT has no [strftime]. *)
Example audit_raises_on_all_missing_dates :
  run_audit no_parser no_epoch 2025 sample_now
            (mkDataFrame 1 [("Crash Date/Time", [NA])]) = Raise ValueError.
Proof. reflexivity. Qed.

Example audit_raises_on_text_speed :
  run_audit no_parser no_epoch 2025 sample_now
            (mkDataFrame 1 [("Speed Limit", [Str "fast"])]) = Raise TypeError.
Proof. reflexivity. Qed.

Example impute_median_sample :
  ∃ df', impute_column plain_str left_to_right_mean sample_df "Speed Limit" "Median" =
           Ok (df', "Imputed 'Speed Limit' with Median: 35.00") ∧
         assoc "Speed Limit" (columns df') = Some [Num 35; Num (-5); Num 40; Num 35].
Proof. eexists. split; reflexivity. Qed.

Example impute_mode_sample :
  ∃ df', impute_column plain_str left_to_right_mean sample_df "Agency Name" "Mode" =
           Ok (df', "Imputed 'Agency Name' with Mode: MCP").
Proof. eexists. reflexivity. Qed.

Example impute_mode_sentinel :
  impute_column plain_str left_to_right_mean all_missing_df "x" "Mode" =
  Ok (mkDataFrame 2 [("x", [Str "N/A"; Str "N/A"])], "Imputed 'x' with Mode: N/A").
Proof. reflexivity. Qed.

Example impute_drop_sample :
  ∃ df', impute_column plain_str left_to_right_mean sample_df "Speed Limit" "Drop" =
           Ok (df', "Dropped 1 rows with missing values in 'Speed Limit'") ∧
         nrows df' = 3%nat.
Proof. eexists. split; reflexivity. Qed.

Example impute_missing_column_raises :
  impute_column plain_str left_to_right_mean sample_df "Weather" "Interpolate" = Raise KeyError.
Proof. reflexivity. Qed.

Example engine_history_sample :
  ∃ h0 self h' self',
    engine_init ({[ 1%positive := sample_df ]} : gmap positive DataFrame) 1%positive
      = Ok (h0, self) ∧
    run_ops plain_str false
      [(sample_now, DropNulls ["Speed Limit"; "Vehicle Year"]);
       (sample_now, FillNulls "Crash Date/Time" (Str "unknown"));
       (sample_now, FilterByYear "Vehicle Year" 2025)] (h0, self)
      = (h', self', None) ∧
    map log_impact (history self') =
      ["Removed 2 rows."; "Filled 0 values with 'unknown'."; "Removed 1 rows."] ∧
    nrows <$> h' !! self_df self' = Some 1%nat ∧
    h' !! 1%positive = Some sample_df.
Proof. do 4 eexists. split; [| split; [| repeat split]]; vm_compute; reflexivity. Qed.

Example located_findings :
  check_accuracy located_df =
  Ok (mkCheckResult "Warning"
        ["Found 2 rows with invalid GPS coordinates.";
         "Found 2 rows with suspicious Speed Limit values."]).
Proof. reflexivity. Qed.

Example clean_passes : check_accuracy clean_df = Ok (mkCheckResult "Pass" []).
Proof. reflexivity. Qed.

Example text_speed_raises :
  check_accuracy (mkDataFrame 1 [("Speed Limit", [Str "fast"])]) = Raise TypeError.
Proof. reflexivity. Qed.

Example sample_metrics : get_metrics dup_df = Ok (mkMetrics 4 1 1).
Proof. reflexivity. Qed.

Example subset_duplicates_message :
  snd deduplicated = "Removed 1 duplicate rows based on ['a', 'b']".
Proof. reflexivity. Qed.

Example unknown_subset_raises :
  drop_duplicates quoted dup_df (Some ["zz"]) = Raise KeyError.
Proof. reflexivity. Qed.

Example dates_message :
  snd dated =
  "Standardized 'd' to datetime. (Note: 1 values failed to parse and were set to NaT)".
Proof. reflexivity. Qed.

Example sample_pain_point :
  get_main_pain_point sample_df = Ok (mkPainPoint "Crash Date/Time" 1).
Proof. reflexivity. Qed.

Example sample_missing_by_column :
  missing_by_column sample_completeness =
  {[ "Crash Date/Time" := 1%nat; "Vehicle Year" := 1%nat; "Speed Limit" := 1%nat ]}.
Proof. vm_compute. reflexivity. Qed.

Example sample_history :
  map log_impact (history (snd (fst (run_ops plain_str false sample_ops
                                       (sample_store, sample_engine))))) =
  ["Removed 1 rows."; "Removed 2 rows."].
Proof. vm_compute. reflexivity. Qed.

Example failed_call_logs_nothing :
  let end_state :=
    run_ops plain_str false [(sample_now, DropNulls ["Speed Limit"]);
                       (later_now, FillNulls "No Such Column" (Num 0))]
            (sample_store, sample_engine) in
  snd end_state = Some KeyError ∧
  map log_operation (history (snd (fst end_state))) = ["Drop Nulls in Speed Limit"].
Proof. vm_compute. split; reflexivity. Qed.

(** ** Floats *)

(** The binary64 rounding of the model against the floats of the kernel:
    the same percentages and consistency scores on every table of up to
    64 rows. *)
Example binary64_agrees_with_kernel_floats :
  forallb kernel_agrees (seq 1 64) = true.
Proof. vm_compute. reflexivity. Qed.

(** Twenty-three missing of a hundred and sixty is 14.375%; the float is
    a little below, and prints as 14.37. *)
Example sparse_percentage :
  ∃ r,
    run_audit no_parser no_epoch 2025 sample_now sparse_df = Ok r ∧
    map cs_pct_missing (column_stats r) = ["14.37%"] ∧
    summary r =
      ["Key field 'Report Number' exceeds 1% missing threshold (14.37%).";
       "Found 22 duplicate IDs based on 'Report Number'."] ∧
    (missing_pct 160 (column_or_empty sparse_df "Report Number") == 14375 # 1000)%Q ∧
    fmt_2f (14375 # 1000) = "14.38".
Proof.
  eexists. split; [vm_compute; reflexivity |].
  split; [reflexivity |]. split; [reflexivity |].
  split; vm_compute; reflexivity.
Qed.

Example repeated_score :
  scores repeated_report !! "consistency" = Some (1172812402961067 # 35184372088832).
Proof. vm_compute. reflexivity. Qed.

(** A timestamp column with nothing but NaT has a year, and the check
    passes; the same cells in a float64 column have no [.dt]. *)
Example undated_passes :
  check_consistency true undated_df = Ok (mkCheckResult "Pass" []) ∧
  check_consistency false undated_df = Raise AttributeError.
Proof. split; reflexivity. Qed.

(** With copy-on-write [fill_nulls] logs the fill and fills nothing. *)
Example fill_on_copy :
  fst (fst filled_on_copy) = sample_store ∧
  map log_impact (history (snd (fst filled_on_copy))) =
    ["Filled 1 values with 'Unknown'."] ∧
  map log_impact (history (snd (fst filled))) =
    ["Filled 1 values with 'Unknown'."] ∧
  (λ d, column_or_empty d "Speed Limit") <$> fst (fst filled) !! 1%positive =
    Some [Num 35; Num (-5); Num 40; Str "Unknown"].
Proof. vm_compute. repeat split. Qed.

Example fill_with_missing_value_is_outside :
  fill_nulls plain_str false sample_now "Speed Limit" NA
             (sample_store, sample_engine) = Raise Unsupported.
Proof. reflexivity. Qed.

Example empty_column_sample_value :
  get_data_dictionary no_rows_df =
  Ok [mkDictionaryRow "Report Number" "float64" 0 NA].
Proof. reflexivity. Qed.

(** Two values of [2^1023] add up to infinity in Python: the mean and the
    median of such a column are outside the model. *)
Example overflowing_sum_is_outside :
  let df := mkDataFrame 3 [("x", [Num (2 ^ 1023); Num (2 ^ 1023); NA])] in
  left_to_right_mean [2 ^ 1023; 2 ^ 1023]%Q = None ∧
  impute_column plain_str left_to_right_mean df "x" "Mean" = Raise Unsupported ∧
  impute_column plain_str left_to_right_mean df "x" "Median" = Raise Unsupported.
Proof. vm_compute. repeat split. Qed.
